(** * content-pipeline-agent: the trend pipeline and its scheduler

    A shallow embedding of the scoring engine ([trend_graph/nodes/score.py]),
    the run state ([trend_graph/state.py]), the generate and publish stages
    ([nodes/generate.py], [nodes/post.py]), the workflow graph
    ([trend_graph/graph.py]) and the job scheduler ([backend/scheduler.py]).

    Conventions of the embedding.
    - Python [float] arithmetic is abstracted by the interface [PyFloat]; the
      code is written once against it.  The instance [exact] interprets it in
      the rationals (no rounding): the general theorems are proved there.
      The instance [ieee] interprets it in IEEE-754 binary64 (round to
      nearest even), which is what CPython executes: it is used to evaluate
      the code on concrete posts.
    - Effects are explicit: a state-and-exception monad [M] over a [World]
      holding the run's [TrendState] object, the number of clock readings
      taken so far and the trace of external calls.  The external
      collaborators (clock, scraper, ledger, language model, publishing
      client) are oracles collected in [Env].
    - Logging is not modelled. *)

From Stdlib Require Import ZArith QArith Qminmax Qabs String Ascii List Bool Lia Lqa.
From Stdlib Require Import Sorting.Sorted Sorting.Permutation SpecFloat.
From stdpp Require Import gmap strings pretty.
Import ListNotations.

Set Implicit Arguments.
Unset Strict Implicit.

(* ================================================================== *)
(** * Python numbers *)

Module PyNum.

(** The float operations the pipeline uses.  [None] stands for the
    exception Python raises ([OverflowError], [ZeroDivisionError]). *)
Class PyFloat (F : Type) := {
  float_of_int : Z -> option F;     (* implicit int -> float conversion *)
  int_truediv : Z -> Z -> option F; (* [a / b] on two ints *)
  flit : Q -> F;                    (* a decimal literal of the source text *)
  fsub : F -> F -> F;
  fmul : F -> F -> F;
  fdiv : F -> F -> option F;
  fltb : F -> F -> bool;            (* [x < y] *)
  fleb : F -> F -> bool             (* [x <= y] *)
}.

(** [max(a, b)]: the builtin keeps its first argument unless a later one is
    strictly greater. *)
Definition py_max {F} `{PyFloat F} (a b : F) : F :=
  if fltb a b then b else a.

(** ** Exact arithmetic *)

Definition Qltb (x y : Q) : bool := negb (Qle_bool y x).

#[export] Instance exact : PyFloat Q := {
  float_of_int z := Some (inject_Z z);
  int_truediv a b :=
    if (b =? 0)%Z then None else Some (inject_Z a / inject_Z b)%Q;
  flit q := q;
  fsub := Qminus;
  fmul := Qmult;
  fdiv x y := if Qeq_bool y 0 then None else Some (x / y)%Q;
  fltb := Qltb;
  fleb := Qle_bool
}.

(** ** IEEE-754 binary64 *)

Definition prec : Z := 53.
Definition emax : Z := 1024.

Definition binary64 := spec_float.

(** An integer as an exact (unrounded) operand. *)
Definition exactZ (z : Z) : binary64 :=
  match z with
  | Z0 => S754_zero false
  | Zpos p => S754_finite false p 0
  | Zneg p => S754_finite true p 0
  end.

Definition is_inf (x : binary64) : bool :=
  match x with S754_infinity _ => true | _ => false end.

Definition is_nan (x : binary64) : bool :=
  match x with S754_nan => true | _ => false end.

Definition is_zero (x : binary64) : bool :=
  match x with S754_zero _ => true | _ => false end.

Definition is_finite (x : binary64) : bool :=
  match x with S754_zero _ | S754_finite _ _ _ => true | _ => false end.

(** Conversions and int division round correctly and raise
    [OverflowError] when the result is out of range; float division raises
    [ZeroDivisionError] on a zero divisor; multiplication and subtraction
    never raise (they overflow to an infinity). *)
Definition guard_overflow (x : binary64) : option binary64 :=
  if is_inf x then None else Some x.

#[export] Instance ieee : PyFloat binary64 := {
  float_of_int z := guard_overflow (binary_normalize prec emax z 0 false);
  int_truediv a b :=
    if (b =? 0)%Z then None
    else guard_overflow (SFdiv prec emax (exactZ a) (exactZ b));
  flit q := SFdiv prec emax (exactZ (Qnum q)) (exactZ (Zpos (Qden q)));
  fsub := SFsub prec emax;
  fmul := SFmul prec emax;
  fdiv x y := if is_zero y then None else Some (SFdiv prec emax x y);
  fltb := SFltb;
  fleb := SFleb
}.

End PyNum.
Import PyNum.

(* ================================================================== *)
(** * trend_graph/state.py: the data model *)

Inductive PostStatus :=
| RAW | SCORED | GENERATED | POSTED | METRICS_COLLECTED | FAILED.

Definition PostStatus_eqb (a b : PostStatus) : bool :=
  match a, b with
  | RAW, RAW | SCORED, SCORED | GENERATED, GENERATED | POSTED, POSTED
  | METRICS_COLLECTED, METRICS_COLLECTED | FAILED, FAILED => true
  | _, _ => false
  end.

Section DataModel.
Context {F : Type}.

(** Timestamps ([datetime] values and epoch seconds) are floats. *)

Record RawPost := {
  reddit_id : string;
  title : string;
  url : string;
  upvotes : Z;
  created_utc : F;
  subreddit : string;
  permalink : string;
  num_comments : Z;
  upvote_ratio : F;
  scraped_at : F
}.

Record ScoredPost := {
  raw_post : RawPost;
  score : F;
  meets_threshold : bool;
  scored_at : F
}.

Record GeneratedPost := {
  scored_post : ScoredPost;
  tweet_text : string;
  generated_at : F
}.

Record PostResult := {
  generated_post : GeneratedPost;
  tweet_url : option string;
  tweet_id : option string;
  posted_at : option F;
  likes : option Z;
  retweets : option Z;
  metrics_collected_at : option F;
  status : PostStatus;
  result_error : option string       (* PostResult.error_message *)
}.

(** [PostResult(generated_post=...)] with the dataclass defaults. *)
Definition new_PostResult (g : GeneratedPost) : PostResult :=
  {| generated_post := g; tweet_url := None; tweet_id := None;
     posted_at := None; likes := None; retweets := None;
     metrics_collected_at := None; status := GENERATED;
     result_error := None |}.

Definition mark_posted (r : PostResult) (turl tid : string) (now : F)
  : PostResult :=
  {| generated_post := generated_post r; tweet_url := Some turl;
     tweet_id := Some tid; posted_at := Some now; likes := likes r;
     retweets := retweets r; metrics_collected_at := metrics_collected_at r;
     status := POSTED; result_error := result_error r |}.

Definition mark_failed (r : PostResult) (msg : string) : PostResult :=
  {| generated_post := generated_post r; tweet_url := tweet_url r;
     tweet_id := tweet_id r; posted_at := posted_at r; likes := likes r;
     retweets := retweets r; metrics_collected_at := metrics_collected_at r;
     status := FAILED; result_error := Some msg |}.

Record TrendState := {
  raw_posts : list RawPost;
  scored_posts : list ScoredPost;
  generated_posts : list GeneratedPost;
  results : list PostResult;
  workflow_id : string;
  started_at : option F;
  completed_at : option F;
  current_step : string;
  error_message : option string;
  min_score : F;
  subreddits : list string;
  total_scraped : Z;
  total_scored : Z;
  total_generated : Z;
  total_posted : Z;
  total_failed : Z
}.

End DataModel.

Arguments RawPost : clear implicits.
Arguments ScoredPost : clear implicits.
Arguments GeneratedPost : clear implicits.
Arguments PostResult : clear implicits.
Arguments TrendState : clear implicits.

(** ** TrendState methods

    The methods that read [datetime.utcnow()] take the reading as [now]. *)

Section TrendStateMethods.
Context {F : Type} `{PyFloat F}.

(** [TrendState()] with the dataclass defaults. *)
Definition new_TrendState : TrendState F :=
  {| raw_posts := []; scored_posts := []; generated_posts := [];
     results := []; workflow_id := ""; started_at := None;
     completed_at := None; current_step := ""; error_message := None;
     min_score := flit 200.0;
     subreddits := ["interestingasfuck"; "technology"; "pics"]%string;
     total_scraped := 0; total_scored := 0; total_generated := 0;
     total_posted := 0; total_failed := 0 |}.

Definition start_workflow (wid : string) (now : F) (s : TrendState F)
  : TrendState F :=
  {| raw_posts := raw_posts s; scored_posts := scored_posts s;
     generated_posts := generated_posts s; results := results s;
     workflow_id := wid; started_at := Some now;
     completed_at := completed_at s; current_step := "starting";
     error_message := None; min_score := min_score s;
     subreddits := subreddits s; total_scraped := total_scraped s;
     total_scored := total_scored s; total_generated := total_generated s;
     total_posted := total_posted s; total_failed := total_failed s |}.

Definition complete_workflow (now : F) (s : TrendState F) : TrendState F :=
  {| raw_posts := raw_posts s; scored_posts := scored_posts s;
     generated_posts := generated_posts s; results := results s;
     workflow_id := workflow_id s; started_at := started_at s;
     completed_at := Some now; current_step := "completed";
     error_message := error_message s; min_score := min_score s;
     subreddits := subreddits s; total_scraped := total_scraped s;
     total_scored := total_scored s; total_generated := total_generated s;
     total_posted := total_posted s; total_failed := total_failed s |}.

Definition fail_workflow (msg : string) (now : F) (s : TrendState F)
  : TrendState F :=
  {| raw_posts := raw_posts s; scored_posts := scored_posts s;
     generated_posts := generated_posts s; results := results s;
     workflow_id := workflow_id s; started_at := started_at s;
     completed_at := Some now; current_step := "failed";
     error_message := Some msg; min_score := min_score s;
     subreddits := subreddits s; total_scraped := total_scraped s;
     total_scored := total_scored s; total_generated := total_generated s;
     total_posted := total_posted s; total_failed := total_failed s |}.

Definition update_step (step_name : string) (s : TrendState F)
  : TrendState F :=
  {| raw_posts := raw_posts s; scored_posts := scored_posts s;
     generated_posts := generated_posts s; results := results s;
     workflow_id := workflow_id s; started_at := started_at s;
     completed_at := completed_at s; current_step := step_name;
     error_message := error_message s; min_score := min_score s;
     subreddits := subreddits s; total_scraped := total_scraped s;
     total_scored := total_scored s; total_generated := total_generated s;
     total_posted := total_posted s; total_failed := total_failed s |}.

Definition set_min_score (m : F) (s : TrendState F) : TrendState F :=
  {| raw_posts := raw_posts s; scored_posts := scored_posts s;
     generated_posts := generated_posts s; results := results s;
     workflow_id := workflow_id s; started_at := started_at s;
     completed_at := completed_at s; current_step := current_step s;
     error_message := error_message s; min_score := m;
     subreddits := subreddits s; total_scraped := total_scraped s;
     total_scored := total_scored s; total_generated := total_generated s;
     total_posted := total_posted s; total_failed := total_failed s |}.

Definition set_subreddits (l : list string) (s : TrendState F)
  : TrendState F :=
  {| raw_posts := raw_posts s; scored_posts := scored_posts s;
     generated_posts := generated_posts s; results := results s;
     workflow_id := workflow_id s; started_at := started_at s;
     completed_at := completed_at s; current_step := current_step s;
     error_message := error_message s; min_score := min_score s;
     subreddits := l; total_scraped := total_scraped s;
     total_scored := total_scored s; total_generated := total_generated s;
     total_posted := total_posted s; total_failed := total_failed s |}.

Definition add_raw_posts (posts : list (RawPost F)) (s : TrendState F)
  : TrendState F :=
  {| raw_posts := raw_posts s ++ posts; scored_posts := scored_posts s;
     generated_posts := generated_posts s; results := results s;
     workflow_id := workflow_id s; started_at := started_at s;
     completed_at := completed_at s; current_step := current_step s;
     error_message := error_message s; min_score := min_score s;
     subreddits := subreddits s;
     total_scraped := total_scraped s + Z.of_nat (length posts);
     total_scored := total_scored s; total_generated := total_generated s;
     total_posted := total_posted s; total_failed := total_failed s |}.

Definition add_scored_posts (posts : list (ScoredPost F)) (s : TrendState F)
  : TrendState F :=
  {| raw_posts := raw_posts s; scored_posts := scored_posts s ++ posts;
     generated_posts := generated_posts s; results := results s;
     workflow_id := workflow_id s; started_at := started_at s;
     completed_at := completed_at s; current_step := current_step s;
     error_message := error_message s; min_score := min_score s;
     subreddits := subreddits s; total_scraped := total_scraped s;
     total_scored := total_scored s + Z.of_nat (length posts);
     total_generated := total_generated s;
     total_posted := total_posted s; total_failed := total_failed s |}.

Definition add_generated_posts (posts : list (GeneratedPost F))
  (s : TrendState F) : TrendState F :=
  {| raw_posts := raw_posts s; scored_posts := scored_posts s;
     generated_posts := generated_posts s ++ posts; results := results s;
     workflow_id := workflow_id s; started_at := started_at s;
     completed_at := completed_at s; current_step := current_step s;
     error_message := error_message s; min_score := min_score s;
     subreddits := subreddits s; total_scraped := total_scraped s;
     total_scored := total_scored s;
     total_generated := total_generated s + Z.of_nat (length posts);
     total_posted := total_posted s; total_failed := total_failed s |}.

(** Number of results with the given status. *)
Definition count_status (st : PostStatus) (rs : list (PostResult F)) : nat :=
  length (List.filter (fun r => PostStatus_eqb (status r) st) rs).

Definition add_results (rs : list (PostResult F)) (s : TrendState F)
  : TrendState F :=
  {| raw_posts := raw_posts s; scored_posts := scored_posts s;
     generated_posts := generated_posts s; results := results s ++ rs;
     workflow_id := workflow_id s; started_at := started_at s;
     completed_at := completed_at s; current_step := current_step s;
     error_message := error_message s; min_score := min_score s;
     subreddits := subreddits s; total_scraped := total_scraped s;
     total_scored := total_scored s; total_generated := total_generated s;
     total_posted := total_posted s + Z.of_nat (count_status POSTED rs);
     total_failed := total_failed s + Z.of_nat (count_status FAILED rs) |}.

Definition get_posts_above_threshold (s : TrendState F)
  : list (ScoredPost F) :=
  List.filter (fun p => meets_threshold p) (scored_posts s).

Definition is_running (s : TrendState F) : bool :=
  match started_at s, completed_at s with
  | Some _, None => true
  | _, _ => false
  end.

End TrendStateMethods.

(* ================================================================== *)
(** * Effects *)

(** Exception classes the code distinguishes (all are subclasses of
    [Exception]). *)
Inductive ExcClass :=
| Exception | TweepyException | ZeroDivisionError | OverflowError
| RuntimeError | ValueError.

Inductive Result (A : Type) :=
| Ok (a : A)
| Raise (c : ExcClass) (msg : string).
Arguments Ok {A} a.
Arguments Raise {A} c msg.

(** Calls of [trend_graph/database.py] (the ledger). *)
Inductive DbOp :=
| save_post_record (rid : string)
| update_post_score (rid : string)
| update_post_content (rid : string)
| update_post_posted (rid : string)
| update_post_failed (rid : string)
| create_workflow_record (wid : string)
| update_workflow_stats (wid : string)
| db_complete_workflow (wid : string)
| db_fail_workflow (wid : string) (msg : string).

(** What a run leaves behind: the calls to the collaborators and the
    assignments to [TrendState.completed_at]. *)
Inductive Event :=
| EvAssignCompletedAt
| EvLedger (op : DbOp)
| EvScrape (sub : string)
| EvGenerate (rid : string)
| EvCreateTweet (text : string)
| EvSleep (seconds : Z).

Definition is_assign_completed_at (e : Event) : bool :=
  match e with EvAssignCompletedAt => true | _ => false end.
Definition is_generate (e : Event) : bool :=
  match e with EvGenerate _ => true | _ => false end.
Definition is_create_tweet (e : Event) : bool :=
  match e with EvCreateTweet _ => true | _ => false end.

(** The nodes of the workflow graph ([TrendWorkflow._build_graph]). *)
Inductive Node :=
| scrape_sources | score_virality | generate_content | post_content.

Section Pipeline.
Context {F : Type} {PF : PyFloat F}.

(** The collaborators.  The outcome of a ledger call may depend on
    everything that happened before it; the outcome of a generation or
    publish call is given per position of the item in its batch.
    [stage_fault n] stands for an exception raised inside the body of
    stage [n] that none of the stage's inner handlers catches (the
    "uncaught exception inside a stage" of the error taxonomy); the
    stage's own [except Exception] handler receives it. *)
Record Env := {
  clock : nat -> F;                        (* n-th [datetime.utcnow()] *)
  app_min_score : F;                       (* [app_config.min_score] *)
  app_subreddits : list string;            (* [app_config.subreddits] *)
  fresh_workflow_id : string;
  scrape_subreddit : string -> Result (list (RawPost F));
  ledger : list Event -> DbOp -> option string;   (* [Some msg]: raises *)
  completions_create : nat -> ScoredPost F -> Result (option string);
  twitter_client : bool;                   (* [poster.client] is set *)
  create_tweet : nat -> string -> Result (option string);
  stage_fault : Node -> option string
}.

Record World := {
  w_state : TrendState F;
  w_reads : nat;
  w_trace : list Event                     (* oldest first *)
}.

Definition M (A : Type) : Type := World -> Result A * World.

Definition ret {A} (a : A) : M A := fun w => (Ok a, w).

Definition bind {A B} (m : M A) (k : A -> M B) : M B :=
  fun w =>
    match m w with
    | (Ok a, w') => k a w'
    | (Raise c msg, w') => (Raise c msg, w')
    end.

Definition raise {A} (c : ExcClass) (msg : string) : M A :=
  fun w => (Raise c msg, w).

(** [try: m  except Exception as e: h e] *)
Definition try_except {A} (m : M A) (h : ExcClass -> string -> M A) : M A :=
  fun w =>
    match m w with
    | (Ok a, w') => (Ok a, w')
    | (Raise c msg, w') => h c msg w'
    end.

Definition or_raise {A} (c : ExcClass) (msg : string) (o : option A) : M A :=
  match o with Some a => ret a | None => raise c msg end.

Definition emit (e : Event) : M unit :=
  fun w => (Ok tt, {| w_state := w_state w; w_reads := w_reads w;
                      w_trace := w_trace w ++ [e] |}).

Definition get_state : M (TrendState F) := fun w => (Ok (w_state w), w).

Definition modify_state (f : TrendState F -> TrendState F) : M unit :=
  fun w => (Ok tt, {| w_state := f (w_state w); w_reads := w_reads w;
                      w_trace := w_trace w |}).

(** [asyncio.gather(..., return_exceptions=True)] hands an exception of a
    task back as that task's result. *)
Definition capture {A} (m : M A) : M (Result A) :=
  fun w => let (r, w') := m w in (Ok r, w').

Definition of_result {A} (r : Result A) : M A :=
  match r with Ok a => ret a | Raise c msg => raise c msg end.

End Pipeline.

Arguments Env F : clear implicits.
Arguments World F : clear implicits.
Arguments M F A : clear implicits.

Declare Scope pipeline_scope.
Notation "x <- m ;; k" := (bind m (fun x => k))
  (at level 100, m at next level, k at level 200, right associativity)
  : pipeline_scope.
Notation "m ;; k" := (bind m (fun _ => k))
  (at level 100, k at level 200, right associativity) : pipeline_scope.
Open Scope pipeline_scope.

Section Workflow.
Context {F : Type} {PF : PyFloat F}.
Variable env : Env F.

(** [datetime.utcnow()] *)
Definition utcnow : M F F :=
  fun w => (Ok (clock env (w_reads w)),
            {| w_state := w_state w; w_reads := S (w_reads w);
               w_trace := w_trace w |}).

(** A call into [database.py]. *)
Definition db (op : DbOp) : M F unit :=
  fun w =>
    let w' := {| w_state := w_state w; w_reads := w_reads w;
                 w_trace := w_trace w ++ [EvLedger op] |} in
    match ledger env (w_trace w) op with
    | Some msg => (Raise Exception msg, w')
    | None => (Ok tt, w')
    end.

Definition py_fdiv (x y : F) : M F F :=
  or_raise ZeroDivisionError "float division by zero" (fdiv x y).

Definition py_int_truediv (a b : Z) : M F F :=
  or_raise (if (b =? 0)%Z then ZeroDivisionError else OverflowError)
           "int division" (int_truediv a b).

Definition py_float (z : Z) : M F F :=
  or_raise OverflowError "int too large to convert to float" (float_of_int z).

(* ---------------------------------------------------------------- *)
(** ** trend_graph/nodes/score.py *)

(** [RawPost.age_minutes]: a property that reads the clock. *)
Definition age_minutes (post : RawPost F) : M F F :=
  now <- utcnow ;;
  py_fdiv (fsub now (created_utc post)) (flit 60.0).

(** [dict.get(key, default)] on the literal table. *)
Fixpoint dict_get (d : list (string * F)) (k : string) (default : F) : F :=
  match d with
  | [] => default
  | (k', v) :: d' => if String.eqb k' k then v else dict_get d' k default
  end.

Definition subreddit_multipliers : list (string * F) :=
  [ ("interestingasfuck", flit 1.0);
    ("technology", flit 1.1);
    ("pics", flit 0.9);
    ("programming", flit 1.2);
    ("MachineLearning", flit 1.3);
    ("artificial", flit 1.2) ]%string.

Definition _apply_scoring_factors (post : RawPost F) (base_score : F)
  : M F F :=
  let score := base_score in
  (* Factor 1: comment engagement ratio *)
  score <-
    (if (0 <? upvotes post)%Z then
       comment_ratio <- py_int_truediv (num_comments post) (upvotes post) ;;
       ret (if fltb (flit 0.1) comment_ratio
            then fmul score (flit 1.1) else score)
     else ret score) ;;
  (* Factor 2: upvote ratio quality *)
  let score :=
    if fltb (flit 0.9) (upvote_ratio post) then fmul score (flit 1.05)
    else if fltb (upvote_ratio post) (flit 0.7) then fmul score (flit 0.95)
    else score in
  (* Factor 3: subreddit-specific adjustments *)
  let multiplier :=
    dict_get subreddit_multipliers (subreddit post) (flit 1.0) in
  let score := fmul score multiplier in
  (* Factor 4: time-based adjustments *)
  age <- age_minutes post ;;
  age_hours <- py_fdiv age (flit 60) ;;
  if fltb (flit 12) age_hours then
    h <- py_fdiv (fsub age_hours (flit 12)) (flit 24) ;;
    let age_penalty := py_max (flit 0.5) (fsub (flit 1) h) in
    ret (fmul score age_penalty)
  else ret score.

Definition calculate_virality_score (post : RawPost F) : M F F :=
  age <- age_minutes post ;;
  base_score <-
    (if fltb age (flit 1)
     then py_int_truediv (upvotes post) 1          (* age_minutes = 1 *)
     else (u <- py_float (upvotes post) ;; py_fdiv u age)) ;;
  _apply_scoring_factors post base_score.

Definition score_post (post : RawPost F) : M F (ScoredPost F) :=
  score <- calculate_virality_score post ;;
  let meets := fleb (app_min_score env) score in    (* score >= min_score *)
  now <- utcnow ;;                                  (* scored_at default *)
  ret {| raw_post := post; score := score; meets_threshold := meets;
         scored_at := now |}.

(** [list.sort(key=lambda p: p.score, reverse=True)]: the builtin sort is
    stable, also under [reverse=True]; it is rendered as a stable
    insertion sort into descending order. *)
Fixpoint insert_by_score (p : ScoredPost F) (l : list (ScoredPost F))
  : list (ScoredPost F) :=
  match l with
  | [] => [p]
  | q :: l' =>
      if fltb (score p) (score q) then q :: insert_by_score p l'
      else p :: q :: l'
  end.

Definition sort_by_score_desc (l : list (ScoredPost F))
  : list (ScoredPost F) :=
  fold_right insert_by_score [] l.

(** The loop of [score_posts]: a post whose scoring raises is skipped. *)
Fixpoint score_posts_loop (posts : list (RawPost F))
  (scored : list (ScoredPost F)) : M F (list (ScoredPost F)) :=
  match posts with
  | [] => ret scored
  | post :: rest =>
      scored' <- try_except
                   (sp <- score_post post ;; ret (scored ++ [sp]))
                   (fun _ _ => ret scored) ;;
      score_posts_loop rest scored'
  end.

Definition score_posts (posts : list (RawPost F))
  : M F (list (ScoredPost F)) :=
  scored <- score_posts_loop posts [] ;;
  ret (sort_by_score_desc scored).

Definition scorer_get_posts_above_threshold (l : list (ScoredPost F))
  : list (ScoredPost F) :=
  List.filter (fun p => meets_threshold p) l.


(** The two methods of [TrendState] that assign [completed_at]. *)
Definition state_complete_workflow : M F unit :=
  now <- utcnow ;;
  emit EvAssignCompletedAt ;;
  modify_state (complete_workflow now).

Definition state_fail_workflow (msg : string) : M F unit :=
  now <- utcnow ;;
  emit EvAssignCompletedAt ;;
  modify_state (fail_workflow msg now).

(** An exception escaping the inner handlers of a stage body. *)
Definition fault (n : Node) : M F unit :=
  match stage_fault env n with
  | Some msg => raise Exception msg
  | None => ret tt
  end.

(** [try: await ledger_call  except Exception: logger.warning(...)] *)
Definition db_quiet (op : DbOp) : M F unit :=
  try_except (db op) (fun _ _ => ret tt).

Fixpoint for_each {A} (f : A -> M F unit) (l : list A) : M F unit :=
  match l with
  | [] => ret tt
  | a :: l' => f a ;; for_each f l'
  end.

(** Truthiness of an [Optional[str]]. *)
Definition truthy (o : option string) : bool :=
  match o with
  | Some s => negb (String.eqb s "")
  | None => false
  end.

(* ---------------------------------------------------------------- *)
(** ** trend_graph/nodes/scrape.py *)

Definition scrape_all_subreddits (wid : string) : M F (list (RawPost F)) :=
  (fix loop (subs : list string) (all_posts : list (RawPost F)) :=
     match subs with
     | [] => ret all_posts
     | sub :: rest =>
         all_posts' <-
           try_except
             (emit (EvScrape sub) ;;
              posts <- of_result (scrape_subreddit env sub) ;;
              for_each (fun p => db_quiet (save_post_record (reddit_id p)))
                       posts ;;
              emit (EvSleep 1) ;;
              ret (all_posts ++ posts))
             (fun _ _ => ret all_posts) ;;
         loop rest all_posts'
     end) (app_subreddits env) [].

Definition scrape_sources_node : M F unit :=
  modify_state (update_step "scraping") ;;
  try_except
    (fault scrape_sources ;;
     s <- get_state ;;
     raw <- scrape_all_subreddits (workflow_id s) ;;
     modify_state (add_raw_posts raw))
    (fun _ e =>
       state_fail_workflow ("Error in scrape sources node: " +:+ e)).

(** [score_virality_node] *)
Definition score_virality_node : M F unit :=
  modify_state (update_step "scoring") ;;
  try_except
    (fault score_virality ;;
     s <- get_state ;;
     match raw_posts s with
     | [] => ret tt
     | _ =>
         scored <- score_posts (raw_posts s) ;;
         for_each (fun sp =>
                     db_quiet (update_post_score (reddit_id (raw_post sp))))
                  scored ;;
         modify_state (add_scored_posts scored)
     end)
    (fun _ e =>
       state_fail_workflow ("Error in score virality node: " +:+ e)).

(* ---------------------------------------------------------------- *)
(** ** trend_graph/nodes/generate.py

    Text is a [string] whose characters are code points below 256. *)

(** [str.isspace] on one character. *)
Definition is_space (c : ascii) : bool :=
  let n := nat_of_ascii c in
  ((9 <=? n) && (n <=? 13) || (28 <=? n) && (n <=? 32)
   || (n =? 133) || (n =? 160))%nat.

Fixpoint lstrip_chars (l : list ascii) : list ascii :=
  match l with
  | c :: l' => if is_space c then lstrip_chars l' else l
  | [] => []
  end.

(** [str.strip()] *)
Definition strip (s : string) : string :=
  string_of_list_ascii
    (rev (lstrip_chars (rev (lstrip_chars (list_ascii_of_string s))))).

(** [generate_tweet], called for the item at position [i] of the batch:
    any exception of the call or of the post-processing yields [None]. *)
Definition generate_tweet (i : nat) (post : ScoredPost F)
  : M F (option string) :=
  try_except
    (emit (EvGenerate (reddit_id (raw_post post))) ;;
     content <- of_result (completions_create env i post) ;;
     (* response.choices[0].message.content.strip() *)
     tweet_text <-
       match content with
       | Some t => ret (strip t)
       | None =>
           raise Exception "'NoneType' object has no attribute 'strip'"
       end ;;
     let tweet_text :=
       if (280 <? String.length tweet_text)%nat
       then substring 0 277 tweet_text +:+ "..."
       else tweet_text in
     ret (Some tweet_text))
    (fun _ _ => ret None).

(** The tasks of [generate_tweets_batch].  They run under a semaphore of
    5; here they run in list order, which is one of the schedules the
    event loop allows, and the outcome of each call is fixed by the
    position of its item. *)
Fixpoint gather_tweets (i : nat) (posts : list (ScoredPost F))
  : M F (list (Result (ScoredPost F * option string))) :=
  match posts with
  | [] => ret []
  | post :: rest =>
      r <- capture (tweet_text <- generate_tweet i post ;;
                    ret (post, tweet_text)) ;;
      rs <- gather_tweets (S i) rest ;;
      ret (r :: rs)
  end.

(** The loop over the gathered results. *)
Fixpoint collect_generated
  (rs : list (Result (ScoredPost F * option string)))
  (generated : list (GeneratedPost F)) : M F (list (GeneratedPost F)) :=
  match rs with
  | [] => ret generated
  | Raise _ _ :: rest => collect_generated rest generated
  | Ok (post, tweet_text) :: rest =>
      if truthy tweet_text then
        now <- utcnow ;;                          (* generated_at default *)
        collect_generated rest
          (generated ++ [ {| scored_post := post;
                             tweet_text := default "" tweet_text;
                             generated_at := now |} ])
      else collect_generated rest generated
  end.

Definition generate_tweets_batch (posts : list (ScoredPost F))
  : M F (list (GeneratedPost F)) :=
  rs <- gather_tweets 0 posts ;;
  collect_generated rs [].

Definition generate_content_node : M F unit :=
  modify_state (update_step "generating") ;;
  try_except
    (fault generate_content ;;
     s <- get_state ;;
     match get_posts_above_threshold s with
     | [] => ret tt
     | posts_to_generate =>
         generated <- generate_tweets_batch posts_to_generate ;;
         for_each
           (fun g => db_quiet
                       (update_post_content
                          (reddit_id (raw_post (scored_post g)))))
           generated ;;
         modify_state (add_generated_posts generated)
     end)
    (fun _ e =>
       state_fail_workflow ("Error in generate content node: " +:+ e)).

(* ---------------------------------------------------------------- *)
(** ** trend_graph/nodes/post.py *)

(** [post_tweet] for the item at position [i] of the batch. *)
Definition post_tweet (i : nat) (g : GeneratedPost F) : M F (PostResult F) :=
  let result := new_PostResult g in
  let rid := reddit_id (raw_post (scored_post g)) in
  if negb (twitter_client env) then
    ret (mark_failed result "Twitter client not initialized")
  else
    let text := tweet_text g in
    if (280 <? String.length text)%nat then
      ret (mark_failed result
             ("Tweet too long: " +:+ pretty (String.length text)
                +:+ " characters"))
    else
      emit (EvCreateTweet text) ;;
      match create_tweet env i text with
      | Ok (Some tid) =>
          let turl := "https://twitter.com/user/status/" +:+ tid in
          now <- utcnow ;;
          db_quiet (update_post_posted rid) ;;
          ret (mark_posted result turl tid now)
      | Ok None =>
          ret (mark_failed result "Twitter API returned no data")
      | Raise TweepyException e =>
          db_quiet (update_post_failed rid) ;;
          ret (mark_failed result ("Twitter API error: " +:+ e))
      | Raise _ e =>
          db_quiet (update_post_failed rid) ;;
          ret (mark_failed result ("Unexpected error posting tweet: " +:+ e))
      end.

(** The loop of [post_tweets_batch] over [enumerate(generated_posts)];
    [n] is [len(generated_posts)]. *)
Fixpoint post_tweets_loop (n i : nat) (gs : list (GeneratedPost F))
  (results : list (PostResult F)) : M F (list (PostResult F)) :=
  match gs with
  | [] => ret results
  | g :: rest =>
      results' <-
        try_except
          (result <- post_tweet i g ;;
           (if (i <? n - 1)%nat then emit (EvSleep 3) else ret tt) ;;
           ret (results ++ [result]))
          (fun _ e =>
             ret (results ++ [mark_failed (new_PostResult g) e])) ;;
      post_tweets_loop n (S i) rest results'
  end.

Definition post_tweets_batch (gs : list (GeneratedPost F))
  : M F (list (PostResult F)) :=
  post_tweets_loop (length gs) 0 gs [].

Definition post_content_node : M F unit :=
  modify_state (update_step "posting") ;;
  try_except
    (fault post_content ;;
     s <- get_state ;;
     match generated_posts s with
     | [] => ret tt
     | gs =>
         rs <- post_tweets_batch gs ;;
         modify_state (add_results rs)
     end)
    (fun _ e =>
       state_fail_workflow ("Error in post content node: " +:+ e)).

(* ---------------------------------------------------------------- *)
(** ** trend_graph/graph.py *)

(** The conditional edges; [None] is [END]. *)
Definition should_continue_to_scoring (s : TrendState F) : option Node :=
  if truthy (error_message s) then None
  else match raw_posts s with
       | [] => None
       | _ => Some score_virality
       end.

Definition should_continue_to_generation (s : TrendState F) : option Node :=
  if truthy (error_message s) then None
  else match get_posts_above_threshold s with
       | [] => None
       | _ => Some generate_content
       end.

Definition should_continue_to_posting (s : TrendState F) : option Node :=
  if truthy (error_message s) then None
  else match generated_posts s with
       | [] => None
       | _ => Some post_content
       end.

Definition run_node (n : Node) : M F unit :=
  match n with
  | scrape_sources => scrape_sources_node
  | score_virality => score_virality_node
  | generate_content => generate_content_node
  | post_content => post_content_node
  end.

Definition next_node (n : Node) (s : TrendState F) : option Node :=
  match n with
  | scrape_sources => should_continue_to_scoring s
  | score_virality => should_continue_to_generation s
  | generate_content => should_continue_to_posting s
  | post_content => None
  end.

(** [graph.ainvoke(state)]: the compiled graph runs a node, follows its
    edge, and gives up after [limit] steps (the library's recursion
    limit). *)
Fixpoint ainvoke (limit : nat) (n : Node) : M F unit :=
  match limit with
  | O => raise RuntimeError "GraphRecursionError"
  | S limit' =>
      run_node n ;;
      s <- get_state ;;
      match next_node n s with
      | None => ret tt
      | Some n' => ainvoke limit' n'
      end
  end.

Definition recursion_limit : nat := 25.

(** [TrendWorkflow.run_workflow]; the returned state is the [w_state] of
    the final world. *)
Definition run_workflow (min_score_arg : option F)
  (subreddits_arg : option (list string)) : M F unit :=
  _ <- utcnow ;;                    (* the timestamp in the workflow id *)
  let wid := fresh_workflow_id env in
  modify_state (fun _ => new_TrendState) ;;
  now <- utcnow ;;
  modify_state (start_workflow wid now) ;;
  match min_score_arg with
  | Some m => modify_state (set_min_score m)
  | None => ret tt
  end ;;
  match subreddits_arg with
  | Some l => modify_state (set_subreddits l)
  | None => ret tt
  end ;;
  try_except
    (db (create_workflow_record wid) ;;
     ainvoke recursion_limit scrape_sources ;;
     db (update_workflow_stats wid) ;;
     final_state <- get_state ;;
     if truthy (error_message final_state) then
       let msg := default "" (error_message final_state) in
       db (db_fail_workflow wid msg) ;;
       state_fail_workflow msg
     else
       db (db_complete_workflow wid) ;;
       state_complete_workflow)
    (fun _ e =>
       let error_msg := "Workflow " +:+ wid +:+ " failed: " +:+ e in
       db_quiet (db_fail_workflow wid error_msg) ;;
       state_fail_workflow error_msg).

End Workflow.

(* ================================================================== *)
(** * backend/scheduler.py

    [SchedulerManager] registers four jobs with APScheduler and later
    asks it to run one of them at once.  The scheduler and its executor
    belong to the library; they are rendered here by what they do with a
    job descriptor: a job is due when its [next_run_time] has passed; a
    due job is submitted to the executor once per wake-up; the executor
    counts the running instances per job id and refuses a submission
    ([MaxInstancesReachedError], the run is skipped) when the count has
    reached the job's [max_instances]; whether or not the submission was
    accepted the job's [next_run_time] moves to the next fire time of its
    trigger.  Times are seconds. *)

Module Scheduler.

Local Open Scope Z_scope.

Inductive JobFunc :=
| _run_workflow_job | _collect_metrics_job
| _create_metrics_snapshot_job | _cleanup_job.

Inductive Trigger :=
| IntervalTrigger (seconds : Z)
| CronTrigger (hour minute : Z).

Record Job := {
  id : string;
  name : string;
  func : JobFunc;
  trigger : Trigger;
  max_instances : nat;
  coalesce : bool;
  misfire_grace_time : option Z;       (* [None]: not passed to add_job *)
  next_run_time : option Z             (* [None]: paused *)
}.

Record SchedulerState := {
  jobstore : list Job;
  instances : gmap string nat          (* the executor's [_instances] *)
}.

Record SchedulerManager := {
  scheduler : option SchedulerState;
  running : bool;
  interval_minutes : Z                 (* [app_config.interval_minutes] *)
}.

(** ** The library side *)

Definition day : Z := 86400.

(** The first fire time after [previous]. *)
Definition get_next_fire_time (t : Trigger) (previous : Z) : Z :=
  match t with
  | IntervalTrigger s => previous + Z.max 1 s
  | CronTrigger h m =>
      let at_day := previous - previous mod day + (h * 3600 + m * 60) in
      if previous <? at_day then at_day else at_day + day
  end.

(** The last fire time not after [now], counted from the due time
    [due]: the last of the run times the scheduler collects. *)
Definition last_run_time (t : Trigger) (due now : Z) : Z :=
  match t with
  | IntervalTrigger s => due + Z.max 1 s * ((now - due) / Z.max 1 s)
  | CronTrigger _ _ => due + day * ((now - due) / day)
  end.

Definition set_next_run_time (t : option Z) (j : Job) : Job :=
  {| id := id j; name := name j; func := func j; trigger := trigger j;
     max_instances := max_instances j; coalesce := coalesce j;
     misfire_grace_time := misfire_grace_time j; next_run_time := t |}.

Definition get_job (job_id : string) (s : SchedulerState) : option Job :=
  List.find (fun j => String.eqb (id j) job_id) (jobstore s).

(** Number of running instances of a job id. *)
Definition in_flight (s : SchedulerState) (job_id : string) : nat :=
  default 0%nat (instances s !! job_id).

(** [scheduler.add_job]: an id already in the store is refused. *)
Definition add_job (j : Job) (s : SchedulerState) : option SchedulerState :=
  match get_job (id j) s with
  | Some _ => None
  | None => Some {| jobstore := jobstore s ++ [j];
                    instances := instances s |}
  end.

(** [executor.submit_job]: [None] is [MaxInstancesReachedError]. *)
Definition submit_job (j : Job) (inst : gmap string nat)
  : option (gmap string nat) :=
  let n := default 0%nat (inst !! id j) in
  if (max_instances j <=? n)%nat then None
  else Some (<[id j := S n]> inst).

(** One job in the scheduler's pass over its store at time [now]. *)
Definition process_job (now : Z) (inst : gmap string nat) (j : Job)
  : Job * gmap string nat :=
  match next_run_time j with
  | Some due =>
      if due <=? now then
        let inst' := default inst (submit_job j inst) in
        let last := last_run_time (trigger j) due now in
        (set_next_run_time (Some (get_next_fire_time (trigger j) last)) j,
         inst')
      else (j, inst)
  | None => (j, inst)
  end.

Fixpoint process_jobs (now : Z) (js : list Job) (inst : gmap string nat)
  : list Job * gmap string nat :=
  match js with
  | [] => ([], inst)
  | j :: rest =>
      let (j', inst') := process_job now inst j in
      let (rest', inst'') := process_jobs now rest inst' in
      (j' :: rest', inst'')
  end.

Definition wakeup (now : Z) (s : SchedulerState) : SchedulerState :=
  let (js, inst) := process_jobs now (jobstore s) (instances s) in
  {| jobstore := js; instances := inst |}.

(** A running instance of the job ends (normally or with an error). *)
Definition job_done (job_id : string) (s : SchedulerState)
  : SchedulerState :=
  {| jobstore := jobstore s;
     instances :=
       match instances s !! job_id with
       | Some (S (S n)) => <[job_id := S n]> (instances s)
       | Some _ => delete job_id (instances s)
       | None => instances s
       end |}.

(** [job.modify(next_run_time=t)] *)
Definition modify_next_run_time (job_id : string) (t : option Z)
  (s : SchedulerState) : SchedulerState :=
  {| jobstore :=
       map (fun j => if String.eqb (id j) job_id
                     then set_next_run_time t j else j) (jobstore s);
     instances := instances s |}.

(** ** SchedulerManager *)

Definition new_job (job_id job_name : string) (f : JobFunc) (t : Trigger)
  (grace : option Z) (now : Z) : Job :=
  {| id := job_id; name := job_name; func := f; trigger := t;
     max_instances := 1%nat; coalesce := true;
     misfire_grace_time := grace;
     next_run_time := Some (get_next_fire_time t now) |}.

(** [SchedulerManager._add_jobs]; the jobs get their first run time when
    the scheduler starts, at [now]. *)
Definition _add_jobs (interval : Z) (now : Z) (s : SchedulerState)
  : option SchedulerState :=
  s1 ← add_job (new_job "workflow_job" "Trend Analysis Workflow"
                  _run_workflow_job (IntervalTrigger (60 * interval))
                  (Some 300) now) s;
  s2 ← add_job (new_job "metrics_job" "Metrics Collection"
                  _collect_metrics_job (IntervalTrigger 3600)
                  (Some 600) now) s1;
  s3 ← add_job (new_job "snapshot_job" "Metrics Snapshot"
                  _create_metrics_snapshot_job (IntervalTrigger (6 * 3600))
                  None now) s2;
  add_job (new_job "cleanup_job" "Database Cleanup"
             _cleanup_job (CronTrigger 2 0) None now) s3.

Definition new_manager (interval : Z) : SchedulerManager :=
  {| scheduler := None; running := false; interval_minutes := interval |}.

(** [SchedulerManager.start] at time [now]. *)
Definition start (now : Z) (m : SchedulerManager) : SchedulerManager :=
  if running m then m
  else
    match _add_jobs (interval_minutes m) now
            {| jobstore := []; instances := ∅ |} with
    | Some s => {| scheduler := Some s; running := true;
                   interval_minutes := interval_minutes m |}
    | None => m                        (* start raises *)
    end.

Definition with_scheduler (f : SchedulerState -> SchedulerState)
  (m : SchedulerManager) : SchedulerManager :=
  {| scheduler := f <$> scheduler m; running := running m;
     interval_minutes := interval_minutes m |}.

(** The answer of [run_job_now]. *)
Record Answer := { success : bool; message : string }.

(** [SchedulerManager.run_job_now]: the job's next run time becomes
    [now]; the job function is not called here. *)
Definition run_job_now (job_id : string) (now : Z) (m : SchedulerManager)
  : Result Answer * SchedulerManager :=
  match scheduler m with
  | None => (Raise RuntimeError "Scheduler is not running", m)
  | Some s =>
      match get_job job_id s with
      | None =>
          (Ok {| success := false;
                 message := "Job " +:+ job_id +:+ " not found" |}, m)
      | Some _ =>
          (Ok {| success := true;
                 message := "Job " +:+ job_id +:+ " triggered successfully" |},
           with_scheduler (modify_next_run_time job_id (Some now)) m)
      end
  end.

(** What can happen to a started manager. *)
Inductive Event :=
| Wakeup (now : Z)                     (* the scheduler looks for due jobs *)
| Done (job_id : string)               (* a running instance ends *)
| RunJobNow (job_id : string) (now : Z).

Definition step (m : SchedulerManager) (e : Event) : SchedulerManager :=
  match e with
  | Wakeup now => with_scheduler (wakeup now) m
  | Done job_id => with_scheduler (job_done job_id) m
  | RunJobNow job_id now => snd (run_job_now job_id now m)
  end.

Definition run (events : list Event) (m : SchedulerManager)
  : SchedulerManager :=
  fold_left step events m.

(** Running instances of a job id under the manager. *)
Definition executions (m : SchedulerManager) (job_id : string) : nat :=
  match scheduler m with
  | Some s => in_flight s job_id
  | None => 0%nat
  end.

(** Every job allows one instance, and no job id has more than one
    instance running. *)
Definition single_instance (s : SchedulerState) : Prop :=
  Forall (fun j => max_instances j = 1%nat) (jobstore s)
  /\ forall job_id, (in_flight s job_id <= 1)%nat.

Definition manager_ok (m : SchedulerManager) : Prop :=
  match scheduler m with
  | Some s => single_instance s
  | None => True
  end.

End Scheduler.

(* ================================================================== *)
(** * Definitions used by the statements *)

Open Scope Q_scope.

(** ** The scorer in exact arithmetic

    What [calculate_virality_score] computes from a post and the two
    clock readings it takes. *)

Definition undecayed_factors (post : RawPost Q) (base_score : Q) : Q :=
  let s1 :=
    if (0 <? upvotes post)%Z then
      if Qltb 0.1 (inject_Z (num_comments post) / inject_Z (upvotes post))
      then base_score * 1.1 else base_score
    else base_score in
  let s2 :=
    if Qltb 0.9 (upvote_ratio post) then s1 * 1.05
    else if Qltb (upvote_ratio post) 0.7 then s1 * 0.95 else s1 in
  s2 * dict_get subreddit_multipliers (subreddit post) 1.0.

Definition exact_factors (post : RawPost Q) (base_score age : Q) : Q :=
  let s3 := undecayed_factors post base_score in
  let age_hours := age / 60 in
  if Qltb 12 age_hours
  then s3 * py_max 0.5 (1 - (age_hours - 12) / 24) else s3.

Definition exact_base (post : RawPost Q) (now : Q) : Q :=
  let age := (now - created_utc post) / 60.0 in
  if Qltb age 1 then inject_Z (upvotes post) / inject_Z 1
  else inject_Z (upvotes post) / age.

Definition exact_score (post : RawPost Q) (now1 now2 : Q) : Q :=
  exact_factors post (exact_base post now1)
                ((now2 - created_utc post) / 60.0).

(** One more clock reading taken. *)
Definition tick (w : World Q) : World Q :=
  {| w_state := w_state w; w_reads := S (w_reads w); w_trace := w_trace w |}.

(** A scored post carries a score the scorer computed for its post. *)
Definition scored_by_scorer (env : Env Q) (sp : ScoredPost Q) : Prop :=
  exists n, score sp = exact_score (raw_post sp) (clock env n)
                                   (clock env (S n)).

(** Highest score first. *)
Definition by_score_desc (a b : ScoredPost Q) : Prop := score b <= score a.

(** Division by the constants of the decay, as a multiplication. *)
Ltac const_divisions :=
  unfold Qdiv in *;
  change (/ 60) with (1 # 60) in *; change (/ 24) with (1 # 24) in *.

(** The factor by which "Factor 4" of [_apply_scoring_factors] changes
    the score of a post that is [age_minutes] old. *)
Definition age_decay_factor (age_minutes : Q) : Q :=
  let age_hours := age_minutes / 60 in
  if Qltb 12 age_hours then py_max 0.5 (1 - (age_hours - 12) / 24) else 1.

(** ** The scoring rule in the specification's words (section 4.1) *)

Definition spec_base_score (popularity : Z) (age_minutes : Q) : Q :=
  inject_Z popularity / Qmax age_minutes 1.

Definition spec_engagement_bonus (engagement_count popularity : Z) : Q :=
  if Qltb 0.1 (inject_Z engagement_count / inject_Z popularity)
  then 1.10 else 1.

Definition spec_quality_adjustment (approval_ratio : Q) : Q :=
  if Qltb 0.9 approval_ratio then 1.05
  else if Qltb approval_ratio 0.7 then 0.95 else 1.

Definition spec_group_multiplier (label : string) : Q :=
  dict_get subreddit_multipliers label 1.0.

Definition spec_age_decay (age_minutes : Q) : Q :=
  let age_hours := age_minutes / 60 in
  if Qltb 12 age_hours then Qmax 0.5 (1 - (age_hours - 12) / 24) else 1.

Definition spec_score (post : RawPost Q) (age1 age2 : Q) : Q :=
  spec_base_score (upvotes post) age1
  * spec_engagement_bonus (num_comments post) (upvotes post)
  * spec_quality_adjustment (upvote_ratio post)
  * spec_group_multiplier (subreddit post)
  * spec_age_decay age2.

(** ** Concrete collaborators and posts *)

(** Collaborators that return nothing and never fail, around a clock. *)
Definition quiet_env {F} `{PyFloat F} (clk : nat -> F) : Env F :=
  {| clock := clk; app_min_score := flit 200.0; app_subreddits := [];
     fresh_workflow_id := "trend-0"; scrape_subreddit := fun _ => Ok [];
     ledger := fun _ _ => None; completions_create := fun _ _ => Ok None;
     twitter_client := true; create_tweet := fun _ _ => Ok None;
     stage_fault := fun _ => None |}.

Definition world0 {F} `{PyFloat F} : World F :=
  {| w_state := new_TrendState; w_reads := 0; w_trace := [] |}.

Definition a_post {F} `{PyFloat F} (rid sub : string) (up comments : Z)
  (ratio : Q) : RawPost F :=
  {| reddit_id := rid; title := "About " +:+ rid;
     url := "https://example.com";
     upvotes := up; created_utc := flit 0; subreddit := sub;
     permalink := "https://reddit.com/r"; num_comments := comments;
     upvote_ratio := flit ratio; scraped_at := flit 0 |}.

(** Scenario 1 of the specification: popularity 1000, 100 comments,
    approval ratio 0.95, a group with multiplier 1.2; created at time 0. *)
Definition scenario1 {F} `{PyFloat F} : RawPost F :=
  a_post "s1" "programming" 1000 100 0.95.

(** A clock that shows one hour, and two hours from the third reading. *)
Definition late_clock (n : nat) : Q := if (n <? 2)%nat then 3600 else 7200.

(** A post with 1.7e308 upvotes in a group with multiplier 1.3. *)
Definition huge_post : RawPost binary64 :=
  a_post "huge" "MachineLearning" (17 * 10 ^ 307) 0 0.8.

(** ** The stages *)

Section StageDefinitions.
Context {F : Type} {PF : PyFloat F}.
Variable env : Env F.

(** The length safety check of [generate_tweet]. *)
Definition shorten (t : string) : string :=
  if (280 <? String.length t)%nat then substring 0 277 t +:+ "..." else t.

(** What [generate_tweet] returns for the item at position [i]. *)
Definition returned_text (i : nat) (post : ScoredPost F) : option string :=
  match completions_create env i post with
  | Ok (Some content) => Some (shorten (strip content))
  | _ => None
  end.

(** The text the item at position [i] is generated with; [None] when its
    generation fails: the call raises, the answer has no content, or
    nothing is left of it after stripping. *)
Definition generated_text (i : nat) (post : ScoredPost F) : option string :=
  if truthy (returned_text i post) then returned_text i post else None.

(** The results [asyncio.gather] hands back, from position [i] on. *)
Fixpoint gathered (i : nat) (posts : list (ScoredPost F))
  : list (Result (ScoredPost F * option string)) :=
  match posts with
  | [] => []
  | p :: rest => Ok (p, returned_text i p) :: gathered (S i) rest
  end.

(** The pairs (post, text) the collecting loop keeps, from position [i]
    on. *)
Fixpoint kept (i : nat) (posts : list (ScoredPost F))
  : list (ScoredPost F * string) :=
  match posts with
  | [] => []
  | p :: rest =>
      match generated_text i p with
      | Some t => (p, t) :: kept (S i) rest
      | None => kept (S i) rest
      end
  end.

Definition pair_of (g : GeneratedPost F) : ScoredPost F * string :=
  (scored_post g, tweet_text g).

(** Per-item isolation of the Generate stage: every item whose
    generation succeeds is in the output with its text, every output
    comes from such an item, and the output keeps the input order. *)
Definition generation_isolated (posts : list (ScoredPost F))
  (out : list (GeneratedPost F)) : Prop :=
  (forall i B t,
      posts !! i = Some B -> generated_text i B = Some t ->
      exists g, g ∈ out /\ scored_post g = B /\ tweet_text g = t)
  /\ (forall g, g ∈ out ->
        exists i, posts !! i = Some (scored_post g)
                  /\ generated_text i (scored_post g) = Some (tweet_text g))
  /\ sublist (map scored_post out) posts.

(** Whether the publish call for the item at position [i] succeeds. *)
Definition published (i : nat) (g : GeneratedPost F) : bool :=
  twitter_client env
  && negb (280 <? String.length (tweet_text g))%nat
  && match create_tweet env i (tweet_text g) with
     | Ok (Some _) => true
     | _ => false
     end.

(** Whether [post_tweet] calls the publishing client for the item. *)
Definition attempted (g : GeneratedPost F) : bool :=
  twitter_client env && negb (280 <? String.length (tweet_text g))%nat.

(** The result [post_tweet] gives for the item at position [i]. *)
Definition result_for (i : nat) (g : GeneratedPost F) (r : PostResult F)
  : Prop :=
  generated_post r = g
  /\ (published i g = true -> status r = POSTED)
  /\ (published i g = false ->
      status r = FAILED /\ is_Some (result_error r)).

Fixpoint results_for (i : nat) (gs : list (GeneratedPost F))
  (rs : list (PostResult F)) : Prop :=
  match gs, rs with
  | [], [] => True
  | g :: gs', r :: rs' => result_for i g r /\ results_for (S i) gs' rs'
  | _, _ => False
  end.

(** Per-item isolation of the Publish stage: one result per item, in
    order; an item whose publish call succeeds is [POSTED], any other is
    [FAILED] with its error recorded. *)
Definition publish_isolated (gs : list (GeneratedPost F))
  (rs : list (PostResult F)) : Prop :=
  length rs = length gs
  /\ forall i g,
       gs !! i = Some g ->
       exists r, rs !! i = Some r /\ generated_post r = g
                 /\ (published i g = true -> status r = POSTED)
                 /\ (published i g = false ->
                     status r = FAILED /\ is_Some (result_error r)).

(** The state [run_workflow] starts the graph with. *)
Definition started (a : option F) (b : option (list string)) (now : F)
  : TrendState F :=
  let s := start_workflow (fresh_workflow_id env) now new_TrendState in
  let s := match a with Some m => set_min_score m s | None => s end in
  match b with Some l => set_subreddits l s | None => s end.

(** The [try] body of [run_workflow]. *)
Definition run_body : M F unit :=
  let wid := fresh_workflow_id env in
  db env (create_workflow_record wid) ;;
  ainvoke env recursion_limit scrape_sources ;;
  db env (update_workflow_stats wid) ;;
  final_state <- get_state ;;
  if truthy (error_message final_state) then
    let msg := default "" (error_message final_state) in
    db env (db_fail_workflow wid msg) ;;
    state_fail_workflow env msg
  else
    db env (db_complete_workflow wid) ;;
    state_complete_workflow env.

End StageDefinitions.

(** Number of events of a kind in a trace. *)
Definition count_events (p : Event -> bool) (t : list Event) : nat :=
  length (List.filter p t).

Definition assignments {F} (w : World F) : nat :=
  count_events is_assign_completed_at (w_trace w).

(** The part of a run the terminal marking depends on: the error message
    of the state object and the number of assignments to
    [completed_at] so far. *)
Definition run_status {F} (s : TrendState F) (t : list Event)
  : option string * nat :=
  (error_message s, count_events is_assign_completed_at t).

(** The longest path from a node to [END]. *)
Definition remaining (n : Node) : nat :=
  match n with
  | scrape_sources => 4
  | score_virality => 3
  | generate_content => 2
  | post_content => 1
  end.

(** A stage handler has fired between [w] and [w']: the error message
    is set and [completed_at] has been assigned once more. *)
Definition failed_once {F} (w w' : World F) : Prop :=
  truthy (error_message (w_state w')) = true
  /\ assignments w' = (assignments w + 1)%nat.

(** No stage raises into its handler. *)
Definition no_stage_fault {F} (env : Env F) : Prop :=
  forall n, stage_fault env n = None.

(** The run-level ledger calls succeed. *)
Definition run_ledger_ok {F} (env : Env F) : Prop :=
  forall h wid,
    ledger env h (create_workflow_record wid) = None
    /\ ledger env h (update_workflow_stats wid) = None
    /\ ledger env h (db_complete_workflow wid) = None.

(** The Collect stage produces zero items: it does not raise, and every
    configured group yields no item or fails. *)
Definition collects_nothing {F} (env : Env F) : Prop :=
  stage_fault env scrape_sources = None
  /\ forall sub,
       sub ∈ app_subreddits env ->
       scrape_subreddit env sub = Ok []
       \/ exists c e, scrape_subreddit env sub = Raise c e.

(** The publish attempts contained in a piece of trace. *)
Definition tweets_in (evs : list Event) : list Event :=
  List.filter is_create_tweet evs.

(** What an empty run must leave as it is: the item lists and counters
    of the state, and the numbers of generation and publish calls. *)
Definition idleness {F} (s : TrendState F) (t : list Event) :=
  (raw_posts s, scored_posts s, generated_posts s, results s,
   (total_scraped s, total_scored s, total_generated s, total_posted s,
    total_failed s),
   (count_events is_generate t, count_events is_create_tweet t)).

(** The world after a ledger call has been recorded. *)
Definition logged {F} (op : DbOp) (w : World F) : World F :=
  {| w_state := w_state w; w_reads := w_reads w;
     w_trace := w_trace w ++ [EvLedger op] |}.

(** The run has just been marked: [completed_at] is set, by the last
    event of the trace, and has been assigned once more than in [w]. *)
Definition marked {F} (w w' : World F) : Prop :=
  is_Some (completed_at (w_state w'))
  /\ last (w_trace w') = Some EvAssignCompletedAt
  /\ assignments w' = (assignments w + 1)%nat.

(** ** Observations of a run, and computations that leave them alone *)

Section Observations.
Context {F : Type} {X : Type}.

(** An observation of the run: a function of the state object and of
    the trace (not of the number of clock readings). *)
Variable obs : TrendState F -> list Event -> X.

Definition observe (w : World F) : X := obs (w_state w) (w_trace w).

(** Events and state updates the observation does not see. *)
Definition silent (e : Event) : Prop :=
  forall s t, obs s (t ++ [e]) = obs s t.
Definition inert (u : TrendState F -> TrendState F) : Prop :=
  forall s t, obs (u s) t = obs s t.

(** [keeps m]: running [m] does not change the observation, whether it
    returns or raises.  [calm m]: moreover [m] returns. *)
Definition keeps {A} (m : M F A) : Prop :=
  forall w, observe (snd (m w)) = observe w.
Definition calm {A} (m : M F A) : Prop :=
  forall w, (exists a, fst (m w) = Ok a) /\ observe (snd (m w)) = observe w.

End Observations.

(** ** Two runs side by side *)

Section SideBySide.
Context {F : Type}.

(** Both runs have taken [k] readings since they started at [n1], [n2]
    readings. *)
Definition in_step (n1 n2 k : nat) (w1 w2 : World F) : Prop :=
  w_reads w1 = (n1 + k)%nat /\ w_reads w2 = (n2 + k)%nat.

(** Two computations end alike: with the same value, in worlds related
    by [R], or with the same exception. *)
Definition alike {A} (R : World F -> World F -> Prop)
  (r1 r2 : Result A * World F) : Prop :=
  match r1, r2 with
  | (Ok a1, w1'), (Ok a2, w2') => a1 = a2 /\ R w1' w2'
  | (Raise c1 e1, _), (Raise c2 e2, _) => c1 = c2 /\ e1 = e2
  | _, _ => False
  end.

End SideBySide.

(** ** Concrete runs *)

(** Three popular posts, one hour old when scored. *)
Definition three_posts : list (RawPost Q) :=
  [ a_post "p1" "programming" 60000 100 0.8;
    a_post "p2" "programming" 90000 100 0.8;
    a_post "p3" "programming" 120000 100 0.8 ].

(** Scenario 3 of the specification: three items are generated and the
    second publish call fails. *)
Definition scenario3_env : Env Q :=
  {| clock := fun _ => 3600; app_min_score := 200.0;
     app_subreddits := ["programming"]; fresh_workflow_id := "trend-3";
     scrape_subreddit := fun _ => Ok three_posts;
     ledger := fun _ _ => None;
     completions_create := fun _ p => Ok (Some (title (raw_post p)));
     twitter_client := true;
     create_tweet := fun i _ =>
       if (i =? 1)%nat then Raise TweepyException "429 Too Many Requests"
       else Ok (Some "1234567890");
     stage_fault := fun _ => None |}.

(** A run whose Collect stage raises outside its per-group handlers. *)
Definition faulty_env : Env Q :=
  {| clock := fun _ => 3600; app_min_score := 200.0;
     app_subreddits := ["programming"]; fresh_workflow_id := "trend-f";
     scrape_subreddit := fun _ => Ok three_posts;
     ledger := fun _ _ => None;
     completions_create := fun _ p => Ok (Some (title (raw_post p)));
     twitter_client := true;
     create_tweet := fun _ _ => Ok (Some "1234567890");
     stage_fault := fun n =>
       match n with
       | scrape_sources => Some "out of memory"
       | _ => None
       end |}.

(** A run that finds nothing in its only group. *)
Definition empty_env : Env Q :=
  {| clock := fun _ => 3600; app_min_score := 200.0;
     app_subreddits := ["pics"]; fresh_workflow_id := "trend-e";
     scrape_subreddit := fun _ => Ok [];
     ledger := fun _ _ => None;
     completions_create := fun _ p => Ok (Some (title (raw_post p)));
     twitter_client := true;
     create_tweet := fun _ _ => Ok (Some "1234567890");
     stage_fault := fun _ => None |}.

(* ================================================================== *)
(** * The rest of the code around the pipeline *)

(** ** trend_graph/state.py: views and method sequences *)

Section TrendStateViews.
Context {F : Type} {PF : PyFloat F}.

Definition get_successful_posts (s : TrendState F) : list (PostResult F) :=
  List.filter (fun r => PostStatus_eqb (status r) POSTED) (results s).

Definition get_failed_posts (s : TrendState F) : list (PostResult F) :=
  List.filter (fun r => PostStatus_eqb (status r) FAILED) (results s).

(** [TrendState.duration_seconds]; a [datetime] is always truthy. *)
Definition duration_seconds (s : TrendState F) : option F :=
  match started_at s, completed_at s with
  | Some t0, Some t1 => Some (fsub t1 t0)
  | _, _ => None
  end.

(** [TrendState.success_rate]; [None] stands for the [OverflowError] of
    the int division. *)
Definition success_rate (s : TrendState F) : option F :=
  let total_attempts := (total_posted s + total_failed s)%Z in
  if (total_attempts =? 0)%Z then Some (flit 0.0)
  else int_truediv (total_posted s) total_attempts.

(** [PostResult.mark_metrics_collected], [now] being the clock reading. *)
Definition mark_metrics_collected (r : PostResult F) (n_likes n_retweets : Z)
  (now : F) : PostResult F :=
  {| generated_post := generated_post r; tweet_url := tweet_url r;
     tweet_id := tweet_id r; posted_at := posted_at r;
     likes := Some n_likes; retweets := Some n_retweets;
     metrics_collected_at := Some now;
     status := METRICS_COLLECTED; result_error := result_error r |}.

(** A call of one of the methods of [TrendState] that change it. *)
Inductive StateCall :=
| call_start_workflow (wid : string) (now : F)
| call_complete_workflow (now : F)
| call_fail_workflow (msg : string) (now : F)
| call_update_step (step_name : string)
| call_add_raw_posts (posts : list (RawPost F))
| call_add_scored_posts (posts : list (ScoredPost F))
| call_add_generated_posts (posts : list (GeneratedPost F))
| call_add_results (rs : list (PostResult F)).

Definition apply_call (s : TrendState F) (c : StateCall) : TrendState F :=
  match c with
  | call_start_workflow wid now => start_workflow wid now s
  | call_complete_workflow now => complete_workflow now s
  | call_fail_workflow msg now => fail_workflow msg now s
  | call_update_step step_name => update_step step_name s
  | call_add_raw_posts posts => add_raw_posts posts s
  | call_add_scored_posts posts => add_scored_posts posts s
  | call_add_generated_posts posts => add_generated_posts posts s
  | call_add_results rs => add_results rs s
  end.

(** The state after a sequence of method calls. *)
Definition apply_calls (cs : list StateCall) (s : TrendState F)
  : TrendState F :=
  fold_left apply_call cs s.

(** The counters agree with the lists they count. *)
Definition counters_agree (s : TrendState F) : Prop :=
  total_scraped s = Z.of_nat (length (raw_posts s))
  /\ total_scored s = Z.of_nat (length (scored_posts s))
  /\ total_generated s = Z.of_nat (length (generated_posts s))
  /\ total_posted s = Z.of_nat (length (get_successful_posts s))
  /\ total_failed s = Z.of_nat (length (get_failed_posts s)).

End TrendStateViews.

Arguments StateCall F : clear implicits.

(** ** trend_graph/nodes/score.py: statistics and helpers *)

(** The builtin [sum] over floats, starting from the int [0]. *)
Class PySum (F : Type) := { fsum : list F -> F }.

(** In exact arithmetic the order of the additions does not matter. *)
#[export] Instance exact_sum : PySum Q :=
  { fsum l := fold_left Qplus l 0 }.

(** [min(a, b)]: the builtin keeps its first argument unless a later one
    is strictly smaller. *)
Definition py_min {F} `{PyFloat F} (a b : F) : F :=
  if fltb b a then b else a.

(** The dictionary [get_scoring_stats] returns; [threshold_value] is
    [None] when the key is absent. *)
Module ScoringStats.
Record t (F : Type) := {
  total_posts : Z;
  above_threshold : Z;
  threshold_rate : F;
  avg_score : F;
  max_score : F;
  min_score : F;
  threshold_value : option F
}.
End ScoringStats.

Section ScorerUtilities.
Context {F : Type} {PF : PyFloat F} {PS : PySum F}.
Variable env : Env F.

Definition get_scoring_stats (scored_posts : list (ScoredPost F))
  : M F (ScoringStats.t F) :=
  match scored_posts with
  | [] =>
      ret {| ScoringStats.total_posts := 0;
             ScoringStats.above_threshold := 0;
             ScoringStats.threshold_rate := flit 0.0;
             ScoringStats.avg_score := flit 0.0;
             ScoringStats.max_score := flit 0.0;
             ScoringStats.min_score := flit 0.0;
             ScoringStats.threshold_value := None |}
  | first :: rest =>
      let scores := map score scored_posts in
      let above_threshold :=
        Z.of_nat (length (List.filter (fun p => meets_threshold p)
                                      scored_posts)) in
      let n := Z.of_nat (length scored_posts) in
      threshold_rate <- py_int_truediv above_threshold n ;;
      len_scores <- py_float n ;;
      avg_score <- py_fdiv (fsum scores) len_scores ;;
      ret {| ScoringStats.total_posts := n;
             ScoringStats.above_threshold := above_threshold;
             ScoringStats.threshold_rate := threshold_rate;
             ScoringStats.avg_score := avg_score;
             ScoringStats.max_score :=
               fold_left py_max (map score rest) (score first);
             ScoringStats.min_score :=
               fold_left py_min (map score rest) (score first);
             ScoringStats.threshold_value := Some (app_min_score env) |}
  end.

(** [test_score_calculation]: the post is built at the first clock
    reading ([created_utc]) and the second ([scraped_at] default), then
    scored. *)
Definition test_score_calculation (upvotes : Z) (age_minutes : F)
  (subreddit : string) : M F F :=
  now <- utcnow env ;;
  let created_utc := fsub now (fmul age_minutes (flit 60)) in
  scraped_at <- utcnow env ;;
  calculate_virality_score env
    {| reddit_id := "test"; title := "Test Post";
       url := "https://example.com"; upvotes := upvotes;
       created_utc := created_utc; subreddit := subreddit;
       permalink := "https://reddit.com/test";
       num_comments := (upvotes / 10)%Z;        (* upvotes // 10 *)
       upvote_ratio := flit 0.9; scraped_at := scraped_at |}.

End ScorerUtilities.

(** A clock that stands still. *)
Definition frozen {F} (env : Env F) (t : F) : Prop := forall n, clock env n = t.

(** ** trend_graph/nodes/post.py: outcomes and validation *)

(** What happens to one item in [post_tweet], by the branch taken. *)
Inductive Outcome :=
| NotInitialized                       (* [self.client] is not set *)
| TooLong                              (* more than 280 characters *)
| Sent (tid : string)                  (* the API returned the tweet id *)
| NoData                               (* the API returned no data *)
| ApiError (c : ExcClass) (e : string).    (* the API call raised *)

(** [str.lower()] on one code point below 256. *)
Definition lower_char (c : ascii) : ascii :=
  let n := nat_of_ascii c in
  if ((65 <=? n) && (n <=? 90)
      || (192 <=? n) && (n <=? 222) && negb (n =? 215))%nat
  then ascii_of_nat (n + 32) else c.

Fixpoint lower (s : string) : string :=
  match s with
  | EmptyString => EmptyString
  | String c s' => String (lower_char c) (lower s')
  end.

(** [word in text] *)
Definition contains (word text : string) : bool :=
  match index 0 word text with Some _ => true | None => false end.

(** The dictionary [validate_tweet_content] returns. *)
Record Validation := { valid : bool; issues : list string }.

(** [TwitterPoster.validate_tweet_content] *)
Definition validate_tweet_content (tweet_text : string) : Validation :=
  let v := {| valid := true; issues := [] |} in
  let v :=
    if (280 <? String.length tweet_text)%nat
    then {| valid := false;
            issues := issues v ++
              ["Tweet too long: " +:+ pretty (String.length tweet_text)
                 +:+ " characters"] |}
    else v in
  let v :=
    if String.eqb (strip tweet_text) ""
    then {| valid := false;
            issues := issues v ++ ["Tweet content is empty"] |}
    else v in
  if existsb (fun word => contains word (lower tweet_text))
             ["spam"; "scam"; "fake"]
  then {| valid := valid v;
          issues := issues v ++ ["Potential policy violation detected"] |}
  else v.

Section PublishOutcomes.
Context {F : Type} {PF : PyFloat F}.
Variable env : Env F.

Definition outcome (i : nat) (g : GeneratedPost F) : Outcome :=
  if negb (twitter_client env) then NotInitialized
  else if (280 <? String.length (tweet_text g))%nat then TooLong
  else match create_tweet env i (tweet_text g) with
       | Ok (Some tid) => Sent tid
       | Ok None => NoData
       | Raise c e => ApiError c e
       end.

(** What the result of an item records, by its outcome. *)
Definition records (o : Outcome) (g : GeneratedPost F) (r : PostResult F)
  : Prop :=
  generated_post r = g
  /\ likes r = None /\ retweets r = None /\ metrics_collected_at r = None
  /\ match o with
     | Sent tid =>
         status r = POSTED
         /\ tweet_id r = Some tid
         /\ tweet_url r = Some ("https://twitter.com/user/status/" +:+ tid)
         /\ is_Some (posted_at r)
         /\ result_error r = None
     | _ =>
         status r = FAILED
         /\ tweet_id r = None /\ tweet_url r = None /\ posted_at r = None
         /\ result_error r =
            Some match o with
                 | NotInitialized => "Twitter client not initialized"
                 | TooLong =>
                     "Tweet too long: "
                       +:+ pretty (String.length (tweet_text g))
                       +:+ " characters"
                 | NoData => "Twitter API returned no data"
                 | ApiError TweepyException e => "Twitter API error: " +:+ e
                 | ApiError _ e => "Unexpected error posting tweet: " +:+ e
                 | Sent _ => ""
                 end
     end.

(** The calls [post_tweet] makes for an item, by its outcome. *)
Definition calls_of (o : Outcome) (g : GeneratedPost F) : list Event :=
  let rid := reddit_id (raw_post (scored_post g)) in
  match o with
  | NotInitialized | TooLong => []
  | Sent _ => [EvCreateTweet (tweet_text g); EvLedger (update_post_posted rid)]
  | NoData => [EvCreateTweet (tweet_text g)]
  | ApiError _ _ =>
      [EvCreateTweet (tweet_text g); EvLedger (update_post_failed rid)]
  end.

(** The calls of a batch of [n] items, from the item at position [i]
    on: the calls of each item, and a pause of 3 seconds after every item
    but the last. *)
Fixpoint batch_calls (n i : nat) (gs : list (GeneratedPost F)) : list Event :=
  match gs with
  | [] => []
  | g :: rest =>
      calls_of (outcome i g) g
        ++ (if (i <? n - 1)%nat then [EvSleep 3] else [])
        ++ batch_calls n (S i) rest
  end.

End PublishOutcomes.

Definition is_sleep (e : Event) : bool :=
  match e with EvSleep _ => true | _ => false end.

(** ** Collecting and selecting *)

Section CollectDefinitions.
Context {F : Type} {PF : PyFloat F}.
Variable env : Env F.

(** What one configured group contributes to the collection. *)
Definition collected (sub : string) : list (RawPost F) :=
  match scrape_subreddit env sub with
  | Ok posts => posts
  | Raise _ _ => []
  end.

Definition scrape_succeeds (sub : string) : bool :=
  match scrape_subreddit env sub with Ok _ => true | Raise _ _ => false end.

(** [score_post] has compared the score with the configured minimum. *)
Definition thresholded (sp : ScoredPost F) : Prop :=
  meets_threshold sp = fleb (app_min_score env) (score sp).

End CollectDefinitions.

Definition is_scrape (e : Event) : bool :=
  match e with EvScrape _ => true | _ => false end.

(** ** The run, stage by stage *)

(** The generation calls contained in a piece of trace. *)
Definition generates_in (evs : list Event) : list Event :=
  List.filter is_generate evs.

(** The state object with the generation and publish calls made so far. *)
Definition calls_view {F} (s : TrendState F) (t : list Event) :=
  (s, generates_in t, tweets_in t).

Section RunDefinitions.
Context {F : Type} {PF : PyFloat F}.
Variable env : Env F.

(** The step name a node writes, and the prefix of its error message. *)
Definition step_name (n : Node) : string :=
  match n with
  | scrape_sources => "scraping"
  | score_virality => "scoring"
  | generate_content => "generating"
  | post_content => "posting"
  end.

Definition error_prefix (n : Node) : string :=
  match n with
  | scrape_sources => "Error in scrape sources node: "
  | score_virality => "Error in score virality node: "
  | generate_content => "Error in generate content node: "
  | post_content => "Error in post content node: "
  end.

Definition generate_call (p : ScoredPost F) : Event :=
  EvGenerate (reddit_id (raw_post p)).

Definition publish_call (g : GeneratedPost F) : Event :=
  EvCreateTweet (tweet_text g).

(** What a node does to the world it finds: to the state object, and to
    the lists of generation and publish calls. *)
Definition node_effect (n : Node) (w w' : World F) : Prop :=
  let s := w_state w in
  let s0 := update_step (step_name n) s in
  match stage_fault env n with
  | Some e =>
      (exists now,
          w_state w' = fail_workflow (error_prefix n +:+ e) now s0)
      /\ generates_in (w_trace w') = generates_in (w_trace w)
      /\ tweets_in (w_trace w') = tweets_in (w_trace w)
  | None =>
      match n with
      | scrape_sources =>
          w_state w'
          = add_raw_posts (flat_map (collected env) (app_subreddits env)) s0
          /\ generates_in (w_trace w') = generates_in (w_trace w)
          /\ tweets_in (w_trace w') = tweets_in (w_trace w)
      | score_virality =>
          (exists scored,
              (length scored <= length (raw_posts s))%nat
              /\ Forall (thresholded env) scored
              /\ Forall (fun sp => In (raw_post sp) (raw_posts s)) scored
              /\ (w_state w' = add_scored_posts scored s0
                  \/ raw_posts s = [] /\ scored = [] /\ w_state w' = s0))
          /\ generates_in (w_trace w') = generates_in (w_trace w)
          /\ tweets_in (w_trace w') = tweets_in (w_trace w)
      | generate_content =>
          (exists out,
              generation_isolated env (get_posts_above_threshold s) out
              /\ (w_state w' = add_generated_posts out s0
                  \/ get_posts_above_threshold s = [] /\ out = []
                     /\ w_state w' = s0))
          /\ generates_in (w_trace w')
             = generates_in (w_trace w)
               ++ map generate_call (get_posts_above_threshold s)
          /\ tweets_in (w_trace w') = tweets_in (w_trace w)
      | post_content =>
          (exists rs,
              publish_isolated env (generated_posts s) rs
              /\ (w_state w' = add_results rs s0
                  \/ generated_posts s = [] /\ rs = [] /\ w_state w' = s0))
          /\ generates_in (w_trace w') = generates_in (w_trace w)
          /\ tweets_in (w_trace w')
             = tweets_in (w_trace w)
               ++ map publish_call
                    (List.filter (attempted env) (generated_posts s))
      end
  end.

End RunDefinitions.

Section FunnelDefinitions.
Context {F : Type} {PF : PyFloat F}.
Variable env : Env F.

(** What holds of the lists of a run state: each list comes from the
    one before it. *)
Definition scored_ok (s : TrendState F) : Prop :=
  (length (scored_posts s) <= length (raw_posts s))%nat
  /\ Forall (fun sp => thresholded env sp /\ In (raw_post sp) (raw_posts s))
            (scored_posts s).

Definition generated_ok (s : TrendState F) : Prop :=
  (length (generated_posts s) <= length (get_posts_above_threshold s))%nat
  /\ Forall (fun g => In (scored_post g) (get_posts_above_threshold s))
            (generated_posts s).

Definition results_ok (s : TrendState F) : Prop :=
  (length (results s) <= length (generated_posts s))%nat
  /\ Forall (fun r => (status r = POSTED \/ status r = FAILED)
                      /\ In (generated_post r) (generated_posts s))
            (results s).

Definition funnel (s : TrendState F) : Prop :=
  counters_agree s /\ scored_ok s /\ generated_ok s /\ results_ok s.

(** What a node finds when the graph reaches it. *)
Definition stage_inv (n : Node) (s : TrendState F) : Prop :=
  match n with
  | scrape_sources =>
      raw_posts s = [] /\ scored_posts s = [] /\ generated_posts s = []
      /\ results s = []
  | score_virality =>
      scored_posts s = [] /\ generated_posts s = [] /\ results s = []
  | generate_content =>
      generated_posts s = [] /\ results s = [] /\ scored_ok s
  | post_content =>
      results s = [] /\ scored_ok s /\ generated_ok s
  end.

(** The generation and publish calls of a run that started with the
    calls [g0] and [t0] already made: the posts generation was called
    for, and the posts sent to the publishing client. *)
Definition calls_match (g0 t0 : list Event) (w' : World F) : Prop :=
  exists called sent,
    generates_in (w_trace w') = g0 ++ map generate_call called
    /\ tweets_in (w_trace w') = t0 ++ map publish_call sent
    /\ (called = [] \/ called = get_posts_above_threshold (w_state w'))
    /\ (sent = []
        \/ sent = List.filter (attempted env) (generated_posts (w_state w')))
    /\ (no_stage_fault env ->
        called = get_posts_above_threshold (w_state w')
        /\ sent = List.filter (attempted env) (generated_posts (w_state w'))).

Definition graph_entry (g0 t0 : list Event) (n : Node) (w : World F) : Prop :=
  counters_agree (w_state w)
  /\ error_message (w_state w) = None
  /\ is_Some (started_at (w_state w))
  /\ stage_inv n (w_state w)
  /\ tweets_in (w_trace w) = t0
  /\ generates_in (w_trace w)
     = g0 ++ match n with
             | post_content =>
                 map generate_call (get_posts_above_threshold (w_state w))
             | _ => []
             end.

Definition graph_exit (g0 t0 : list Event) (w' : World F) : Prop :=
  funnel (w_state w')
  /\ is_Some (started_at (w_state w'))
  /\ (error_message (w_state w') = None
      \/ truthy (error_message (w_state w')) = true)
  /\ (no_stage_fault env -> error_message (w_state w') = None)
  /\ calls_match g0 t0 w'.

End FunnelDefinitions.

Section RunOutcome.
Context {F : Type} {PF : PyFloat F}.
Variable env : Env F.

(** What every run leaves behind. *)
Definition run_outcome (g0 t0 : list Event) (w' : World F) : Prop :=
  let s' := w_state w' in
  funnel env s'
  /\ is_Some (started_at s')
  /\ is_Some (completed_at s')
  /\ calls_match env g0 t0 w'
  /\ (current_step s' = "completed" /\ error_message s' = None
      \/ current_step s' = "failed" /\ truthy (error_message s') = true).

End RunOutcome.

(** ** trend_graph/graph.py: run_trend_analysis *)

(** The dictionary [run_trend_analysis] returns; a field is [None] when
    the key is absent or its value is [None]. *)
Module Analysis.
Record Statistics (F : Type) := {
  total_scraped : Z;
  total_scored : Z;
  total_generated : Z;
  total_posted : Z;
  total_failed : Z;
  success_rate : F
}.
Record t (F : Type) := {
  success : bool;
  workflow_id : option string;
  duration_seconds : option F;
  statistics : option (Statistics F);     (* [None]: the empty dict *)
  posts_above_threshold : option Z;
  generated_content : option Z;
  error_message : option string;
  configuration : option (F * list string)
}.
End Analysis.

Section RunTrendAnalysis.
Context {F : Type} {PF : PyFloat F}.
Variable env : Env F.

Definition run_trend_analysis (min_score_arg : option F)
  (subreddits_arg : option (list string)) : M F (Analysis.t F) :=
  try_except
    (run_workflow env min_score_arg subreddits_arg ;;
     final_state <- get_state ;;
     rate <- or_raise OverflowError "integer division result too large"
               (success_rate final_state) ;;
     ret {| Analysis.success := negb (truthy (error_message final_state));
            Analysis.workflow_id := Some (workflow_id final_state);
            Analysis.duration_seconds := duration_seconds final_state;
            Analysis.statistics :=
              Some {| Analysis.total_scraped := total_scraped final_state;
                      Analysis.total_scored := total_scored final_state;
                      Analysis.total_generated :=
                        total_generated final_state;
                      Analysis.total_posted := total_posted final_state;
                      Analysis.total_failed := total_failed final_state;
                      Analysis.success_rate := rate |};
            Analysis.posts_above_threshold :=
              Some (Z.of_nat
                      (length (get_posts_above_threshold final_state)));
            Analysis.generated_content :=
              Some (Z.of_nat (length (generated_posts final_state)));
            Analysis.error_message := error_message final_state;
            Analysis.configuration :=
              Some (min_score final_state, subreddits final_state) |})
    (fun _ e =>
       ret {| Analysis.success := false;
              Analysis.workflow_id := None;
              Analysis.duration_seconds := None;
              Analysis.statistics := None;
              Analysis.posts_above_threshold := None;
              Analysis.generated_content := None;
              Analysis.error_message := Some e;
              Analysis.configuration := None |}).

End RunTrendAnalysis.

(** ** backend/scheduler.py: controlling the scheduler, and the jobs *)

Module SchedulerControl.
Import Scheduler.

Local Open Scope Z_scope.

(** [SchedulerManager.stop] *)
Definition stop (m : SchedulerManager) : SchedulerManager :=
  if negb (running m) then m
  else {| scheduler := None; running := false;
          interval_minutes := interval_minutes m |}.

(** [SchedulerManager.is_running] *)
Definition is_running (m : SchedulerManager) : bool :=
  running m && match scheduler m with Some _ => true | None => false end.

(** [SchedulerManager.pause_job]: the library sets the job's next run
    time to [None], or raises [JobLookupError], whose [str] is the
    quoted message. *)
Definition pause_job (job_id : string) (m : SchedulerManager)
  : Result Answer * SchedulerManager :=
  match scheduler m with
  | None => (Raise RuntimeError "Scheduler is not running", m)
  | Some s =>
      match get_job job_id s with
      | None =>
          (Ok {| success := false;
                 message := "'No job by the id of " +:+ job_id
                              +:+ " was found'" |}, m)
      | Some _ =>
          (Ok {| success := true;
                 message := "Job " +:+ job_id +:+ " paused successfully" |},
           with_scheduler (modify_next_run_time job_id None) m)
      end
  end.

(** [SchedulerManager.get_next_run_times]: the dictionary, in the order
    of the job store. *)
Definition get_next_run_times (m : SchedulerManager)
  : list (string * option Z) :=
  match scheduler m with
  | None => []
  | Some s => map (fun j => (id j, next_run_time j)) (jobstore s)
  end.

(** What can be done to a manager. *)
Inductive Control :=
| Start (now : Z)
| Stop
| Pause (job_id : string)
| Happens (e : Event).

Definition control (m : SchedulerManager) (c : Control) : SchedulerManager :=
  match c with
  | Start now => start now m
  | Stop => stop m
  | Pause job_id => snd (pause_job job_id m)
  | Happens e => step m e
  end.

Definition controls (cs : list Control) (m : SchedulerManager)
  : SchedulerManager :=
  fold_left control cs m.

(** The ids of the jobs under the manager. *)
Definition job_ids (m : SchedulerManager) : list string :=
  match scheduler m with
  | Some s => map id (jobstore s)
  | None => []
  end.

(** The next run time of a job id under the manager. *)
Definition next_run_of (m : SchedulerManager) (job_id : string)
  : option Z :=
  match scheduler m with
  | Some s => get_job job_id s ≫= next_run_time
  | None => None
  end.

(** ** The job functions and their statistics *)

Record JobStats := {
  workflow_runs : Z;
  workflow_successes : Z;
  workflow_failures : Z;
  metrics_collections : Z;
  metrics_successes : Z;
  metrics_failures : Z;
  last_workflow_run : option Z;
  last_metrics_collection : option Z;
  last_cleanup : option Z
}.

(** [SchedulerManager.__init__] *)
Definition new_job_stats : JobStats :=
  {| workflow_runs := 0; workflow_successes := 0; workflow_failures := 0;
     metrics_collections := 0; metrics_successes := 0;
     metrics_failures := 0; last_workflow_run := None;
     last_metrics_collection := None; last_cleanup := None |}.

(** [_run_workflow_job] at time [now]; [result] is what
    [run_trend_analysis] does: it returns a dictionary whose ["success"]
    is truthy or not, or it raises.  The job re-raises. *)
Definition _run_workflow_job (now : Z) (result : Result bool)
  (st : JobStats) : Result unit * JobStats :=
  let st1 :=
    {| workflow_runs := workflow_runs st + 1;
       workflow_successes := workflow_successes st;
       workflow_failures := workflow_failures st;
       metrics_collections := metrics_collections st;
       metrics_successes := metrics_successes st;
       metrics_failures := metrics_failures st;
       last_workflow_run := Some now;
       last_metrics_collection := last_metrics_collection st;
       last_cleanup := last_cleanup st |} in
  let succeeded :=
    {| workflow_runs := workflow_runs st1;
       workflow_successes := workflow_successes st1 + 1;
       workflow_failures := workflow_failures st1;
       metrics_collections := metrics_collections st1;
       metrics_successes := metrics_successes st1;
       metrics_failures := metrics_failures st1;
       last_workflow_run := last_workflow_run st1;
       last_metrics_collection := last_metrics_collection st1;
       last_cleanup := last_cleanup st1 |} in
  let failed :=
    {| workflow_runs := workflow_runs st1;
       workflow_successes := workflow_successes st1;
       workflow_failures := workflow_failures st1 + 1;
       metrics_collections := metrics_collections st1;
       metrics_successes := metrics_successes st1;
       metrics_failures := metrics_failures st1;
       last_workflow_run := last_workflow_run st1;
       last_metrics_collection := last_metrics_collection st1;
       last_cleanup := last_cleanup st1 |} in
  match result with
  | Ok true => (Ok tt, succeeded)
  | Ok false => (Ok tt, failed)
  | Raise c e => (Raise c e, failed)
  end.

(** [_collect_metrics_job]; [result] is what [collect_metrics_node]
    does: a dictionary with a ["success"] entry ([Some b]) or without
    one ([None], which counts as success), or an exception. *)
Definition _collect_metrics_job (now : Z) (result : Result (option bool))
  (st : JobStats) : Result unit * JobStats :=
  let st1 :=
    {| workflow_runs := workflow_runs st;
       workflow_successes := workflow_successes st;
       workflow_failures := workflow_failures st;
       metrics_collections := metrics_collections st + 1;
       metrics_successes := metrics_successes st;
       metrics_failures := metrics_failures st;
       last_workflow_run := last_workflow_run st;
       last_metrics_collection := Some now;
       last_cleanup := last_cleanup st |} in
  let succeeded :=
    {| workflow_runs := workflow_runs st1;
       workflow_successes := workflow_successes st1;
       workflow_failures := workflow_failures st1;
       metrics_collections := metrics_collections st1;
       metrics_successes := metrics_successes st1 + 1;
       metrics_failures := metrics_failures st1;
       last_workflow_run := last_workflow_run st1;
       last_metrics_collection := last_metrics_collection st1;
       last_cleanup := last_cleanup st1 |} in
  let failed :=
    {| workflow_runs := workflow_runs st1;
       workflow_successes := workflow_successes st1;
       workflow_failures := workflow_failures st1;
       metrics_collections := metrics_collections st1;
       metrics_successes := metrics_successes st1;
       metrics_failures := metrics_failures st1 + 1;
       last_workflow_run := last_workflow_run st1;
       last_metrics_collection := last_metrics_collection st1;
       last_cleanup := last_cleanup st1 |} in
  match result with
  | Ok (Some false) => (Ok tt, failed)
  | Ok _ => (Ok tt, succeeded)
  | Raise c e => (Raise c e, failed)
  end.

(** [_cleanup_job]; [result] is what [cleanup_old_records] does. *)
Definition _cleanup_job (now : Z) (result : Result unit) (st : JobStats)
  : Result unit * JobStats :=
  (result,
   {| workflow_runs := workflow_runs st;
      workflow_successes := workflow_successes st;
      workflow_failures := workflow_failures st;
      metrics_collections := metrics_collections st;
      metrics_successes := metrics_successes st;
      metrics_failures := metrics_failures st;
      last_workflow_run := last_workflow_run st;
      last_metrics_collection := last_metrics_collection st;
      last_cleanup := Some now |}).

(** One execution of a job function. *)
Inductive Execution :=
| RunWorkflow (now : Z) (result : Result bool)
| CollectMetrics (now : Z) (result : Result (option bool))
| Cleanup (now : Z) (result : Result unit).

Definition execute (st : JobStats) (x : Execution) : JobStats :=
  match x with
  | RunWorkflow now r => snd (_run_workflow_job now r st)
  | CollectMetrics now r => snd (_collect_metrics_job now r st)
  | Cleanup now r => snd (_cleanup_job now r st)
  end.

(** The executions that ran the workflow, that ran it with success, and
    likewise for the metrics collection. *)
Definition is_workflow_run (x : Execution) : bool :=
  match x with RunWorkflow _ _ => true | _ => false end.

Definition is_workflow_success (x : Execution) : bool :=
  match x with RunWorkflow _ (Ok true) => true | _ => false end.

Definition is_metrics_run (x : Execution) : bool :=
  match x with CollectMetrics _ _ => true | _ => false end.

Definition is_metrics_success (x : Execution) : bool :=
  match x with
  | CollectMetrics _ (Ok (Some true)) | CollectMetrics _ (Ok None) => true
  | _ => false
  end.

(** The ids [_add_jobs] registers. *)
Definition registered : list string :=
  ["workflow_job"; "metrics_job"; "snapshot_job"; "cleanup_job"].

(** The manager is stopped, or it runs the registered jobs, each with
    at most one instance. *)
Definition consistent (interval : Z) (m : SchedulerManager) : Prop :=
  interval_minutes m = interval
  /\ match scheduler m with
     | Some s => running m = true /\ map id (jobstore s) = registered
                 /\ single_instance s
     | None => running m = false
     end.

(** Every job of the id is paused. *)
Definition paused (job_id : string) (m : SchedulerManager) : Prop :=
  match scheduler m with
  | Some s => Forall (fun j => id j = job_id -> next_run_time j = None)
                     (jobstore s)
  | None => True
  end.

(** The event is not a manual trigger of the job. *)
Definition leaves_alone (job_id : string) (e : Event) : Prop :=
  match e with
  | RunJobNow k _ => k <> job_id
  | _ => True
  end.

End SchedulerControl.

(** ** trend_graph/nodes/score.py: the top posts *)

(** The dictionaries [get_top_posts_by_score] returns. *)
Module TopPost.
Record t (F : Type) := {
  reddit_id : string;
  title : string;
  subreddit : string;
  upvotes : Z;
  age_minutes : F;
  score : F;
  meets_threshold : bool
}.
End TopPost.

(** [l[:limit]]: a negative limit counts from the end. *)
Definition py_slice_to {A} (limit : Z) (l : list A) : list A :=
  if (0 <=? limit)%Z then firstn (Z.to_nat limit) l
  else firstn (length l - Z.to_nat (- limit)) l.

Section TopPosts.
Context {F : Type} {PF : PyFloat F}.
Variable env : Env F.

(** A list comprehension whose element expression has effects:
    evaluated from left to right. *)
Fixpoint comprehension {A B} (f : A -> M F B) (l : list A) : M F (list B) :=
  match l with
  | [] => ret []
  | a :: rest =>
      b <- f a ;;
      bs <- comprehension f rest ;;
      ret (b :: bs)
  end.

Definition top_post_dict (post : ScoredPost F) : M F (TopPost.t F) :=
  age <- age_minutes env (raw_post post) ;;
  ret {| TopPost.reddit_id := reddit_id (raw_post post);
         TopPost.title := substring 0 100 (title (raw_post post));
         TopPost.subreddit := subreddit (raw_post post);
         TopPost.upvotes := upvotes (raw_post post);
         TopPost.age_minutes := age;
         TopPost.score := score post;
         TopPost.meets_threshold := meets_threshold post |}.

Definition get_top_posts_by_score (posts : list (RawPost F)) (limit : Z)
  : M F (list (TopPost.t F)) :=
  scored_posts <- score_posts env posts ;;
  let top_posts := py_slice_to limit scored_posts in
  comprehension top_post_dict top_posts.

End TopPosts.

(** The number of elements of [l[:limit]] for a list of [n] elements. *)
Definition slice_length (limit : Z) (n : nat) : nat :=
  if (0 <=? limit)%Z then Nat.min (Z.to_nat limit) n
  else (n - Z.to_nat (- limit))%nat.

(* ================================================================== *)
(** * Stepping through a computation *)

Unset Implicit Arguments.

Section Stepping.
Context {F : Type} {PF : PyFloat F}.

Lemma bind_ok {A B} (m : M F A) (k : A -> M F B) w a w' :
  m w = (Ok a, w') -> bind m k w = k a w'.
Proof. intros E. unfold bind. rewrite E. reflexivity. Qed.

Lemma bind_raise {A B} (m : M F A) (k : A -> M F B) w c e w' :
  m w = (Raise c e, w') -> bind m k w = (Raise c e, w').
Proof. intros E. unfold bind. rewrite E. reflexivity. Qed.

Lemma try_ok {A} (m : M F A) h w a w' :
  m w = (Ok a, w') -> try_except m h w = (Ok a, w').
Proof. intros E. unfold try_except. rewrite E. reflexivity. Qed.

Lemma try_raise {A} (m : M F A) h w c e w' :
  m w = (Raise c e, w') -> try_except m h w = h c e w'.
Proof. intros E. unfold try_except. rewrite E. reflexivity. Qed.

End Stepping.

(* ================================================================== *)
(** * The scorer *)

Lemma Qltb_true (x y : Q) : Qltb x y = true <-> x < y.
Proof.
  unfold Qltb. rewrite negb_true_iff. split.
  - intros H. apply Qnot_le_lt. intros Hle.
    apply Qle_bool_iff in Hle. congruence.
  - intros H. destruct (Qle_bool y x) eqn:E; [|reflexivity].
    apply Qle_bool_iff in E. exfalso. apply (Qlt_not_le _ _ H E).
Qed.

Lemma Qltb_false (x y : Q) : Qltb x y = false <-> y <= x.
Proof. unfold Qltb. rewrite negb_false_iff. apply Qle_bool_iff. Qed.

Lemma py_max_Qmax (a b : Q) : py_max a b == Qmax a b.
Proof.
  unfold py_max. cbn [fltb exact].
  destruct (Qltb a b) eqn:E.
  - apply Qltb_true in E. symmetry. apply Q.max_r. lra.
  - apply Qltb_false in E. symmetry. apply Q.max_l. exact E.
Qed.

(** ** Running the scorer in exact arithmetic *)

Section ExactRun.
Variable env : Env Q.

Lemma py_fdiv_exact (x y : Q) : ~ y == 0 -> py_fdiv x y = ret (x / y).
Proof.
  intros Hy. unfold py_fdiv, or_raise. cbn [fdiv exact].
  destruct (Qeq_bool y 0) eqn:E; [|reflexivity].
  apply Qeq_bool_iff in E. contradiction.
Qed.

Lemma py_int_truediv_exact (a b : Z) :
  b <> 0%Z -> py_int_truediv a b = ret (F:=Q) (inject_Z a / inject_Z b).
Proof.
  intros Hb. unfold py_int_truediv, or_raise. cbn [int_truediv exact].
  destruct (Z.eqb_spec b 0); [contradiction | reflexivity].
Qed.

Lemma age_minutes_run post w :
  age_minutes env post w =
  (Ok ((clock env (w_reads w) - created_utc post) / 60.0), tick w).
Proof.
  unfold age_minutes. erewrite bind_ok; [|reflexivity].
  cbn [fsub exact flit]. rewrite py_fdiv_exact by (intros E; discriminate E).
  reflexivity.
Qed.

Lemma apply_scoring_factors_run post base w :
  _apply_scoring_factors env post base w =
  (Ok (exact_factors post base
         ((clock env (w_reads w) - created_utc post) / 60.0)), tick w).
Proof.
  unfold _apply_scoring_factors, exact_factors, undecayed_factors.
  cbn [fltb fmul fsub flit exact].
  destruct (0 <? upvotes post)%Z eqn:Hu.
  - erewrite bind_ok; cycle 1.
    { erewrite bind_ok; [reflexivity|].
      rewrite py_int_truediv_exact by (apply Z.ltb_lt in Hu; lia).
      reflexivity. }
    erewrite bind_ok; [|apply age_minutes_run].
    erewrite bind_ok;
      [|rewrite py_fdiv_exact by (intros E; discriminate E); reflexivity].
    destruct (Qltb 12 _); [|reflexivity].
    erewrite bind_ok; [reflexivity|].
    rewrite py_fdiv_exact by (intros E; discriminate E); reflexivity.
  - erewrite bind_ok; [|reflexivity].
    erewrite bind_ok; [|apply age_minutes_run].
    erewrite bind_ok;
      [|rewrite py_fdiv_exact by (intros E; discriminate E); reflexivity].
    destruct (Qltb 12 _); [|reflexivity].
    erewrite bind_ok; [reflexivity|].
    rewrite py_fdiv_exact by (intros E; discriminate E); reflexivity.
Qed.

Lemma calculate_virality_score_run post w :
  calculate_virality_score env post w =
  (Ok (exact_score post (clock env (w_reads w)) (clock env (S (w_reads w)))),
   tick (tick w)).
Proof.
  unfold calculate_virality_score, exact_score, exact_base.
  erewrite bind_ok; [|apply age_minutes_run].
  cbn [fltb flit exact].
  destruct (Qltb _ 1) eqn:H1.
  - erewrite bind_ok; cycle 1.
    { rewrite py_int_truediv_exact by discriminate. reflexivity. }
    rewrite apply_scoring_factors_run. reflexivity.
  - erewrite bind_ok; cycle 1.
    { erewrite bind_ok; [|reflexivity].
      rewrite py_fdiv_exact; [reflexivity|].
      apply Qltb_false in H1. intros E. rewrite E in H1. lra. }
    rewrite apply_scoring_factors_run. reflexivity.
Qed.

End ExactRun.

(** ** Shape of the exact score *)

Lemma ratio_nonpos (c u : Z) :
  (0 <= c)%Z -> (u <= 0)%Z -> inject_Z c / inject_Z u <= 0.
Proof.
  intros Hc Hu. unfold Qdiv, Qmult, Qinv, Qle, inject_Z.
  destruct u as [|p|p]; cbn; lia.
Qed.

Lemma exact_base_spec (post : RawPost Q) (now : Q) :
  exact_base post now ==
  spec_base_score (upvotes post) ((now - created_utc post) / 60.0).
Proof.
  unfold exact_base, spec_base_score.
  destruct (Qltb _ 1) eqn:E.
  - apply Qltb_true in E. rewrite Q.max_r by lra. reflexivity.
  - apply Qltb_false in E. rewrite Q.max_l by lra. reflexivity.
Qed.

Lemma undecayed_factors_spec (post : RawPost Q) (b : Q) :
  (0 <= num_comments post)%Z ->
  undecayed_factors post b ==
  b * spec_engagement_bonus (num_comments post) (upvotes post)
    * spec_quality_adjustment (upvote_ratio post)
    * spec_group_multiplier (subreddit post).
Proof.
  intros Hc. unfold undecayed_factors, spec_engagement_bonus,
    spec_quality_adjustment, spec_group_multiplier.
  destruct (0 <? upvotes post)%Z eqn:Hu.
  - destruct (Qltb 0.1 _); destruct (Qltb 0.9 _); try destruct (Qltb _ 0.7);
      ring.
  - apply Z.ltb_ge in Hu. pose proof (ratio_nonpos _ _ Hc Hu) as Hr.
    destruct (Qltb 0.1 _) eqn:E; [apply Qltb_true in E; lra|].
    destruct (Qltb 0.9 _); try destruct (Qltb _ 0.7); ring.
Qed.

Lemma exact_factors_decay (post : RawPost Q) (b age : Q) :
  exact_factors post b age == undecayed_factors post b * age_decay_factor age.
Proof.
  unfold exact_factors, age_decay_factor.
  destruct (Qltb 12 _); ring.
Qed.

Lemma age_decay_factor_spec (age : Q) :
  age_decay_factor age == spec_age_decay age.
Proof.
  unfold age_decay_factor, spec_age_decay.
  destruct (Qltb 12 _); [apply py_max_Qmax | reflexivity].
Qed.

Lemma exact_score_spec (post : RawPost Q) (now1 now2 : Q) :
  (0 <= num_comments post)%Z ->
  exact_score post now1 now2 ==
  spec_score post ((now1 - created_utc post) / 60.0)
                  ((now2 - created_utc post) / 60.0).
Proof.
  intros Hc. unfold exact_score, spec_score.
  rewrite exact_factors_decay, (undecayed_factors_spec _ _ Hc),
    exact_base_spec, age_decay_factor_spec.
  reflexivity.
Qed.

(** ** The score depends on the post and the clock only *)

Section SameClockSameScore.
Context {F : Type} {PF : PyFloat F}.
Variables env1 env2 : Env F.
Variables n1 n2 : nat.
Hypothesis first_reading : clock env1 n1 = clock env2 n2.
Hypothesis second_reading : clock env1 (S n1) = clock env2 (S n2).

Lemma alike_fst {A} R (r1 r2 : Result A * World F) :
  alike R r1 r2 -> fst r1 = fst r2.
Proof.
  destruct r1 as [[a1|c1 e1] w1'], r2 as [[a2|c2 e2] w2']; cbn; try tauto.
  - intros [-> _]. reflexivity.
  - intros [-> ->]. reflexivity.
Qed.

Lemma alike_bind {A B} P R (m1 m2 : M F A) (k1 k2 : A -> M F B) w1 w2 :
  alike P (m1 w1) (m2 w2) ->
  (forall a w1' w2', P w1' w2' -> alike R (k1 a w1') (k2 a w2')) ->
  alike R (bind m1 k1 w1) (bind m2 k2 w2).
Proof.
  unfold bind. intros Hm Hk.
  destruct (m1 w1) as [[a1|c1 e1] w1'], (m2 w2) as [[a2|c2 e2] w2'];
    cbn in Hm; try tauto.
  - destruct Hm as [-> HP]. apply Hk, HP.
  - cbn. exact Hm.
Qed.

Lemma alike_or_raise {A} P c msg (o : option A) (w1 w2 : World F) :
  P w1 w2 -> alike P (or_raise c msg o w1) (or_raise c msg o w2).
Proof. intros HP. destruct o; cbn; tauto. Qed.

Lemma alike_utcnow0 w1 w2 :
  in_step n1 n2 0 w1 w2 -> alike (in_step n1 n2 1) (utcnow env1 w1) (utcnow env2 w2).
Proof.
  intros [E1 E2]. cbn. rewrite E1, E2, !Nat.add_0_r. split; [exact first_reading|].
  split; cbn; lia.
Qed.

Lemma alike_utcnow1 w1 w2 :
  in_step n1 n2 1 w1 w2 -> alike (in_step n1 n2 2) (utcnow env1 w1) (utcnow env2 w2).
Proof.
  intros [E1 E2]. cbn. rewrite E1, E2, !Nat.add_1_r. split; [exact second_reading|].
  split; cbn; lia.
Qed.

Lemma alike_apply_scoring_factors post base w1 w2 :
  in_step n1 n2 1 w1 w2 ->
  alike (in_step n1 n2 2) (_apply_scoring_factors env1 post base w1)
                    (_apply_scoring_factors env2 post base w2).
Proof.
  intros H. unfold _apply_scoring_factors.
  eapply alike_bind with (P := in_step n1 n2 1).
  { destruct (0 <? upvotes post)%Z; [|cbn; tauto].
    eapply alike_bind with (P := in_step n1 n2 1).
    - apply alike_or_raise, H.
    - intros a w1' w2' H'. cbn. tauto. }
  intros s w1' w2' H'.
  eapply alike_bind with (P := in_step n1 n2 2).
  { unfold age_minutes. eapply alike_bind; [apply alike_utcnow1, H'|].
    intros now w1'' w2'' H''. apply alike_or_raise, H''. }
  intros age w1'' w2'' H''.
  eapply alike_bind with (P := in_step n1 n2 2); [apply alike_or_raise, H''|].
  intros h w1''' w2''' H'''.
  destruct (fltb (flit 12) h); [|cbn; tauto].
  eapply alike_bind with (P := in_step n1 n2 2); [apply alike_or_raise, H'''|].
  intros x v1 v2 Hv. cbn. tauto.
Qed.

Lemma alike_calculate_virality_score post w1 w2 :
  in_step n1 n2 0 w1 w2 ->
  alike (in_step n1 n2 2) (calculate_virality_score env1 post w1)
                    (calculate_virality_score env2 post w2).
Proof.
  intros H. unfold calculate_virality_score.
  eapply alike_bind with (P := in_step n1 n2 1).
  { unfold age_minutes. eapply alike_bind; [apply alike_utcnow0, H|].
    intros now w1' w2' H'. apply alike_or_raise, H'. }
  intros age w1' w2' H'.
  eapply alike_bind with (P := in_step n1 n2 1).
  { destruct (fltb age (flit 1)).
    - apply alike_or_raise, H'.
    - eapply alike_bind with (P := in_step n1 n2 1); [apply alike_or_raise, H'|].
      intros u v1 v2 Hv. apply alike_or_raise, Hv. }
  intros base v1 v2 Hv. apply alike_apply_scoring_factors, Hv.
Qed.

End SameClockSameScore.

(** ** The factors are positive *)

Lemma subreddit_multiplier_pos (label : string) :
  0 < dict_get (F:=Q) subreddit_multipliers label 1.0.
Proof.
  unfold subreddit_multipliers. cbn [dict_get flit exact].
  repeat match goal with
         | |- context [String.eqb ?a ?b] => destruct (String.eqb a b)
         end; reflexivity.
Qed.

Lemma undecayed_factors_scale (post : RawPost Q) :
  exists k, 0 < k /\ forall b, undecayed_factors post b == b * k.
Proof.
  pose proof (subreddit_multiplier_pos (subreddit post)) as Hm.
  unfold undecayed_factors.
  set (m := dict_get subreddit_multipliers (subreddit post) 1.0) in *.
  destruct (0 <? upvotes post)%Z; [destruct (Qltb 0.1 _)|];
    (destruct (Qltb 0.9 _); [|destruct (Qltb _ 0.7)]).
  all: match goal with
       | |- exists k, _ /\ forall b, ?f == _ =>
           let t := eval pattern b in f in idtac
       | _ => idtac
       end.
  - exists (1.1 * 1.05 * m). split; [nra | intros; ring].
  - exists (1.1 * 0.95 * m). split; [nra | intros; ring].
  - exists (1.1 * m). split; [nra | intros; ring].
  - exists (1.05 * m). split; [nra | intros; ring].
  - exists (0.95 * m). split; [nra | intros; ring].
  - exists m. split; [nra | intros; ring].
  - exists (1.05 * m). split; [nra | intros; ring].
  - exists (0.95 * m). split; [nra | intros; ring].
  - exists m. split; [nra | intros; ring].
Qed.

Lemma age_decay_factor_floor (a : Q) : 0.5 <= age_decay_factor a.
Proof.
  unfold age_decay_factor. destruct (Qltb 12 _); [|lra].
  rewrite py_max_Qmax. apply Q.le_max_l.
Qed.

Lemma age_hours_gt (a : Q) : Qltb 12 (a / 60) = true <-> 720 < a.
Proof. rewrite Qltb_true. const_divisions. split; intros H; lra. Qed.

Lemma age_decay_factor_formula (a : Q) :
  720 < a -> age_decay_factor a == Qmax 0.5 (1 - (a / 60 - 12) / 24).
Proof.
  intros H. unfold age_decay_factor.
  apply age_hours_gt in H. rewrite H. apply py_max_Qmax.
Qed.

Lemma age_decay_factor_le_1 (a : Q) : age_decay_factor a <= 1.
Proof.
  unfold age_decay_factor. destruct (Qltb 12 _) eqn:E; [|lra].
  rewrite py_max_Qmax. apply Qltb_true in E.
  apply Q.max_lub; [lra|]. const_divisions. lra.
Qed.

Lemma age_decay_factor_antitone (a b : Q) :
  a <= b -> age_decay_factor b <= age_decay_factor a.
Proof.
  intros Hab. unfold age_decay_factor at 2.
  destruct (Qltb 12 (a / 60)) eqn:Ea; [|apply age_decay_factor_le_1].
  assert (Eb : Qltb 12 (b / 60) = true).
  { apply age_hours_gt. apply age_hours_gt in Ea. lra. }
  unfold age_decay_factor. rewrite Eb, !py_max_Qmax.
  apply Q.max_le_compat_l. const_divisions. lra.
Qed.

Lemma age_decay_factor_36h (a : Q) : 2160 <= a -> age_decay_factor a == 0.5.
Proof.
  intros H. rewrite age_decay_factor_formula by lra.
  apply Q.max_l. const_divisions. lra.
Qed.

Lemma exact_base_nonneg (post : RawPost Q) (now : Q) :
  (0 <= upvotes post)%Z -> 0 <= exact_base post now.
Proof.
  intros Hu. unfold exact_base.
  assert (0 <= inject_Z (upvotes post)).
  { change 0 with (inject_Z 0). rewrite <- Zle_Qle. exact Hu. }
  destruct (Qltb _ 1) eqn:E.
  - apply Qle_shift_div_l; [reflexivity | lra].
  - apply Qltb_false in E. apply Qle_shift_div_l; lra.
Qed.

Lemma exact_base_zero (post : RawPost Q) (now : Q) :
  upvotes post = 0%Z -> exact_base post now == 0.
Proof.
  intros Hu. unfold exact_base. rewrite Hu.
  destruct (Qltb _ 1); unfold Qdiv; change (inject_Z 0) with 0; ring.
Qed.

(* ------------------------------------------------------------------ *)
(** ** The claims about the scorer *)

(** C7 (amended).  For every post with a non-negative comment count the
    returned score is the base score popularity / max(age_in_minutes, 1)
    multiplied by the engagement bonus (x1.10 when engagement_count /
    popularity > 0.1), the quality adjustment (x1.05 above 0.9, x0.95
    below 0.7), the source-group multiplier (table lookup, default 1.0)
    and the age-decay factor; the base uses the age at the first clock
    reading of the call, the decay the age at the second.  In particular
    the post of scenario 1 (popularity 1000, age 60 minutes, 100 comments,
    approval ratio 0.95, group multiplier 1.2) scores (1000/60) x 1.05 x
    1.2 = 21: its ratio 100/1000 is not greater than 0.1, so the
    engagement bonus does not apply. *)
Theorem score_is_base_times_factors
  (env : Env Q) (post : RawPost Q) (w : World Q) :
  (0 <= num_comments post)%Z ->
  (exists s,
      fst (calculate_virality_score env post w) = Ok s /\
      s == spec_score post
             ((clock env (w_reads w) - created_utc post) / 60.0)
             ((clock env (S (w_reads w)) - created_utc post) / 60.0))
  /\
  (exists s,
      fst (calculate_virality_score (quiet_env (fun _ => 3600)) scenario1
             world0) = Ok s /\
      s == 1000 / 60 * 1.05 * 1.2 /\ s == 21).
Proof.
  intros Hc. split.
  - eexists. rewrite calculate_virality_score_run. split; [reflexivity|].
    apply exact_score_spec, Hc.
  - eexists. rewrite calculate_virality_score_run. split; [reflexivity|].
    split; vm_compute; reflexivity.
Qed.

Lemma score_is_base_times_factors_witness :
  exists s,
    fst (calculate_virality_score (quiet_env late_clock) scenario1 world0)
    = Ok s /\
    s == spec_score scenario1 ((3600 - 0) / 60.0) ((3600 - 0) / 60.0).
Proof.
  refine (proj1 (score_is_base_times_factors (quiet_env late_clock)
                   scenario1 world0 _)).
  vm_compute. discriminate.
Defined.

(** C7, the scenario as the claim gives it: the score of that post is 21,
    which is neither (1000/60) x 1.10 x 1.05 x 1.2 nor within 2 of 23.1. *)
Lemma scenario1_scores_21_not_23 :
  exists s,
    fst (calculate_virality_score (quiet_env (fun _ => 3600)) scenario1
           world0) = Ok s /\
    s == 21 /\
    ~ s == 1000 / 60 * 1.10 * 1.05 * 1.2 /\
    2 < Qabs (s - 23.1).
Proof.
  eexists. rewrite calculate_virality_score_run. split; [reflexivity|].
  split; [vm_compute; reflexivity|].
  split; [intros H; vm_compute in H; discriminate H|].
  vm_compute. reflexivity.
Qed.

(** The same scenario in binary64: 100/1000 and the literal 0.1 are the
    same double, the bonus does not apply, and the result is the double
    21.000000000000004. *)
Example scenario1_binary64 :
  int_truediv (F:=binary64) 100 1000 = Some (flit 0.1) /\
  fst (calculate_virality_score (quiet_env (fun _ => flit 3600)) scenario1
         world0)
  = Ok (S754_finite false 5910974510923777 (-48)).
Proof. split; vm_compute; reflexivity. Qed.

(** C8.  The score is the undecayed score times the age-decay factor of
    the post's age; beyond 12 hours (720 minutes) the factor equals
    max(0.5, 1 - (age_hours - 12)/24); it is non-increasing in the age,
    is exactly 0.5 from 36 hours (2160 minutes) on, and is never below
    0.5. *)
Theorem age_decay_non_increasing_floor_half :
  (forall (env : Env Q) (post : RawPost Q) (w : World Q),
      exists s,
        fst (calculate_virality_score env post w) = Ok s /\
        s == undecayed_factors post
               (exact_base post (clock env (w_reads w)))
             * age_decay_factor
                 ((clock env (S (w_reads w)) - created_utc post) / 60.0))
  /\ (forall a, 12 * 60 < a ->
        age_decay_factor a == Qmax 0.5 (1 - (a / 60 - 12) / 24))
  /\ (forall a b, a <= b -> age_decay_factor b <= age_decay_factor a)
  /\ (forall a, 36 * 60 <= a -> age_decay_factor a == 0.5)
  /\ (forall a, 0.5 <= age_decay_factor a).
Proof.
  split; [|split; [|split; [|split]]].
  - intros env post w. eexists.
    rewrite calculate_virality_score_run. split; [reflexivity|].
    apply exact_factors_decay.
  - intros a H. apply age_decay_factor_formula. lra.
  - apply age_decay_factor_antitone.
  - intros a H. apply age_decay_factor_36h. lra.
  - apply age_decay_factor_floor.
Qed.



(** C2 (amended).  The score is a function of the post and of the two
    readings of the clock the call takes: two calls on the same post that
    read the same times return the same result, whatever else differs
    (in any float arithmetic). *)
Theorem same_post_same_clock_same_score {F : Type} {PF : PyFloat F}
  (env1 env2 : Env F) (post : RawPost F) (w1 w2 : World F) :
  clock env1 (w_reads w1) = clock env2 (w_reads w2) ->
  clock env1 (S (w_reads w1)) = clock env2 (S (w_reads w2)) ->
  fst (calculate_virality_score env1 post w1)
  = fst (calculate_virality_score env2 post w2).
Proof.
  intros H0 H1.
  eapply alike_fst.
  eapply (alike_calculate_virality_score _ _ _ _ H0 H1).
  split; lia.
Qed.

Lemma same_post_same_clock_same_score_witness :
  fst (calculate_virality_score (quiet_env (fun _ => 3600)) scenario1 world0)
  = fst (calculate_virality_score (quiet_env late_clock) scenario1 world0).
Proof.
  apply (same_post_same_clock_same_score
           (quiet_env (fun _ => 3600)) (quiet_env late_clock)
           scenario1 world0 world0); reflexivity.
Defined.

(** C2, as the claim states it: the same post scored twice in a row, the
    clock having moved on from one hour to two hours in between, gets 21
    and then 10.5. *)
Lemma same_post_scored_twice_differs :
  exists s1 s2 w1,
    calculate_virality_score (quiet_env late_clock) scenario1 world0
    = (Ok s1, w1) /\
    fst (calculate_virality_score (quiet_env late_clock) scenario1 w1)
    = Ok s2 /\
    s1 == 21 /\ s2 == 10.5 /\ ~ s1 == s2.
Proof.
  eexists _, _, _. rewrite !calculate_virality_score_run.
  split; [reflexivity|]. split; [reflexivity|].
  split; [vm_compute; reflexivity|].
  split; [vm_compute; reflexivity|].
  intros H; vm_compute in H; discriminate H.
Qed.

(** ** score_posts *)

Section ExactScorePosts.
Variable env : Env Q.

Lemma score_post_run post w :
  exists sp,
    score_post env post w = (Ok sp, tick (tick (tick w))) /\
    raw_post sp = post /\ scored_by_scorer env sp.
Proof.
  unfold score_post.
  erewrite bind_ok; [|apply calculate_virality_score_run].
  erewrite bind_ok; [|reflexivity].
  eexists. split; [reflexivity|]. split; [reflexivity|].
  exists (w_reads w). reflexivity.
Qed.

Lemma score_posts_loop_run posts : forall scored w,
  exists l w',
    score_posts_loop env posts scored w = (Ok (scored ++ l), w') /\
    map raw_post l = posts /\ Forall (scored_by_scorer env) l.
Proof.
  induction posts as [|post rest IH]; intros scored w.
  - exists [], w. cbn. rewrite app_nil_r. auto.
  - destruct (score_post_run post w) as (sp & Hrun & Hraw & Hsp).
    destruct (IH (scored ++ [sp]) (tick (tick (tick w))))
      as (l & w' & Hloop & Hmap & Hall).
    exists (sp :: l), w'. split; [|split].
    + cbn [score_posts_loop]. erewrite bind_ok; cycle 1.
      { unfold try_except. erewrite bind_ok; [|exact Hrun]. reflexivity. }
      rewrite Hloop, <- app_assoc. reflexivity.
    + cbn. congruence.
    + constructor; assumption.
Qed.

End ExactScorePosts.

Lemma insert_by_score_perm (p : ScoredPost Q) (l : list (ScoredPost Q)) :
  Permutation (insert_by_score p l) (p :: l).
Proof.
  induction l as [|q l IH]; cbn [insert_by_score]; [reflexivity|].
  destruct (fltb (score p) (score q)); [|reflexivity].
  rewrite IH. apply perm_swap.
Qed.

Lemma insert_by_score_sorted (p : ScoredPost Q) (l : list (ScoredPost Q)) :
  StronglySorted by_score_desc l ->
  StronglySorted by_score_desc (insert_by_score p l).
Proof.
  induction l as [|q l IH]; intros Hs; cbn [insert_by_score].
  - repeat constructor.
  - inversion Hs as [|q' l' Hl Hq]; subst.
    cbn [fltb exact]. destruct (Qltb (score p) (score q)) eqn:E.
    + constructor; [apply IH, Hl|].
      eapply Permutation_Forall.
      * symmetry. apply insert_by_score_perm.
      * constructor; [|exact Hq].
        apply Qltb_true in E. unfold by_score_desc. lra.
    + apply Qltb_false in E. constructor; [exact Hs|].
      constructor; [exact E|].
      eapply List.Forall_impl; [|exact Hq].
      intros r Hr. unfold by_score_desc in *. lra.
Qed.

Lemma sort_by_score_desc_sorted (l : list (ScoredPost Q)) :
  StronglySorted by_score_desc (sort_by_score_desc l).
Proof.
  induction l as [|p l IH]; cbn; [constructor|].
  apply insert_by_score_sorted, IH.
Qed.

Lemma sort_by_score_desc_perm (l : list (ScoredPost Q)) :
  Permutation (sort_by_score_desc l) l.
Proof.
  induction l as [|p l IH]; cbn; [reflexivity|].
  rewrite insert_by_score_perm, IH. reflexivity.
Qed.


(* ================================================================== *)
(** * What a computation leaves untouched *)

Section Frames.
Context {F : Type} {PF : PyFloat F}.
Variable env : Env F.
Context {X : Type}.

Variable obs : TrendState F -> list Event -> X.

Lemma calm_keeps {A} (m : M F A) : calm obs m -> keeps obs m.
Proof. intros H w. apply H. Qed.

Lemma calm_ret {A} (a : A) : calm obs (ret a).
Proof. intros w. split; [eexists|]; reflexivity. Qed.

Lemma keeps_raise {A} c msg : keeps obs (raise (A:=A) c msg).
Proof. intros w. reflexivity. Qed.

Lemma keeps_bind {A B} (m : M F A) (k : A -> M F B) :
  keeps obs m -> (forall a, keeps obs (k a)) -> keeps obs (bind m k).
Proof.
  intros Hm Hk w. unfold bind. specialize (Hm w).
  destruct (m w) as [[a|c e] w']; cbn in *; [|exact Hm].
  rewrite Hk. exact Hm.
Qed.

Lemma calm_bind {A B} (m : M F A) (k : A -> M F B) :
  calm obs m -> (forall a, calm obs (k a)) -> calm obs (bind m k).
Proof.
  intros Hm Hk w. unfold bind. destruct (Hm w) as [[a Ha] Ho].
  destruct (m w) as [[a'|c e] w']; cbn in *; [|discriminate].
  destruct (Hk a' w') as [Hr Ho']. split; [exact Hr | congruence].
Qed.

Lemma calm_try_except {A} (m : M F A) (h : ExcClass -> string -> M F A) :
  keeps obs m -> (forall c e, calm obs (h c e)) -> calm obs (try_except m h).
Proof.
  intros Hm Hh w. unfold try_except. specialize (Hm w).
  destruct (m w) as [[a|c e] w']; cbn in *.
  - split; [eexists; reflexivity | exact Hm].
  - destruct (Hh c e w') as [Hr Ho]. split; [exact Hr | congruence].
Qed.

Lemma calm_capture {A} (m : M F A) : keeps obs m -> calm obs (capture m).
Proof.
  intros Hm w. unfold capture. specialize (Hm w).
  destruct (m w) as [r w']. split; [eexists; reflexivity | exact Hm].
Qed.

Lemma keeps_or_raise {A} c msg (o : option A) : keeps obs (or_raise c msg o).
Proof. intros w. destruct o; reflexivity. Qed.

Lemma keeps_of_result {A} (r : Result A) : keeps obs (of_result r).
Proof. intros w. destruct r; reflexivity. Qed.

Lemma keeps_fault n : keeps obs (fault env n).
Proof. intros w. unfold fault. destruct (stage_fault env n); reflexivity. Qed.

Lemma calm_fault n : stage_fault env n = None -> calm obs (fault env n).
Proof. intros H w. unfold fault. rewrite H. apply calm_ret. Qed.

Lemma calm_utcnow : calm obs (utcnow env).
Proof. intros w. split; [eexists|]; reflexivity. Qed.

Lemma calm_get_state : calm obs (get_state (F:=F)).
Proof. intros w. split; [eexists|]; reflexivity. Qed.

Lemma calm_emit e : silent obs e -> calm obs (emit (F:=F) e).
Proof. intros H w. split; [eexists; reflexivity|]. apply H. Qed.

Lemma calm_modify_state u : inert obs u -> calm obs (modify_state u).
Proof. intros H w. split; [eexists; reflexivity|]. apply H. Qed.

Lemma keeps_db op : silent obs (EvLedger op) -> keeps obs (db env op).
Proof.
  intros H w. unfold db. destruct (ledger env (w_trace w) op); apply H.
Qed.

Lemma calm_db_quiet op : silent obs (EvLedger op) -> calm obs (db_quiet env op).
Proof.
  intros H. apply calm_try_except; [apply keeps_db, H|].
  intros. apply calm_ret.
Qed.

Lemma calm_for_each {A} (f : A -> M F unit) (l : list A) :
  (forall a, calm obs (f a)) -> calm obs (for_each f l).
Proof.
  intros Hf. induction l as [|a l IH]; cbn [for_each].
  - apply calm_ret.
  - apply calm_bind; [apply Hf | intros; exact IH].
Qed.

(** *** The stages *)

Hypothesis silent_ledger : forall op, silent obs (EvLedger op).
Hypothesis silent_scrape : forall sub, silent obs (EvScrape sub).
Hypothesis silent_sleep : forall n, silent obs (EvSleep n).

Lemma calm_scrape_all_subreddits wid : calm obs (scrape_all_subreddits env wid).
Proof.
  unfold scrape_all_subreddits. generalize (@nil (RawPost F)).
  induction (app_subreddits env) as [|sub rest IH]; intros acc.
  - apply calm_ret.
  - apply calm_bind; [|intros; apply IH].
    apply calm_try_except; [|intros; apply calm_ret].
    apply keeps_bind; [apply calm_keeps, calm_emit, silent_scrape|].
    intros _. apply keeps_bind; [apply keeps_of_result|].
    intros posts. apply calm_keeps.
    apply calm_bind.
    { apply calm_for_each. intros p. apply calm_db_quiet, silent_ledger. }
    intros _. apply calm_bind; [apply calm_emit, silent_sleep|].
    intros _. apply calm_ret.
Qed.

Lemma calm_calculate_virality_score post :
  keeps obs (calculate_virality_score env post).
Proof.
  unfold calculate_virality_score, _apply_scoring_factors, age_minutes,
    py_fdiv, py_int_truediv, py_float.
  repeat first
    [ apply keeps_bind; [|intros ?]
    | apply keeps_or_raise
    | apply calm_keeps, calm_utcnow
    | apply calm_keeps, calm_ret
    | match goal with |- keeps obs (if ?b then _ else _) => destruct b end ].
Qed.

Lemma calm_score_posts posts : calm obs (score_posts env posts).
Proof.
  unfold score_posts. apply calm_bind; [|intros; apply calm_ret].
  generalize (@nil (ScoredPost F)).
  induction posts as [|post rest IH]; intros acc; cbn [score_posts_loop].
  - apply calm_ret.
  - apply calm_bind; [|intros; apply IH].
    apply calm_try_except; [|intros; apply calm_ret].
    apply keeps_bind; [|intros; apply calm_keeps, calm_ret].
    unfold score_post. apply keeps_bind; [apply calm_calculate_virality_score|].
    intros s. apply calm_keeps, calm_bind; [apply calm_utcnow|].
    intros. apply calm_ret.
Qed.


Hypothesis silent_generate : forall rid, silent obs (EvGenerate rid).
Hypothesis silent_create_tweet : forall text, silent obs (EvCreateTweet text).

Lemma calm_generate_tweets_batch posts : calm obs (generate_tweets_batch env posts).
Proof.
  unfold generate_tweets_batch. apply calm_bind.
  - generalize 0%nat.
    induction posts as [|p rest IH]; intros i; cbn [gather_tweets].
    + apply calm_ret.
    + apply calm_bind; [|intros; apply calm_bind;
                          [apply IH | intros; apply calm_ret]].
      apply calm_capture, keeps_bind; [|intros; apply calm_keeps, calm_ret].
      apply calm_keeps. unfold generate_tweet.
      apply calm_try_except; [|intros; apply calm_ret].
      apply keeps_bind; [apply calm_keeps, calm_emit, silent_generate|].
      intros _. apply keeps_bind; [apply keeps_of_result|].
      intros [t|]; (apply keeps_bind; [|intros; apply calm_keeps, calm_ret]).
      * apply calm_keeps, calm_ret.
      * apply keeps_raise.
  - intros rs. generalize (@nil (GeneratedPost F)).
    induction rs as [|[[p t]|c e] rest IH]; intros acc;
      cbn [collect_generated].
    + apply calm_ret.
    + destruct (truthy t); [|apply IH].
      apply calm_bind; [apply calm_utcnow | intros; apply IH].
    + apply IH.
Qed.

Lemma calm_post_tweet i g : calm obs (post_tweet env i g).
Proof.
  unfold post_tweet.
  destruct (negb (twitter_client env)); [apply calm_ret|].
  destruct (280 <? String.length (tweet_text g))%nat; [apply calm_ret|].
  apply calm_bind; [apply calm_emit, silent_create_tweet|]. intros _.
  destruct (create_tweet env i (tweet_text g)) as [[tid|]|c e].
  - apply calm_bind; [apply calm_utcnow|]. intros now.
    apply calm_bind; [apply calm_db_quiet, silent_ledger|].
    intros; apply calm_ret.
  - apply calm_ret.
  - destruct c;
      (apply calm_bind; [apply calm_db_quiet, silent_ledger|];
       intros; apply calm_ret).
Qed.

Lemma calm_post_tweets_batch gs : calm obs (post_tweets_batch env gs).
Proof.
  unfold post_tweets_batch.
  generalize (length gs) 0%nat (@nil (PostResult F)).
  induction gs as [|g rest IH]; intros n i acc; cbn [post_tweets_loop].
  - apply calm_ret.
  - apply calm_bind; [|intros; apply IH].
    apply calm_try_except; [|intros; apply calm_ret].
    apply calm_keeps, calm_bind; [apply calm_post_tweet|]. intros r.
    apply calm_bind; [|intros; apply calm_ret].
    destruct (i <? n - 1)%nat; [apply calm_emit, silent_sleep | apply calm_ret].
Qed.

(** *** The nodes, when no exception escapes the stage body *)

Hypothesis inert_update_step : forall x, inert obs (update_step x).
Hypothesis inert_add_raw_posts : forall l, inert obs (add_raw_posts l).
Hypothesis inert_add_scored_posts : forall l, inert obs (add_scored_posts l).
Hypothesis inert_add_generated_posts :
  forall l, inert obs (add_generated_posts l).
Hypothesis inert_add_results : forall l, inert obs (add_results l).

Lemma calm_try_calm {A} (m : M F A) h : calm obs m -> calm obs (try_except m h).
Proof.
  intros Hm w. unfold try_except. destruct (Hm w) as [[a Ha] Ho].
  destruct (m w) as [[a'|c e] w']; cbn in *; [|discriminate].
  split; [eexists; reflexivity | exact Ho].
Qed.

Lemma calm_run_node n : stage_fault env n = None -> calm obs (run_node env n).
Proof.
  intros Hn. destruct n; cbn [run_node].
  - unfold scrape_sources_node.
    apply calm_bind; [apply calm_modify_state, inert_update_step|]. intros _.
    apply calm_try_calm.
    apply calm_bind; [apply calm_fault, Hn|]. intros _.
    apply calm_bind; [apply calm_get_state|]. intros s.
    apply calm_bind; [apply calm_scrape_all_subreddits|]. intros raw.
    apply calm_modify_state, inert_add_raw_posts.
  - unfold score_virality_node.
    apply calm_bind; [apply calm_modify_state, inert_update_step|]. intros _.
    apply calm_try_calm.
    apply calm_bind; [apply calm_fault, Hn|]. intros _.
    apply calm_bind; [apply calm_get_state|]. intros s.
    destruct (raw_posts s); [apply calm_ret|].
    apply calm_bind; [apply calm_score_posts|]. intros scored.
    apply calm_bind.
    { apply calm_for_each. intros sp. apply calm_db_quiet, silent_ledger. }
    intros _. apply calm_modify_state, inert_add_scored_posts.
  - unfold generate_content_node.
    apply calm_bind; [apply calm_modify_state, inert_update_step|]. intros _.
    apply calm_try_calm.
    apply calm_bind; [apply calm_fault, Hn|]. intros _.
    apply calm_bind; [apply calm_get_state|]. intros s.
    destruct (get_posts_above_threshold s); [apply calm_ret|].
    apply calm_bind; [apply calm_generate_tweets_batch|]. intros generated.
    apply calm_bind.
    { apply calm_for_each. intros sp. apply calm_db_quiet, silent_ledger. }
    intros _. apply calm_modify_state, inert_add_generated_posts.
  - unfold post_content_node.
    apply calm_bind; [apply calm_modify_state, inert_update_step|]. intros _.
    apply calm_try_calm.
    apply calm_bind; [apply calm_fault, Hn|]. intros _.
    apply calm_bind; [apply calm_get_state|]. intros s.
    destruct (generated_posts s); [apply calm_ret|].
    apply calm_bind; [apply calm_post_tweets_batch|]. intros rs.
    apply calm_modify_state, inert_add_results.
Qed.

End Frames.

(* ================================================================== *)
(** * The Generate stage *)

Section GenerateStage.
Context {F : Type} {PF : PyFloat F}.
Variable env : Env F.

Lemma generate_tweet_run i post w :
  exists w', generate_tweet env i post w = (Ok (returned_text env i post), w').
Proof.
  unfold generate_tweet, returned_text.
  destruct (completions_create env i post) as [[content|]|c e] eqn:E.
  - eexists. erewrite try_ok; [reflexivity|].
    erewrite bind_ok; [|reflexivity].
    erewrite bind_ok; [|reflexivity].
    erewrite bind_ok; [|reflexivity]. reflexivity.
  - eexists. erewrite try_raise; [reflexivity|].
    erewrite bind_ok; [|reflexivity].
    erewrite bind_ok; [|reflexivity]. reflexivity.
  - eexists. erewrite try_raise; [reflexivity|].
    erewrite bind_ok; [|reflexivity]. reflexivity.
Qed.

Lemma gather_tweets_run posts : forall i w,
  exists w', gather_tweets env i posts w = (Ok (gathered env i posts), w').
Proof.
  induction posts as [|p rest IH]; intros i w; cbn [gather_tweets gathered].
  - eexists. reflexivity.
  - destruct (generate_tweet_run i p w) as [w1 H1].
    destruct (IH (S i) w1) as [w2 H2].
    exists w2. erewrite bind_ok; cycle 1.
    { unfold capture. erewrite bind_ok; [|exact H1]. reflexivity. }
    erewrite bind_ok; [|exact H2]. reflexivity.
Qed.

Lemma collect_generated_run posts : forall i acc w,
  exists out w',
    collect_generated env (gathered env i posts) acc w = (Ok (acc ++ out), w')
    /\ map pair_of out = kept env i posts.
Proof.
  induction posts as [|p rest IH]; intros i acc w;
    cbn [gathered collect_generated kept].
  - exists [], w. rewrite app_nil_r. split; reflexivity.
  - unfold generated_text.
    destruct (returned_text env i p) as [t|] eqn:Er;
      [destruct (truthy (Some t)) eqn:Ht|].
    + set (g := {| scored_post := p; tweet_text := t;
                   generated_at := clock env (w_reads w) |}).
      destruct (IH (S i) (acc ++ [g])
                  {| w_state := w_state w; w_reads := S (w_reads w);
                     w_trace := w_trace w |}) as (out & w' & Hrun & Hmap).
      exists (g :: out), w'. split.
      * erewrite bind_ok; [|reflexivity].
        etransitivity; [exact Hrun|]. rewrite <- app_assoc. reflexivity.
      * cbn. rewrite Hmap. reflexivity.
    + destruct (IH (S i) acc w) as (out & w' & Hrun & Hmap).
      exists out, w'. split; assumption.
    + destruct (IH (S i) acc w) as (out & w' & Hrun & Hmap).
      exists out, w'. split; assumption.
Qed.

Lemma kept_complete posts : forall i k B t,
  posts !! k = Some B -> generated_text env (i + k) B = Some t ->
  (B, t) ∈ kept env i posts.
Proof.
  induction posts as [|p rest IH]; intros i k B t Hl Hg; [discriminate|].
  cbn [kept]. destruct k as [|k]; cbn in Hl.
  - injection Hl as ->. rewrite Nat.add_0_r in Hg. rewrite Hg. left.
  - assert (Hin : (B, t) ∈ kept env (S i) rest).
    { apply (IH (S i) k); [exact Hl|].
      replace (S i + k)%nat with (i + S k)%nat by lia. exact Hg. }
    destruct (generated_text env i p); [right|]; exact Hin.
Qed.

Lemma kept_sound posts : forall i B t,
  (B, t) ∈ kept env i posts ->
  exists k, posts !! k = Some B /\ generated_text env (i + k) B = Some t.
Proof.
  induction posts as [|p rest IH]; intros i B t Hin; cbn [kept] in Hin.
  - inversion Hin.
  - destruct (generated_text env i p) as [t'|] eqn:Eg.
    + apply elem_of_cons in Hin as [Heq | Hin].
      * injection Heq as -> ->. exists 0%nat.
        rewrite Nat.add_0_r. split; [reflexivity | exact Eg].
      * destruct (IH _ _ _ Hin) as (k & Hl & Hg). exists (S k).
        replace (i + S k)%nat with (S i + k)%nat by lia. split; assumption.
    + destruct (IH _ _ _ Hin) as (k & Hl & Hg). exists (S k).
      replace (i + S k)%nat with (S i + k)%nat by lia. split; assumption.
Qed.

Lemma kept_sublist posts : forall i, sublist (map fst (kept env i posts)) posts.
Proof.
  induction posts as [|p rest IH]; intros i; cbn [kept]; [constructor|].
  destruct (generated_text env i p); cbn.
  - apply sublist_skip, IH.
  - apply sublist_cons, IH.
Qed.

Lemma kept_isolated posts out :
  map pair_of out = kept env 0 posts -> generation_isolated env posts out.
Proof.
  intros Hmap. split; [|split].
  - intros i B t Hl Hg.
    pose proof (kept_complete posts 0 i B t Hl Hg) as Hin.
    rewrite <- Hmap in Hin. apply list_elem_of_fmap in Hin as (g & Hg' & Hin).
    injection Hg' as -> ->. exists g. auto.
  - intros g Hin.
    assert (Hp : pair_of g ∈ kept env 0 posts).
    { rewrite <- Hmap. apply list_elem_of_fmap. exists g. auto. }
    apply kept_sound in Hp. exact Hp.
  - replace (map scored_post out) with (map fst (map pair_of out)).
    + rewrite Hmap. apply kept_sublist.
    + rewrite map_map. reflexivity.
Qed.

Lemma generate_tweets_batch_run posts w :
  exists out w',
    generate_tweets_batch env posts w = (Ok out, w')
    /\ generation_isolated env posts out.
Proof.
  destruct (gather_tweets_run posts 0 w) as [w1 H1].
  destruct (collect_generated_run posts 0 [] w1) as (out & w2 & H2 & Hmap).
  exists out, w2. split.
  - unfold generate_tweets_batch. erewrite bind_ok; [|exact H1]. exact H2.
  - apply kept_isolated, Hmap.
Qed.

End GenerateStage.

(* ================================================================== *)
(** * The Publish stage *)

Section PublishStage.
Context {F : Type} {PF : PyFloat F}.
Variable env : Env F.

Lemma db_quiet_run op w :
  exists w', db_quiet env op w = (Ok tt, w')
             /\ w_state w' = w_state w
             /\ w_trace w' = w_trace w ++ [EvLedger op].
Proof.
  unfold db_quiet, try_except, db.
  destruct (ledger env (w_trace w) op); eexists; repeat split.
Qed.

Lemma post_tweet_run i g w :
  exists r w' evs,
    post_tweet env i g w = (Ok r, w')
    /\ result_for env i g r
    /\ w_state w' = w_state w
    /\ w_trace w' = w_trace w ++ evs
    /\ tweets_in evs
       = if attempted env g then [EvCreateTweet (tweet_text g)] else [].
Proof.
  unfold post_tweet, result_for, published, attempted.
  destruct (twitter_client env); cbn [negb andb].
  2:{ exists (mark_failed (new_PostResult g) "Twitter client not initialized"),
        w, []. rewrite app_nil_r. repeat split; eauto; discriminate. }
  destruct (280 <? String.length (tweet_text g))%nat; cbn [negb andb].
  { eexists _, w, []. rewrite app_nil_r.
    split; [reflexivity|]. repeat split; eauto; discriminate. }
  set (w1 := {| w_state := w_state w; w_reads := w_reads w;
                w_trace := w_trace w ++ [EvCreateTweet (tweet_text g)] |}).
  destruct (create_tweet env i (tweet_text g)) as [[tid|]|c e] eqn:E.
  - destruct (db_quiet_run
                (update_post_posted (reddit_id (raw_post (scored_post g))))
                {| w_state := w_state w1; w_reads := S (w_reads w1);
                   w_trace := w_trace w1 |}) as (w2 & H2 & Hs & Ht).
    eexists _, w2,
      [EvCreateTweet (tweet_text g);
       EvLedger (update_post_posted
                   (reddit_id (raw_post (scored_post g))))].
    split.
    { erewrite bind_ok; [|reflexivity]. fold w1.
      erewrite bind_ok; [|reflexivity].
      erewrite bind_ok; [|exact H2]. reflexivity. }
    split; [repeat split; eauto; discriminate|].
    split; [exact Hs|]. split; [|reflexivity].
    rewrite Ht. cbn. rewrite <- app_assoc. reflexivity.
  - eexists _, w1, [EvCreateTweet (tweet_text g)]. split.
    { erewrite bind_ok; [|reflexivity]. reflexivity. }
    split; [repeat split; eauto; discriminate|].
    repeat split.
  - destruct (db_quiet_run
                (update_post_failed (reddit_id (raw_post (scored_post g))))
                w1) as (w2 & H2 & Hs & Ht).
    destruct c.
    all: eexists _, w2,
           [EvCreateTweet (tweet_text g);
            EvLedger (update_post_failed
                        (reddit_id (raw_post (scored_post g))))]; split;
      [ erewrite bind_ok; [|reflexivity]; fold w1;
        erewrite bind_ok; [|exact H2]; reflexivity |];
      (split; [repeat split; eauto; discriminate|]);
      (split; [exact Hs|]); (split; [|reflexivity]);
      rewrite Ht; cbn; rewrite <- app_assoc; reflexivity.
Qed.

Lemma post_tweets_loop_run n gs : forall i acc w,
  exists rs w' evs,
    post_tweets_loop env n i gs acc w = (Ok (acc ++ rs), w')
    /\ results_for env i gs rs
    /\ w_state w' = w_state w
    /\ w_trace w' = w_trace w ++ evs
    /\ tweets_in evs
       = map (fun g => EvCreateTweet (tweet_text g))
             (List.filter (attempted env) gs).
Proof.
  induction gs as [|g rest IH]; intros i acc w; cbn [post_tweets_loop].
  - exists [], w, []. rewrite !app_nil_r. repeat split.
  - destruct (post_tweet_run i g w) as (r & w1 & evs1 & H1 & Hr & Hs1 & Ht1 & Hf1).
    set (w2 := if (i <? n - 1)%nat
               then {| w_state := w_state w1; w_reads := w_reads w1;
                       w_trace := w_trace w1 ++ [EvSleep 3] |}
               else w1).
    destruct (IH (S i) (acc ++ [r]) w2)
      as (rs & w3 & evs3 & H3 & Hrs & Hs3 & Ht3 & Hf3).
    exists (r :: rs), w3,
      (evs1 ++ (if (i <? n - 1)%nat then [EvSleep 3] else []) ++ evs3).
    split; [|split; [|split; [|split]]].
    + erewrite bind_ok; cycle 1.
      { apply try_ok. erewrite bind_ok; [|exact H1].
        instantiate (1 := w2). unfold w2.
        destruct (i <? n - 1)%nat; reflexivity. }
      rewrite H3, <- app_assoc. reflexivity.
    + split; assumption.
    + rewrite Hs3. unfold w2. destruct (i <? n - 1)%nat; exact Hs1.
    + rewrite Ht3. unfold w2.
      destruct (i <? n - 1)%nat; cbn [w_trace]; rewrite Ht1, <- ?app_assoc;
        reflexivity.
    + unfold tweets_in in *. rewrite !List.filter_app, Hf1, Hf3.
      cbn [List.filter].
      destruct (i <? n - 1)%nat; destruct (attempted env g); reflexivity.
Qed.

Lemma results_for_isolated gs : forall i rs,
  results_for env i gs rs ->
  length rs = length gs
  /\ forall k g,
       gs !! k = Some g ->
       exists r, rs !! k = Some r /\ result_for env (i + k) g r.
Proof.
  induction gs as [|g rest IH]; intros i [|r rs] H; cbn in H; try tauto.
  - split; [reflexivity|]. intros k g' Hk. discriminate Hk.
  - destruct H as [Hr Hrest]. destruct (IH _ _ Hrest) as [Hlen Hall].
    split; [cbn; congruence|].
    intros [|k] g' Hk; cbn in Hk.
    + injection Hk as <-. exists r. rewrite Nat.add_0_r. split; [reflexivity|exact Hr].
    + destruct (Hall k g' Hk) as (r' & Hl & Hr').
      exists r'. replace (i + S k)%nat with (S i + k)%nat by lia.
      split; assumption.
Qed.

Lemma post_tweets_batch_run gs w :
  exists rs w' evs,
    post_tweets_batch env gs w = (Ok rs, w')
    /\ publish_isolated env gs rs
    /\ w_state w' = w_state w
    /\ w_trace w' = w_trace w ++ evs
    /\ tweets_in evs
       = map (fun g => EvCreateTweet (tweet_text g))
             (List.filter (attempted env) gs).
Proof.
  destruct (post_tweets_loop_run (length gs) gs 0 [] w)
    as (rs & w' & evs & Hrun & Hrs & Hs & Ht & Hf).
  exists rs, w', evs. split; [exact Hrun|]. split; [|auto].
  destruct (results_for_isolated gs 0 rs Hrs) as [Hlen Hall].
  split; [exact Hlen|]. intros i g Hi.
  destruct (Hall i g Hi) as (r & Hl & Hg & Hp & Hf').
  exists r. auto.
Qed.

End PublishStage.

(* ================================================================== *)
(** * The workflow *)

Section RunWorkflow.
Context {F : Type} {PF : PyFloat F}.
Variable env : Env F.

Lemma count_events_app p (t u : list Event) :
  count_events p (t ++ u) = (count_events p t + count_events p u)%nat.
Proof. unfold count_events. rewrite List.filter_app, length_app. reflexivity. Qed.

Lemma silent_status e :
  is_assign_completed_at e = false -> silent (F:=F) run_status e.
Proof.
  intros H s t. unfold run_status. rewrite count_events_app.
  unfold count_events at 2. cbn. rewrite H. cbn.
  rewrite Nat.add_0_r. reflexivity.
Qed.

Lemma calm_status_run_node n :
  stage_fault env n = None -> calm run_status (run_node env n).
Proof.
  apply calm_run_node; intros; try (apply silent_status; reflexivity);
    intros s t; reflexivity.
Qed.

Lemma observe_status (w w' : World F) :
  observe run_status w' = observe run_status w <->
  error_message (w_state w') = error_message (w_state w)
  /\ assignments w' = assignments w.
Proof.
  unfold observe, run_status, assignments. split.
  - intros H. injection H as H1 H2. auto.
  - intros [H1 H2]. rewrite H1, H2. reflexivity.
Qed.

(** **** One node *)

Lemma run_node_contract n w :
  exists w',
    run_node env n w = (Ok tt, w')
    /\ (stage_fault env n = None ->
        error_message (w_state w') = error_message (w_state w)
        /\ assignments w' = assignments w)
    /\ (stage_fault env n <> None -> failed_once w w').
Proof.
  destruct (stage_fault env n) as [msg|] eqn:Hn.
  - destruct n; cbn [run_node];
      unfold scrape_sources_node, score_virality_node,
        generate_content_node, post_content_node;
      (eexists; split;
       [ erewrite bind_ok; [|reflexivity];
         erewrite try_raise;
           [|erewrite bind_raise; [reflexivity|]; unfold fault; rewrite Hn;
             reflexivity];
         reflexivity
       | split; [discriminate|] ]);
      (intros _; split; [reflexivity|];
       unfold assignments; cbn [w_trace]; rewrite count_events_app;
       reflexivity).
  - destruct (calm_status_run_node n Hn w) as [[[] Hr] Ho].
    destruct (run_node env n w) as [r w'] eqn:E. cbn in Hr, Ho. subst r.
    exists w'. split; [reflexivity|]. split; [|congruence].
    intros _. apply observe_status, Ho.
Qed.

Lemma truthy_ends n (s : TrendState F) :
  truthy (error_message s) = true -> next_node n s = None.
Proof.
  intros H. destruct n; cbn [next_node]; try reflexivity;
    unfold should_continue_to_scoring, should_continue_to_generation,
      should_continue_to_posting; rewrite H; reflexivity.
Qed.

Lemma next_node_closer n (s : TrendState F) n' :
  next_node n s = Some n' -> remaining n = S (remaining n').
Proof.
  destruct n; cbn [next_node];
    unfold should_continue_to_scoring, should_continue_to_generation,
      should_continue_to_posting;
    destruct (truthy (error_message s)); try discriminate.
  - destruct (raw_posts s); [discriminate|]. intros [= <-]. reflexivity.
  - destruct (get_posts_above_threshold s); [discriminate|].
    intros [= <-]. reflexivity.
  - destruct (generated_posts s); [discriminate|]. intros [= <-]. reflexivity.
Qed.

(** **** The graph: it ends, having fired at most one stage handler *)

Lemma ainvoke_contract limit : forall n w,
  (remaining n <= limit)%nat ->
  error_message (w_state w) = None ->
  exists w',
    ainvoke env limit n w = (Ok tt, w')
    /\ ((error_message (w_state w') = None /\ assignments w' = assignments w)
        \/ failed_once w w')
    /\ (no_stage_fault env ->
        error_message (w_state w') = None /\ assignments w' = assignments w).
Proof.
  induction limit as [|limit IH]; intros n w Hlim Herr.
  - destruct n; cbn in Hlim; lia.
  - destruct (run_node_contract n w) as (w1 & Hrun & Hok & Hbad).
    cbn [ainvoke]. erewrite bind_ok; [|exact Hrun].
    erewrite bind_ok; [|reflexivity].
    destruct (stage_fault env n) as [msg|] eqn:Hn.
    + destruct Hbad as [Ht Ha]; [discriminate|].
      rewrite (truthy_ends n _ Ht). exists w1. split; [reflexivity|].
      split; [right; split; assumption|].
      intros Hno. rewrite Hno in Hn. discriminate.
    + destruct (Hok eq_refl) as [He Ha]. rewrite Herr in He.
      destruct (next_node n (w_state w1)) as [n'|] eqn:Hnext.
      * apply next_node_closer in Hnext.
        destruct (IH n' w1) as (w2 & Hrun2 & Hcase & Hnone); [lia|exact He|].
        exists w2. split; [exact Hrun2|]. split.
        -- destruct Hcase as [[He2 Ha2]|[Ht2 Ha2]]; [left|right]; split;
             try assumption; congruence.
        -- intros Hno. destruct (Hnone Hno). split; congruence.
      * exists w1. split; [reflexivity|]. split; [left|]; auto.
Qed.


(** **** The terminal marking *)

Lemma db_cases op w :
  (exists msg, db env op w = (Raise Exception msg, logged op w))
  \/ (ledger env (w_trace w) op = None /\ db env op w = (Ok tt, logged op w)).
Proof.
  unfold db, logged. destruct (ledger env (w_trace w) op); eauto.
Qed.

Lemma assignments_logged op (w : World F) : assignments (logged op w) = assignments w.
Proof.
  unfold assignments, logged. cbn [w_trace]. rewrite count_events_app.
  cbn. lia.
Qed.

Lemma state_fail_workflow_marks msg w :
  exists w', state_fail_workflow env msg w = (Ok tt, w') /\ marked w w'
             /\ current_step (w_state w') = "failed".
Proof.
  eexists. split; [reflexivity|]. split; [|reflexivity].
  split; [eexists; reflexivity|]. split; [apply last_snoc|].
  unfold assignments. cbn [w_trace]. rewrite count_events_app. reflexivity.
Qed.

Lemma state_complete_workflow_marks w :
  exists w', state_complete_workflow env w = (Ok tt, w') /\ marked w w'
             /\ current_step (w_state w') = "completed"
             /\ error_message (w_state w') = error_message (w_state w).
Proof.
  eexists. split; [reflexivity|]. split; [|split; reflexivity].
  split; [eexists; reflexivity|]. split; [apply last_snoc|].
  unfold assignments. cbn [w_trace]. rewrite count_events_app. reflexivity.
Qed.

Lemma marked_shift (w0 w w' : World F) :
  assignments w = assignments w0 -> marked w w' -> marked w0 w'.
Proof. intros H (H1 & H2 & H3). repeat split; auto. congruence. Qed.

(** The [except] branch of [run_workflow]. *)
Lemma except_branch_marks wid e w :
  exists w',
    (db_quiet env (db_fail_workflow wid ("Workflow " +:+ wid +:+ " failed: " +:+ e)) ;;
     state_fail_workflow env ("Workflow " +:+ wid +:+ " failed: " +:+ e)) w
    = (Ok tt, w')
    /\ marked w w' /\ current_step (w_state w') = "failed".
Proof.
  set (msg := "Workflow " +:+ wid +:+ " failed: " +:+ e).
  destruct (db_quiet_run env (db_fail_workflow wid msg) w)
    as (w1 & H1 & Hs & Ht).
  destruct (state_fail_workflow_marks msg w1) as (w2 & H2 & Hm & Hstep).
  exists w2. split; [|split; [|exact Hstep]].
  - erewrite bind_ok; [|exact H1]. exact H2.
  - eapply marked_shift; [|exact Hm].
    unfold assignments. rewrite Ht, count_events_app. cbn. lia.
Qed.

Lemma started_no_error a b now : error_message (started env a b now) = None.
Proof. destruct a, b; reflexivity. Qed.

Lemma run_workflow_unfold a b w :
  run_workflow env a b w =
  try_except (run_body env)
    (fun _ e =>
       let error_msg :=
         "Workflow " +:+ fresh_workflow_id env +:+ " failed: " +:+ e in
       db_quiet env (db_fail_workflow (fresh_workflow_id env) error_msg) ;;
       state_fail_workflow env error_msg)
    {| w_state := started env a b (clock env (S (w_reads w)));
       w_reads := S (S (w_reads w)); w_trace := w_trace w |}.
Proof. unfold run_workflow, started. destruct a, b; reflexivity. Qed.

(** What the body does from a world [w] without error message: either it
    raises, having assigned [completed_at] at most once (in a stage
    handler), or it returns with the run marked. *)
Lemma run_body_contract w :
  error_message (w_state w) = None ->
  (exists c e w',
      run_body env w = (Raise c e, w')
      /\ (assignments w' = assignments w \/ failed_once w w')
      /\ (no_stage_fault env -> assignments w' = assignments w)
      /\ ~ (no_stage_fault env /\ run_ledger_ok env))
  \/ (exists w1 w',
        run_body env w = (Ok tt, w') /\ marked w1 w'
        /\ (assignments w1 = assignments w \/ failed_once w w1)
        /\ (no_stage_fault env ->
            assignments w1 = assignments w
            /\ current_step (w_state w') = "completed"
            /\ error_message (w_state w') = None)).
Proof.
  intros Herr. unfold run_body.
  set (wid := fresh_workflow_id env).
  destruct (db_cases (create_workflow_record wid) w)
    as [[msg H1]|[L1 H1]].
  { left. exists Exception, msg, (logged (create_workflow_record wid) w).
    split; [erewrite bind_raise; [reflexivity | exact H1]|].
    rewrite assignments_logged. split; [auto|]. split; [auto|].
    intros [_ Hl]. destruct (Hl (w_trace w) wid) as (E & _).
    unfold db in H1. rewrite E in H1. discriminate H1. }
  erewrite bind_ok; [|exact H1].
  set (w1 := logged (create_workflow_record wid) w).
  destruct (ainvoke_contract recursion_limit scrape_sources w1)
    as (w2 & H2 & Hcase & Hnone); [cbn; unfold recursion_limit; lia | exact Herr |].
  erewrite bind_ok; [|exact H2].
  assert (Hcase' : (error_message (w_state w2) = None
                    /\ assignments w2 = assignments w)
                   \/ failed_once w w2).
  { unfold failed_once in *. unfold w1 in Hcase.
    rewrite assignments_logged in Hcase. exact Hcase. }
  assert (Hnone' : no_stage_fault env ->
                   error_message (w_state w2) = None
                   /\ assignments w2 = assignments w).
  { intros Hno. destruct (Hnone Hno) as [E A]. split; [exact E|].
    unfold w1 in A. rewrite assignments_logged in A. exact A. }
  clear Hcase Hnone.
  destruct (db_cases (update_workflow_stats wid) w2)
    as [[msg H3]|[L3 H3]].
  { left. exists Exception, msg, (logged (update_workflow_stats wid) w2).
    split; [erewrite bind_raise; [reflexivity | exact H3]|].
    split; [|split].
    - unfold failed_once in *. rewrite assignments_logged.
      destruct Hcase' as [[_ A]|[T A]]; [left | right]; auto.
    - intros Hno. rewrite assignments_logged. apply Hnone', Hno.
    - intros [_ Hl]. destruct (Hl (w_trace w2) wid) as (_ & E & _).
      unfold db in H3. rewrite E in H3. discriminate H3. }
  erewrite bind_ok; [|exact H3].
  set (w3 := logged (update_workflow_stats wid) w2).
  erewrite bind_ok; [|reflexivity].
  change (w_state w3) with (w_state w2).
  destruct (truthy (error_message (w_state w2))) eqn:Htruthy.
  - (* a stage has failed *)
    assert (Hfailed : failed_once w w2).
    { destruct Hcase' as [[E _]|H]; [|exact H].
      rewrite E in Htruthy. discriminate Htruthy. }
    assert (Hfault : ~ no_stage_fault env).
    { intros Hno. destruct (Hnone' Hno) as [E _].
      rewrite E in Htruthy. discriminate Htruthy. }
    set (msg := default "" (error_message (w_state w2))).
    destruct (db_cases (db_fail_workflow wid msg) w3)
      as [[m H4]|[L4 H4]].
    + left. exists Exception, m, (logged (db_fail_workflow wid msg) w3).
      split; [erewrite bind_raise; [reflexivity | exact H4]|].
      split; [|split].
      * right. unfold failed_once in *. unfold w3.
        rewrite !assignments_logged. cbn [logged w_state]. exact Hfailed.
      * intros Hno. contradiction.
      * intros [Hno _]. contradiction.
    + right. erewrite bind_ok; [|exact H4].
      destruct (state_fail_workflow_marks msg
                  (logged (db_fail_workflow wid msg) w3))
        as (w5 & H5 & Hm & _).
      exists (logged (db_fail_workflow wid msg) w3), w5.
      split; [exact H5|]. split; [exact Hm|]. split.
      * right. unfold failed_once in *. unfold w3.
        rewrite !assignments_logged. cbn [logged w_state]. exact Hfailed.
      * intros Hno. contradiction.
  - (* no stage has failed *)
    assert (Hsame : assignments w2 = assignments w).
    { destruct Hcase' as [[_ A]|[T _]]; [exact A|].
      rewrite T in Htruthy. discriminate Htruthy. }
    destruct (db_cases (db_complete_workflow wid) w3)
      as [[m H4]|[L4 H4]].
    + left. exists Exception, m, (logged (db_complete_workflow wid) w3).
      split; [erewrite bind_raise; [reflexivity | exact H4]|].
      unfold w3. rewrite !assignments_logged.
      split; [auto|]. split; [auto|].
      intros [_ Hl]. destruct (Hl (w_trace w3) wid) as (_ & _ & E).
      unfold db in H4. rewrite E in H4. discriminate H4.
    + right. erewrite bind_ok; [|exact H4].
      destruct (state_complete_workflow_marks
                  (logged (db_complete_workflow wid) w3))
        as (w5 & H5 & Hm & Hstep & He).
      exists (logged (db_complete_workflow wid) w3), w5.
      split; [exact H5|]. split; [exact Hm|].
      unfold w3. rewrite !assignments_logged. split; [auto|].
      intros Hno. split; [exact Hsame|]. split; [exact Hstep|].
      rewrite He. cbn [logged w_state]. apply Hnone', Hno.
Qed.

End RunWorkflow.

(* ================================================================== *)
(** * The claims about the stages and the run *)

Section StageClaims.
Context {F : Type} {PF : PyFloat F}.
Variable env : Env F.

Lemma calm_state_generate posts :
  calm (fun (s : TrendState F) (_ : list Event) => s)
       (generate_tweets_batch env posts).
Proof. apply calm_generate_tweets_batch; intros; intros s t; reflexivity. Qed.

Lemma calm_state_for_each_db {A} (f : A -> DbOp) (l : list A) :
  calm (fun (s : TrendState F) (_ : list Event) => s)
       (for_each (fun a => db_quiet env (f a)) l).
Proof.
  apply calm_for_each. intros a. apply calm_db_quiet. intros s t. reflexivity.
Qed.

Lemma generate_content_node_run w :
  stage_fault env generate_content = None ->
  exists out w',
    generate_content_node env w = (Ok tt, w')
    /\ generation_isolated env (get_posts_above_threshold (w_state w)) out
    /\ generated_posts (w_state w') = generated_posts (w_state w) ++ out
    /\ error_message (w_state w') = error_message (w_state w).
Proof.
  intros Hn. unfold generate_content_node.
  erewrite bind_ok; [|reflexivity].
  set (w0 := {| w_state := update_step "generating" (w_state w);
                w_reads := w_reads w; w_trace := w_trace w |}).
  change (get_posts_above_threshold (w_state w))
    with (get_posts_above_threshold (w_state w0)).
  destruct (get_posts_above_threshold (w_state w0)) as [|p ps] eqn:Hposts.
  - exists [], w0. split; [|split; [|split]].
    + apply try_ok. erewrite bind_ok; [|unfold fault; rewrite Hn; reflexivity].
      erewrite bind_ok; [|reflexivity]. rewrite Hposts. reflexivity.
    + destruct (generate_tweets_batch_run env [] w0) as (out & w1 & H & Hiso).
      cbn in H. injection H as <- _. exact Hiso.
    + cbn. rewrite app_nil_r. reflexivity.
    + reflexivity.
  - destruct (generate_tweets_batch_run env (p :: ps) w0)
      as (out & w1 & H1 & Hiso).
    destruct (calm_state_generate (p :: ps) w0) as [_ Hs1].
    rewrite H1 in Hs1. cbn in Hs1.
    set (upd := for_each
                  (fun g => db_quiet env
                              (update_post_content
                                 (reddit_id (raw_post (scored_post g)))))
                  out).
    destruct (calm_state_for_each_db
                (fun g : GeneratedPost F =>
                   update_post_content (reddit_id (raw_post (scored_post g))))
                out w1) as [[[] H2] Hs2].
    fold upd in H2, Hs2. destruct (upd w1) as [r2 w2] eqn:E2.
    cbn in H2, Hs2. subst r2.
    eexists out, _. split; [|split; [exact Hiso|]].
    + apply try_ok. erewrite bind_ok; [|unfold fault; rewrite Hn; reflexivity].
      erewrite bind_ok; [|reflexivity]. rewrite Hposts.
      erewrite bind_ok; [|exact H1]. fold upd.
      erewrite bind_ok; [|exact E2]. reflexivity.
    + cbn [w_state]. unfold observe in Hs1, Hs2. rewrite Hs2, Hs1.
      split; reflexivity.
Qed.

Lemma post_content_node_run w :
  stage_fault env post_content = None ->
  exists rs w',
    post_content_node env w = (Ok tt, w')
    /\ publish_isolated env (generated_posts (w_state w)) rs
    /\ results (w_state w') = results (w_state w) ++ rs
    /\ error_message (w_state w') = error_message (w_state w).
Proof.
  intros Hn. unfold post_content_node.
  erewrite bind_ok; [|reflexivity].
  set (w0 := {| w_state := update_step "posting" (w_state w);
                w_reads := w_reads w; w_trace := w_trace w |}).
  change (generated_posts (w_state w)) with (generated_posts (w_state w0)).
  destruct (post_tweets_batch_run env (generated_posts (w_state w0)) w0)
    as (rs & w1 & evs & H1 & Hiso & Hs1 & _).
  destruct (generated_posts (w_state w0)) as [|g gs] eqn:Hgs.
  - exists [], w0. split; [|split; [|split]].
    + apply try_ok. erewrite bind_ok; [|unfold fault; rewrite Hn; reflexivity].
      erewrite bind_ok; [|reflexivity]. rewrite Hgs. reflexivity.
    + cbn in H1. injection H1 as <- _. exact Hiso.
    + cbn. rewrite app_nil_r. reflexivity.
    + reflexivity.
  - eexists rs, _. split; [|split; [exact Hiso|]].
    + apply try_ok. erewrite bind_ok; [|unfold fault; rewrite Hn; reflexivity].
      erewrite bind_ok; [|reflexivity]. rewrite Hgs.
      erewrite bind_ok; [|exact H1]. reflexivity.
    + cbn [w_state]. rewrite Hs1. split; reflexivity.
Qed.

(** The whole run, for any collaborators. *)
Lemma run_workflow_contract a b w :
  exists w',
    run_workflow env a b w = (Ok tt, w')
    /\ is_Some (completed_at (w_state w'))
    /\ last (w_trace w') = Some EvAssignCompletedAt
    /\ (assignments w' = (assignments w + 1)%nat
        \/ assignments w' = (assignments w + 2)%nat)
    /\ (no_stage_fault env -> assignments w' = (assignments w + 1)%nat)
    /\ (no_stage_fault env -> run_ledger_ok env ->
        current_step (w_state w') = "completed"
        /\ error_message (w_state w') = None).
Proof.
  rewrite run_workflow_unfold.
  set (w1 := {| w_state := started env a b (clock env (S (w_reads w)));
                w_reads := S (S (w_reads w)); w_trace := w_trace w |}).
  assert (Ha1 : assignments w1 = assignments w) by reflexivity.
  destruct (run_body_contract env w1 (started_no_error env a b _))
    as [(c & e & w2 & Hrun & Hcase & Hnone & Hnot)
       |(w2 & w3 & Hrun & Hm & Hcase & Hnone)].
  - destruct (except_branch_marks env (fresh_workflow_id env) e w2)
      as (w3 & H3 & (Hc & Hl & Hn) & Hstep).
    exists w3. split; [erewrite try_raise; [exact H3 | exact Hrun]|].
    split; [exact Hc|]. split; [exact Hl|]. split; [|split].
    + destruct Hcase as [A|[_ A]]; [left | right]; lia.
    + intros Hno. rewrite Hn, (Hnone Hno). lia.
    + intros Hno Hok. exfalso. apply Hnot. split; assumption.
  - destruct Hm as (Hc & Hl & Hn).
    exists w3. split; [erewrite try_ok; [reflexivity | exact Hrun]|].
    split; [exact Hc|]. split; [exact Hl|]. split; [|split].
    + destruct Hcase as [A|[_ A]]; [left | right]; lia.
    + intros Hno. destruct (Hnone Hno) as (A & _). lia.
    + intros Hno _. apply Hnone, Hno.
Qed.

End StageClaims.



(** C6.  Per-item failures of the Generate stage are isolated: the batch
    always returns; an item whose generation succeeds is in the output
    with its text whatever happens to the other items, and every output
    comes from an item whose generation succeeded, so an item whose
    generation failed is omitted; the order is kept.  The node adds
    exactly this output to the state and does not fail the run. *)
Theorem generate_failures_are_isolated {F : Type} {PF : PyFloat F}
  (env : Env F) :
  (forall posts w,
      exists out w',
        generate_tweets_batch env posts w = (Ok out, w')
        /\ generation_isolated env posts out)
  /\ (forall posts out A,
        generation_isolated env posts out ->
        (forall i, posts !! i = Some A -> generated_text env i A = None) ->
        forall g, g ∈ out -> scored_post g <> A)
  /\ (stage_fault env generate_content = None ->
      forall w,
        exists out w',
          generate_content_node env w = (Ok tt, w')
          /\ generation_isolated env
               (get_posts_above_threshold (w_state w)) out
          /\ generated_posts (w_state w')
             = generated_posts (w_state w) ++ out
          /\ error_message (w_state w') = error_message (w_state w)).
Proof.
  split; [|split].
  - intros posts w. apply generate_tweets_batch_run.
  - intros posts out A (_ & Hsound & _) Hfail g Hin HA.
    destruct (Hsound g Hin) as (i & Hl & Hg). rewrite HA in Hl, Hg.
    rewrite (Hfail i Hl) in Hg. discriminate Hg.
  - intros Hn w. apply generate_content_node_run, Hn.
Qed.


(* ================================================================== *)
(** * The empty run *)

Section EmptyRun.
Context {F : Type} {PF : PyFloat F}.
Variable env : Env F.
Hypothesis nothing : collects_nothing env.

Lemma silent_idleness e :
  is_generate e = false -> is_create_tweet e = false ->
  silent (F:=F) idleness e.
Proof.
  intros Hg Hc s t. unfold idleness. rewrite !count_events_app.
  unfold count_events at 2 4. cbn. rewrite Hg, Hc. cbn.
  rewrite !Nat.add_0_r. reflexivity.
Qed.

Lemma scrape_all_subreddits_value wid w :
  fst (scrape_all_subreddits env wid w) = Ok [].
Proof.
  destruct nothing as [_ Hsubs]. revert Hsubs.
  unfold scrape_all_subreddits. revert w.
  induction (app_subreddits env) as [|sub rest IH]; intros w Hsubs.
  - reflexivity.
  - assert (Hrest : forall s, s ∈ rest ->
              scrape_subreddit env s = Ok []
              \/ exists c e, scrape_subreddit env s = Raise c e).
    { intros s Hs. apply Hsubs. right. exact Hs. }
    destruct (Hsubs sub) as [E|(c & e & E)]; [left|..].
    + erewrite bind_ok; [apply IH, Hrest|].
      apply try_ok. erewrite bind_ok; [|reflexivity].
      erewrite bind_ok; [|rewrite E; reflexivity].
      erewrite bind_ok; [|reflexivity].
      erewrite bind_ok; [|reflexivity]. reflexivity.
    + erewrite bind_ok; [apply IH, Hrest|].
      erewrite try_raise; [reflexivity|].
      erewrite bind_ok; [|reflexivity].
      erewrite bind_raise; [reflexivity|]. rewrite E. reflexivity.
Qed.

Lemma scrape_sources_node_nothing w :
  exists w',
    scrape_sources_node env w = (Ok tt, w')
    /\ error_message (w_state w') = error_message (w_state w)
    /\ observe idleness w' = observe idleness w.
Proof.
  unfold scrape_sources_node. erewrite bind_ok; [|reflexivity].
  set (w0 := {| w_state := update_step "scraping" (w_state w);
                w_reads := w_reads w; w_trace := w_trace w |}).
  pose proof (scrape_all_subreddits_value (workflow_id (w_state w0)) w0)
    as Hval.
  assert (Hcalm : calm (fun (s : TrendState F) t =>
                          (s, (count_events is_generate t,
                               count_events is_create_tweet t)))
                       (scrape_all_subreddits env (workflow_id (w_state w0)))).
  { apply calm_scrape_all_subreddits; intros; intros s t;
      rewrite !count_events_app; cbn; rewrite !Nat.add_0_r; reflexivity. }
  destruct (Hcalm w0) as [_ Hobs]. unfold observe in Hobs.
  destruct (scrape_all_subreddits env (workflow_id (w_state w0)) w0)
    as [r w1] eqn:E.
  cbn in Hval, Hobs. subst r. injection Hobs as Hs Hg Hc.
  eexists. split; [|split].
  - apply try_ok. destruct nothing as [Hn _].
    erewrite bind_ok; [|unfold fault; rewrite Hn; reflexivity].
    erewrite bind_ok; [|reflexivity].
    erewrite bind_ok; [|exact E]. reflexivity.
  - cbn. rewrite Hs. reflexivity.
  - unfold observe, idleness. cbn [w_state w_trace]. rewrite Hs, Hg, Hc.
    cbn. rewrite app_nil_r, Z.add_0_r. reflexivity.
Qed.

Lemma ainvoke_nothing w :
  error_message (w_state w) = None -> raw_posts (w_state w) = [] ->
  exists w',
    ainvoke env recursion_limit scrape_sources w = (Ok tt, w')
    /\ error_message (w_state w') = None
    /\ observe idleness w' = observe idleness w.
Proof.
  intros Herr Hraw.
  destruct (scrape_sources_node_nothing w) as (w' & Hrun & He & Hobs).
  exists w'. split; [|split; [congruence | exact Hobs]].
  cbn [ainvoke recursion_limit run_node].
  erewrite bind_ok; [|exact Hrun].
  erewrite bind_ok; [|reflexivity].
  cbn [next_node]. unfold should_continue_to_scoring.
  rewrite He, Herr. cbn [truthy].
  assert (Hraw' : raw_posts (w_state w') = []).
  { unfold observe, idleness in Hobs. injection Hobs as H _. congruence. }
  rewrite Hraw'. reflexivity.
Qed.

Lemma keeps_idleness_db op : keeps idleness (db env op).
Proof. apply keeps_db. apply silent_idleness; reflexivity. Qed.

Lemma calm_idleness_fail msg : calm idleness (state_fail_workflow env msg).
Proof.
  unfold state_fail_workflow.
  apply calm_bind; [apply calm_utcnow|]. intros now.
  apply calm_bind; [apply calm_emit, silent_idleness; reflexivity|].
  intros _. apply calm_modify_state. intros s t. reflexivity.
Qed.

Lemma calm_idleness_complete : calm idleness (state_complete_workflow env).
Proof.
  unfold state_complete_workflow.
  apply calm_bind; [apply calm_utcnow|]. intros now.
  apply calm_bind; [apply calm_emit, silent_idleness; reflexivity|].
  intros _. apply calm_modify_state. intros s t. reflexivity.
Qed.

Lemma run_body_nothing w :
  error_message (w_state w) = None -> raw_posts (w_state w) = [] ->
  observe idleness (snd (run_body env w)) = observe idleness w
  /\ (run_ledger_ok env ->
      fst (run_body env w) = Ok tt
      /\ current_step (w_state (snd (run_body env w))) = "completed"
      /\ error_message (w_state (snd (run_body env w))) = None).
Proof.
  intros Herr Hraw. unfold run_body.
  set (wid := fresh_workflow_id env).
  pose proof (keeps_idleness_db (create_workflow_record wid) w) as K1.
  destruct (db_cases env (create_workflow_record wid) w)
    as [[msg H1]|[L1 H1]].
  { erewrite bind_raise; [|exact H1]. rewrite H1 in K1. split; [exact K1|].
    intros Hl. destruct (Hl (w_trace w) wid) as (E & _).
    unfold db in H1. rewrite E in H1. discriminate H1. }
  erewrite bind_ok; [|exact H1]. rewrite H1 in K1. cbn [snd] in K1.
  destruct (ainvoke_nothing (logged (create_workflow_record wid) w))
    as (w2 & H2 & He2 & K2); [exact Herr | exact Hraw |].
  erewrite bind_ok; [|exact H2].
  pose proof (keeps_idleness_db (update_workflow_stats wid) w2) as K3.
  destruct (db_cases env (update_workflow_stats wid) w2)
    as [[msg H3]|[L3 H3]].
  { erewrite bind_raise; [|exact H3]. rewrite H3 in K3.
    split; [cbn [snd] in *; congruence|].
    intros Hl. destruct (Hl (w_trace w2) wid) as (_ & E & _).
    unfold db in H3. rewrite E in H3. discriminate H3. }
  erewrite bind_ok; [|exact H3]. rewrite H3 in K3. cbn [snd] in K3.
  erewrite bind_ok; [|reflexivity].
  change (w_state (logged (update_workflow_stats wid) w2))
    with (w_state w2).
  rewrite He2. cbn [truthy].
  set (w3 := logged (update_workflow_stats wid) w2) in *.
  pose proof (keeps_idleness_db (db_complete_workflow wid) w3) as K4.
  destruct (db_cases env (db_complete_workflow wid) w3)
    as [[msg H4]|[L4 H4]].
  { erewrite bind_raise; [|exact H4]. rewrite H4 in K4.
    split; [cbn [snd] in *; congruence|].
    intros Hl. destruct (Hl (w_trace w3) wid) as (_ & _ & E).
    unfold db in H4. rewrite E in H4. discriminate H4. }
  erewrite bind_ok; [|exact H4]. rewrite H4 in K4. cbn [snd] in K4.
  destruct (calm_idleness_complete (logged (db_complete_workflow wid) w3))
    as [_ K5].
  split; [congruence|]. intros _.
  split; [reflexivity|]. split; [reflexivity|]. exact He2.
Qed.

Lemma run_workflow_nothing a b w :
  exists w',
    run_workflow env a b w = (Ok tt, w')
    /\ observe idleness w'
       = ([], [], [], [], (0, 0, 0, 0, 0)%Z,
          (count_events is_generate (w_trace w),
           count_events is_create_tweet (w_trace w)))
    /\ (run_ledger_ok env ->
        current_step (w_state w') = "completed"
        /\ error_message (w_state w') = None).
Proof.
  rewrite run_workflow_unfold.
  set (w1 := {| w_state := started env a b (clock env (S (w_reads w)));
                w_reads := S (S (w_reads w)); w_trace := w_trace w |}).
  assert (Hobs1 : observe idleness w1
                  = ([], [], [], [], (0, 0, 0, 0, 0)%Z,
                     (count_events is_generate (w_trace w),
                      count_events is_create_tweet (w_trace w)))).
  { unfold w1, started. destruct a, b; reflexivity. }
  assert (Hraw1 : raw_posts (w_state w1) = []).
  { unfold w1, started. destruct a, b; reflexivity. }
  destruct (run_body_nothing w1 (started_no_error env a b _) Hraw1)
    as [K Hok].
  unfold try_except.
  destruct (run_body env w1) as [[[]|c e] w2] eqn:E; cbn [fst snd] in *.
  - exists w2. split; [reflexivity|]. split; [congruence|].
    intros Hl. destruct (Hok Hl) as (_ & Hs & He). auto.
  - set (msg := "Workflow " +:+ fresh_workflow_id env +:+ " failed: " +:+ e).
    assert (Hh : calm idleness
                   (db_quiet env (db_fail_workflow (fresh_workflow_id env) msg) ;;
                    state_fail_workflow env msg)).
    { apply calm_bind; [|intros; apply calm_idleness_fail].
      apply calm_db_quiet, silent_idleness; reflexivity. }
    destruct (Hh w2) as [[[] Hr] Ko].
    fold msg.
    destruct ((db_quiet env (db_fail_workflow (fresh_workflow_id env) msg) ;;
               state_fail_workflow env msg) w2) as [r w3] eqn:E3.
    cbn [fst snd] in *. subst r.
    exists w3. split; [reflexivity|]. split; [congruence|].
    intros Hl. destruct (Hok Hl) as (Hbad & _). discriminate Hbad.
Qed.

End EmptyRun.



(* ================================================================== *)
(** * The scheduler *)

Section SchedulerClaims.
Import Scheduler.

Lemma submit_job_single j inst :
  max_instances j = 1%nat ->
  (forall k, (default 0%nat (inst !! k) <= 1)%nat) ->
  forall k, (default 0%nat (default inst (submit_job j inst) !! k) <= 1)%nat.
Proof.
  intros Hmax Hinst k. unfold submit_job. rewrite Hmax.
  destruct (1 <=? default 0%nat (inst !! id j))%nat eqn:E;
    change (default inst None) with inst;
    change (default inst (Some (<[id j:=S (default 0%nat (inst !! id j))]> inst)))
      with (<[id j:=S (default 0%nat (inst !! id j))]> inst).
  - apply Hinst.
  - apply Nat.leb_gt in E.
    destruct (decide (id j = k)) as [Heq|Hne]; [subst k|].
    + rewrite lookup_insert_eq. cbv [from_option Datatypes.id] in *. lia.
    + rewrite lookup_insert_ne by exact Hne. apply Hinst.
Qed.

Lemma submit_job_grows j inst k :
  (default 0%nat (inst !! k)
   <= default 0%nat (default inst (submit_job j inst) !! k))%nat.
Proof.
  unfold submit_job.
  destruct (max_instances j <=? default 0%nat (inst !! id j))%nat;
    change (default inst None) with inst;
    change (default inst (Some (<[id j:=S (default 0%nat (inst !! id j))]> inst)))
      with (<[id j:=S (default 0%nat (inst !! id j))]> inst); [lia|].
  destruct (decide (id j = k)) as [Heq|Hne]; [subst k|].
  - rewrite lookup_insert_eq. cbv [from_option Datatypes.id]. lia.
  - rewrite lookup_insert_ne by exact Hne. lia.
Qed.

Lemma process_jobs_single now js : forall inst,
  Forall (fun j => max_instances j = 1%nat) js ->
  (forall k, (default 0%nat (inst !! k) <= 1)%nat) ->
  Forall (fun j => max_instances j = 1%nat) (fst (process_jobs now js inst))
  /\ (forall k, (default 0%nat (snd (process_jobs now js inst) !! k) <= 1)%nat)
  /\ (forall k, (default 0%nat (inst !! k)
                 <= default 0%nat (snd (process_jobs now js inst) !! k))%nat).
Proof.
  induction js as [|j rest IH]; intros inst Hjs Hinst; cbn [process_jobs].
  - cbn. auto.
  - inversion Hjs as [|j' rest' Hj Hrest]; subst.
    assert (Hstep :
      max_instances (fst (process_job now inst j)) = 1%nat
      /\ (forall k, (default 0%nat (snd (process_job now inst j) !! k) <= 1)%nat)
      /\ (forall k, (default 0%nat (inst !! k)
                     <= default 0%nat (snd (process_job now inst j) !! k))%nat)).
    { unfold process_job. destruct (next_run_time j) as [due|]; [|cbn; auto].
      destruct (due <=? now)%Z; [|cbn; auto]. cbn [fst snd].
      split; [exact Hj|]. split.
      - apply submit_job_single; assumption.
      - intros k. apply submit_job_grows. }
    destruct (process_job now inst j) as [j1 inst1].
    cbn [fst snd] in Hstep. destruct Hstep as (Hj1 & Hinst1 & Hgrow1).
    destruct (IH inst1 Hrest Hinst1) as (Hjs2 & Hinst2 & Hgrow2).
    destruct (process_jobs now rest inst1) as [rest2 inst2].
    cbn [fst snd] in *. split; [constructor; assumption|].
    split; [exact Hinst2|]. intros k. specialize (Hgrow1 k).
    specialize (Hgrow2 k). lia.
Qed.

Lemma wakeup_single now s : single_instance s -> single_instance (wakeup now s).
Proof.
  intros [Hjs Hinst]. unfold wakeup.
  destruct (process_jobs_single now (jobstore s) (instances s) Hjs Hinst)
    as (H1 & H2 & _).
  destruct (process_jobs now (jobstore s) (instances s)) as [js inst].
  split; [exact H1 | exact H2].
Qed.

Lemma wakeup_grows now s job_id :
  single_instance s ->
  (in_flight s job_id <= in_flight (wakeup now s) job_id)%nat.
Proof.
  intros [Hjs Hinst]. unfold wakeup, in_flight.
  destruct (process_jobs_single now (jobstore s) (instances s) Hjs Hinst)
    as (_ & _ & H3).
  destruct (process_jobs now (jobstore s) (instances s)) as [js inst].
  apply H3.
Qed.

Lemma job_done_single job_id s :
  single_instance s -> single_instance (job_done job_id s).
Proof.
  intros [Hjs Hinst]. split; [exact Hjs|]. intros k.
  specialize (Hinst k). unfold in_flight, job_done in *. cbn [instances].
  destruct (instances s !! job_id) as [[|[|n]]|] eqn:E; try exact Hinst.
  - destruct (decide (job_id = k)) as [Heq|Hne]; [subst k|].
    + rewrite lookup_delete_eq. cbn. lia.
    + rewrite lookup_delete_ne by exact Hne. exact Hinst.
  - destruct (decide (job_id = k)) as [Heq|Hne]; [subst k|].
    + rewrite lookup_delete_eq. cbn. lia.
    + rewrite lookup_delete_ne by exact Hne. exact Hinst.
  - destruct (decide (job_id = k)) as [Heq|Hne]; [subst k|].
    + rewrite E in Hinst. cbn in Hinst. lia.
    + rewrite lookup_insert_ne by exact Hne. exact Hinst.
Qed.

Lemma modify_next_run_time_single job_id t s :
  single_instance s -> single_instance (modify_next_run_time job_id t s).
Proof.
  intros [Hjs Hinst]. split; [|exact Hinst].
  unfold modify_next_run_time. cbn [jobstore].
  induction Hjs as [|j js Hj Hrest IH]; cbn; constructor; [|exact IH].
  destruct (String.eqb (id j) job_id); exact Hj.
Qed.

Lemma step_ok m e : manager_ok m -> manager_ok (step m e).
Proof.
  unfold manager_ok. intros H. destruct e as [now|job_id|job_id now];
    cbn [step].
  - unfold with_scheduler. cbn [scheduler].
    destruct (scheduler m) as [s|]; cbn; [apply wakeup_single, H | exact I].
  - unfold with_scheduler. cbn [scheduler].
    destruct (scheduler m) as [s|]; cbn; [apply job_done_single, H | exact I].
  - unfold run_job_now.
    destruct (scheduler m) as [s|] eqn:Es; cbn [snd]; [|rewrite Es; exact I].
    destruct (get_job job_id s); cbn [snd].
    + unfold with_scheduler. cbn [scheduler]. rewrite Es. cbn.
      apply modify_next_run_time_single, H.
    + rewrite Es. exact H.
Qed.

Lemma run_ok events : forall m, manager_ok m -> manager_ok (run events m).
Proof.
  unfold run. induction events as [|e rest IH]; intros m H; cbn [fold_left].
  - exact H.
  - apply IH, step_ok, H.
Qed.

Lemma start_ok interval t0 : manager_ok (start t0 (new_manager interval)).
Proof.
  unfold manager_ok. cbn. split.
  - repeat constructor.
  - intros job_id. unfold in_flight. cbn. rewrite lookup_empty. cbn. lia.
Qed.

Lemma run_job_now_keeps_executions job_id now m k :
  executions (snd (run_job_now job_id now m)) k = executions m k.
Proof.
  unfold run_job_now, executions.
  destruct (scheduler m) as [s|] eqn:Es; cbn [snd]; [|rewrite Es; reflexivity].
  destruct (get_job job_id s); cbn [snd]; [|rewrite Es; reflexivity].
  unfold with_scheduler. cbn [scheduler]. rewrite Es. reflexivity.
Qed.

Lemma wakeup_keeps_running now m k :
  manager_ok m -> executions m k = 1%nat ->
  executions (step m (Wakeup now)) k = 1%nat.
Proof.
  unfold manager_ok, executions. cbn [step]. unfold with_scheduler.
  cbn [scheduler]. destruct (scheduler m) as [s|]; cbn; [|discriminate].
  intros Hok H1.
  pose proof (wakeup_grows now s k Hok) as Hg.
  destruct (wakeup_single now s Hok) as [_ Hle]. specialize (Hle k). lia.
Qed.

End SchedulerClaims.

(** C1.  The four jobs are registered with one allowed instance and
    coalescing, and whatever happens to the started scheduler (wake-ups
    at any times, instances ending, manual run-now requests), no job id
    ever has more than one execution in flight; while an instance of a
    job is running, a firing of its trigger and a run-now request for it
    start nothing: the number of its executions stays 1. *)
Theorem at_most_one_execution_in_flight
  (interval t0 : Z) (events : list Scheduler.Event) (job_id : string) :
  let started := Scheduler.start t0 (Scheduler.new_manager interval) in
  let m := Scheduler.run events started in
  (exists s,
      Scheduler.scheduler started = Some s
      /\ map Scheduler.id (Scheduler.jobstore s)
         = ["workflow_job"; "metrics_job"; "snapshot_job"; "cleanup_job"]
      /\ Forall (fun j => Scheduler.max_instances j = 1%nat
                          /\ Scheduler.coalesce j = true)
                (Scheduler.jobstore s))
  /\ (Scheduler.executions m job_id <= 1)%nat
  /\ (Scheduler.executions m job_id = 1%nat ->
      forall now,
        Scheduler.executions (Scheduler.step m (Scheduler.Wakeup now)) job_id
        = 1%nat
        /\ Scheduler.executions
             (Scheduler.step m (Scheduler.RunJobNow job_id now)) job_id
           = 1%nat
        /\ Scheduler.executions
             (Scheduler.step
                (Scheduler.step m (Scheduler.RunJobNow job_id now))
                (Scheduler.Wakeup now)) job_id
           = 1%nat).
Proof.
  intros started m.
  assert (Hok : Scheduler.manager_ok m) by apply run_ok, start_ok.
  split; [|split].
  - eexists. split; [reflexivity|]. split; [reflexivity|].
    repeat constructor.
  - unfold Scheduler.manager_ok, Scheduler.executions in *.
    destruct (Scheduler.scheduler m); [apply Hok | lia].
  - intros H1 now. split; [|split].
    + apply wakeup_keeps_running; assumption.
    + cbn [Scheduler.step]. rewrite run_job_now_keeps_executions. exact H1.
    + apply wakeup_keeps_running.
      * apply (step_ok m (Scheduler.RunJobNow job_id now) Hok).
      * cbn [Scheduler.step]. rewrite run_job_now_keeps_executions. exact H1.
Qed.

(** The workflow job of a scheduler started at time 0 with a five-minute
    interval: it starts at its first fire time, a run-now request and the
    next wake-up while it runs start nothing, and once it has ended it
    starts again only at its next fire time. *)
Example workflow_job_overlap :
  let started := Scheduler.start 0 (Scheduler.new_manager 5) in
  let count evs :=
    Scheduler.executions (Scheduler.run evs started) "workflow_job" in
  count [] = 0%nat
  /\ count [Scheduler.Wakeup 300] = 1%nat
  /\ count [Scheduler.Wakeup 300; Scheduler.RunJobNow "workflow_job" 310;
            Scheduler.Wakeup 311] = 1%nat
  /\ count [Scheduler.Wakeup 300; Scheduler.RunJobNow "workflow_job" 310;
            Scheduler.Wakeup 311; Scheduler.Done "workflow_job";
            Scheduler.Wakeup 312] = 0%nat
  /\ count [Scheduler.Wakeup 300; Scheduler.RunJobNow "workflow_job" 310;
            Scheduler.Wakeup 311; Scheduler.Done "workflow_job";
            Scheduler.Wakeup 610] = 1%nat.
Proof. vm_compute. repeat split. Qed.

(* ================================================================== *)
(** * The run state under its methods *)

Section StateMethods.
Context {F : Type} {PF : PyFloat F}.

Lemma counters_agree_call (s : TrendState F) c :
  counters_agree s -> counters_agree (apply_call s c).
Proof.
  intros (H1 & H2 & H3 & H4 & H5).
  destruct c; cbn; unfold counters_agree, get_successful_posts,
    get_failed_posts; cbn;
    rewrite ?length_app, ?List.filter_app, ?length_app, ?Nat2Z.inj_add;
    unfold get_successful_posts, get_failed_posts, count_status in *;
    repeat split; try assumption; try congruence; lia.
Qed.

Lemma apply_calls_app cs1 cs2 (s : TrendState F) :
  apply_calls (cs1 ++ cs2) s = apply_calls cs2 (apply_calls cs1 s).
Proof. apply fold_left_app. Qed.

Lemma counters_agree_calls cs : forall s : TrendState F,
  counters_agree s -> counters_agree (apply_calls cs s).
Proof.
  induction cs as [|c cs IH]; intros s H; [exact H|].
  apply IH, counters_agree_call, H.
Qed.

Lemma completed_at_kept_call (s : TrendState F) c :
  is_Some (completed_at s) -> is_Some (completed_at (apply_call s c)).
Proof. destruct c; cbn; eauto. Qed.

Lemma completed_at_kept_calls cs : forall s : TrendState F,
  is_Some (completed_at s) -> is_Some (completed_at (apply_calls cs s)).
Proof.
  induction cs as [|c cs IH]; intros s H; [exact H|].
  apply IH, completed_at_kept_call, H.
Qed.

End StateMethods.


(** X2.  In exact arithmetic the success rate of a state built by its methods
    from [TrendState()] is defined and lies between 0 and 1; it is 0
    when nothing was attempted, and it is 1 exactly when something was
    posted and nothing failed. *)
Theorem success_rate_between_0_and_1 (cs : list (StateCall Q)) :
  let s := apply_calls cs new_TrendState in
  exists r,
    success_rate s = Some r
    /\ 0 <= r <= 1
    /\ ((total_posted s + total_failed s = 0)%Z -> r == 0)
    /\ (r == 1 <-> (0 < total_posted s)%Z /\ total_failed s = 0%Z).
Proof.
  intros s.
  destruct (counters_agree_calls cs new_TrendState) as (_ & _ & _ & Hp & Hf);
    [repeat split|]. fold s in Hp, Hf.
  assert (Hp0 : (0 <= total_posted s)%Z) by lia.
  assert (Hf0 : (0 <= total_failed s)%Z) by lia.
  clear Hp Hf. unfold success_rate. cbn.
  destruct (total_posted s + total_failed s =? 0)%Z eqn:E.
  - apply Z.eqb_eq in E. eexists. split; [reflexivity|].
    split; [lra|]. split; [intros _; lra|]. split.
    + intros H. lra.
    + intros [H _]. lia.
  - apply Z.eqb_neq in E. eexists. split; [reflexivity|].
    assert (Ht : 0 < inject_Z (total_posted s + total_failed s)).
    { change 0 with (inject_Z 0). rewrite <- Zlt_Qlt. lia. }
    assert (Hp : 0 <= inject_Z (total_posted s)).
    { change 0 with (inject_Z 0). rewrite <- Zle_Qle. lia. }
    assert (Hpt : inject_Z (total_posted s)
                  <= inject_Z (total_posted s + total_failed s)).
    { rewrite <- Zle_Qle. lia. }
    set (p := inject_Z (total_posted s)) in *.
    set (t := inject_Z (total_posted s + total_failed s)) in *.
    split; [split|split].
    + apply Qle_shift_div_l; [exact Ht|]. lra.
    + apply Qle_shift_div_r; [exact Ht|]. lra.
    + intros H. lia.
    + split.
      * intros H1.
        assert (Hpe : p == t).
        { rewrite <- (Qmult_1_l t), <- H1. field. lra. }
        unfold p, t in Hpe. rewrite inject_Z_injective in Hpe. lia.
      * intros [Hpos Hz]. unfold p, t. rewrite Hz, Z.add_0_r.
        field. unfold p in Hp. change 0 with (inject_Z 0).
        intros Hc. rewrite inject_Z_injective in Hc. lia.
Qed.

(** X3.  A run that has been started on a fresh state is running; once
    [complete_workflow] or [fail_workflow] has been called it is not, it
    has a duration, and no later method call makes it running again:
    [start_workflow] does not reset [completed_at]. *)
Theorem finished_state_never_runs_again {F : Type} {PF : PyFloat F}
  (wid : string) (t0 t1 : F) (msg : string)
  (before after : list (StateCall F)) (s : TrendState F) :
  is_running (start_workflow wid t0 new_TrendState) = true
  /\ (forall c,
        c = call_complete_workflow t1 \/ c = call_fail_workflow msg t1 ->
        let s' := apply_calls (before ++ c :: after) s in
        is_running s' = false
        /\ (is_Some (started_at s') -> is_Some (duration_seconds s'))).
Proof.
  split; [reflexivity|].
  intros c Hc s'.
  assert (H : is_Some (completed_at s')).
  { unfold s'. rewrite apply_calls_app. cbn [apply_calls fold_left].
    apply completed_at_kept_calls.
    destruct Hc as [-> | ->]; cbn; eauto. }
  unfold is_running, duration_seconds.
  destruct H as [t Ht]. rewrite Ht.
  destruct (started_at s'); split; try reflexivity; intros [x Hx]; eauto;
    discriminate.
Qed.

(* ================================================================== *)
(** * Scoring statistics and helpers *)

Lemma fold_py_max_bounds (l : list Q) : forall a,
  let m := fold_left py_max l a in
  a <= m /\ Forall (fun x => x <= m) l /\ In m (a :: l).
Proof.
  induction l as [|x l IH]; intros a; cbn [fold_left].
  - cbn. split; [lra|]. split; [constructor | left; reflexivity].
  - destruct (IH (py_max a x)) as (H1 & H2 & H3).
    assert (Ha : a <= py_max a x /\ x <= py_max a x /\
                 (py_max a x = a \/ py_max a x = x)).
    { unfold py_max. cbn [fltb exact]. destruct (Qltb a x) eqn:E.
      - apply Qltb_true in E. repeat split; try lra. right; reflexivity.
      - apply Qltb_false in E. repeat split; try lra. left; reflexivity. }
    destruct Ha as (Ha1 & Ha2 & Ha3).
    split; [cbn zeta; lra|]. split.
    + constructor; [cbn zeta; lra | exact H2].
    + destruct H3 as [H3|H3].
      * destruct Ha3 as [E|E]; [left | right; left];
          (etransitivity; [symmetry; exact E | exact H3]).
      * right; right; exact H3.
Qed.

Lemma fold_py_min_bounds (l : list Q) : forall a,
  let m := fold_left py_min l a in
  m <= a /\ Forall (fun x => m <= x) l /\ In m (a :: l).
Proof.
  induction l as [|x l IH]; intros a; cbn [fold_left].
  - cbn. split; [lra|]. split; [constructor | left; reflexivity].
  - destruct (IH (py_min a x)) as (H1 & H2 & H3).
    assert (Ha : py_min a x <= a /\ py_min a x <= x /\
                 (py_min a x = a \/ py_min a x = x)).
    { unfold py_min. cbn [fltb exact]. destruct (Qltb x a) eqn:E.
      - apply Qltb_true in E. repeat split; try lra. right; reflexivity.
      - apply Qltb_false in E. repeat split; try lra. left; reflexivity. }
    destruct Ha as (Ha1 & Ha2 & Ha3).
    split; [cbn zeta; lra|]. split.
    + constructor; [cbn zeta; lra | exact H2].
    + destruct H3 as [H3|H3].
      * destruct Ha3 as [E|E]; [left | right; left];
          (etransitivity; [symmetry; exact E | exact H3]).
      * right; right; exact H3.
Qed.

Lemma fold_Qplus_bounds (lo hi : Q) (l : list Q) : forall a,
  Forall (fun x => lo <= x <= hi) l ->
  a + inject_Z (Z.of_nat (length l)) * lo <= fold_left Qplus l a
  /\ fold_left Qplus l a <= a + inject_Z (Z.of_nat (length l)) * hi.
Proof.
  induction l as [|x l IH]; intros a Hl; cbn [fold_left length].
  - change (inject_Z (Z.of_nat 0)) with 0. lra.
  - inversion Hl as [|x' l' Hx Hl']; subst.
    destruct (IH (a + x) Hl') as [H1 H2].
    rewrite Nat2Z.inj_succ, <- Z.add_1_r, inject_Z_plus.
    change (inject_Z 1) with 1.
    set (n := inject_Z (Z.of_nat (length l))) in *.
    split; [eapply Qle_trans; [|exact H1] | eapply Qle_trans; [exact H2|]];
      lra.
Qed.


Lemma floor_tenth_ratio (upvotes : Z) :
  (0 < upvotes)%Z -> inject_Z (upvotes / 10) / inject_Z upvotes <= 0.1.
Proof.
  intros Hu. apply Qle_shift_div_r.
  - change 0 with (inject_Z 0). rewrite <- Zlt_Qlt. exact Hu.
  - assert (H10 : (10 * (upvotes / 10) <= upvotes)%Z)
      by (apply Z.mul_div_le; lia).
    rewrite Zle_Qle, inject_Z_mult in H10.
    change (inject_Z 10) with 10 in H10. lra.
Qed.

Lemma spec_age_decay_proper (a b : Q) :
  a == b -> spec_age_decay a == spec_age_decay b.
Proof.
  intros H. unfold spec_age_decay. cbv zeta.
  destruct (Qltb 12 (a / 60)) eqn:Ea, (Qltb 12 (b / 60)) eqn:Eb;
    rewrite ?Qltb_true, ?Qltb_false in *.
  - rewrite H. reflexivity.
  - const_divisions. lra.
  - const_divisions. lra.
  - reflexivity.
Qed.

Lemma spec_base_score_proper (u : Z) (a b : Q) :
  a == b -> spec_base_score u a == spec_base_score u b.
Proof. intros H. unfold spec_base_score. rewrite H. reflexivity. Qed.

(** X5.  In exact arithmetic, under a clock that stands still,
    [test_score_calculation] returns upvotes / max(age, 1) times the
    group multiplier times the age decay: the post it builds has
    [upvotes // 10] comments and approval ratio 0.9, so the engagement
    bonus and the quality adjustment never apply to it. *)
Theorem test_score_has_no_bonus
  (env : Env Q) (t : Q) (votes : Z) (age : Q) (group : string)
  (w : World Q) :
  frozen env t ->
  exists s,
    fst (test_score_calculation env votes age group w) = Ok s
    /\ s == spec_base_score votes age
            * spec_group_multiplier group
            * spec_age_decay age.
Proof.
  intros Hclock. unfold test_score_calculation.
  erewrite bind_ok; [|reflexivity].
  erewrite bind_ok; [|reflexivity].
  rewrite calculate_virality_score_run.
  eexists. split; [reflexivity|].
  cbn [w_reads]. rewrite !Hclock. cbn [fsub fmul flit exact].
  set (post := {| reddit_id := "test"; title := "Test Post";
                  url := "https://example.com"; upvotes := votes;
                  created_utc := t - age * 60; subreddit := group;
                  permalink := "https://reddit.com/test";
                  num_comments := (votes / 10)%Z;
                  upvote_ratio := 0.9; scraped_at := t |}).
  assert (Hage : (t - created_utc post) / 60.0 == age)
    by (unfold post; cbn [created_utc]; field).
  unfold exact_score. rewrite exact_factors_decay.
  assert (Hund : undecayed_factors post (exact_base post t)
                 == exact_base post t * spec_group_multiplier group).
  { unfold undecayed_factors, spec_group_multiplier.
    change (upvote_ratio post) with 0.9.
    change (Qltb 0.9 0.9) with false. change (Qltb 0.9 0.7) with false.
    cbv iota. change (subreddit post) with group.
    change (upvotes post) with votes.
    change (num_comments post) with (votes / 10)%Z.
    destruct (0 <? votes)%Z eqn:Hu; [|reflexivity].
    apply Z.ltb_lt in Hu.
    destruct (Qltb 0.1 _) eqn:E; [|reflexivity].
    apply Qltb_true in E. pose proof (floor_tenth_ratio votes Hu). lra. }
  rewrite Hund, exact_base_spec, age_decay_factor_spec.
  change (upvotes post) with votes.
  rewrite (spec_base_score_proper _ _ _ Hage),
    (spec_age_decay_proper _ _ Hage).
  reflexivity.
Qed.

Lemma test_score_has_no_bonus_witness :
  exists s,
    fst (test_score_calculation (quiet_env (fun _ => 3600)) 1000 60
           "programming" world0) = Ok s
    /\ s == spec_base_score 1000 60 * spec_group_multiplier "programming"
            * spec_age_decay 60.
Proof.
  apply (test_score_has_no_bonus (quiet_env (fun _ => 3600)) 3600).
  intros n. reflexivity.
Defined.

(* ================================================================== *)
(** * What the Publish stage records and calls *)

Section PublishRecords.
Context {F : Type} {PF : PyFloat F}.
Variable env : Env F.

Lemma post_tweet_outcome i g w :
  exists r w',
    post_tweet env i g w = (Ok r, w')
    /\ records (outcome env i g) g r
    /\ w_state w' = w_state w
    /\ w_trace w' = w_trace w ++ calls_of (outcome env i g) g.
Proof.
  unfold post_tweet, outcome.
  destruct (twitter_client env); cbn [negb].
  2:{ eexists _, w. split; [reflexivity|]. split; [|split].
      - repeat split.
      - reflexivity.
      - cbn. rewrite app_nil_r. reflexivity. }
  destruct (280 <? String.length (tweet_text g))%nat.
  { eexists _, w. split; [reflexivity|]. split; [|split].
    - repeat split.
    - reflexivity.
    - cbn. rewrite app_nil_r. reflexivity. }
  erewrite bind_ok; [|reflexivity].
  destruct (create_tweet env i (tweet_text g)) as [[tid|]|c e].
  - erewrite bind_ok; [|reflexivity].
    match goal with |- context [db_quiet env ?op ;; _] =>
      set (o := op) end.
    match goal with |- context [bind (db_quiet env o) ?k ?w0] =>
      destruct (db_quiet_run env o w0) as (w1 & H1 & Hs & Ht) end.
    erewrite bind_ok; [|exact H1].
    eexists _, w1. split; [reflexivity|]. split; [|split].
    + repeat split; cbn; eauto.
    + rewrite Hs. reflexivity.
    + rewrite Ht. cbn. rewrite <- app_assoc. reflexivity.
  - eexists _, _. split; [reflexivity|]. split; [|split].
    + repeat split.
    + reflexivity.
    + reflexivity.
  - assert (Hgen : forall msg,
      exists r w',
        (db_quiet env (update_post_failed
                         (reddit_id (raw_post (scored_post g)))) ;;
         ret (mark_failed (new_PostResult g) msg))
          {| w_state := w_state w; w_reads := w_reads w;
             w_trace := w_trace w ++ [EvCreateTweet (tweet_text g)] |}
        = (Ok r, w')
        /\ r = mark_failed (new_PostResult g) msg
        /\ w_state w' = w_state w
        /\ w_trace w' = w_trace w ++
             [EvCreateTweet (tweet_text g);
              EvLedger (update_post_failed
                          (reddit_id (raw_post (scored_post g))))]).
    { intros msg.
      match goal with |- context [bind (db_quiet env ?o) ?k ?w0] =>
        destruct (db_quiet_run env o w0) as (w1 & H1 & Hs & Ht) end.
      eexists _, w1. split; [erewrite bind_ok; [reflexivity | exact H1]|].
      split; [reflexivity|]. split; [rewrite Hs; reflexivity|].
      rewrite Ht. cbn. rewrite <- app_assoc. reflexivity. }
    destruct c;
      match goal with |- context [mark_failed _ ?msg] =>
        destruct (Hgen msg) as (r & w' & Hrun & -> & Hs & Ht) end;
      (eexists _, w'; split; [exact Hrun|]; split; [|split; assumption]);
      repeat split.
Qed.

Lemma post_tweets_loop_outcome n gs : forall i acc w,
  exists rs w',
    post_tweets_loop env n i gs acc w = (Ok (acc ++ rs), w')
    /\ Forall2 (fun '(k, g) r => records (outcome env k g) g r)
               (zip (seq i (length gs)) gs) rs
    /\ w_state w' = w_state w
    /\ w_trace w' = w_trace w ++ batch_calls env n i gs.
Proof.
  induction gs as [|g rest IH]; intros i acc w.
  - exists [], w. cbn. rewrite !app_nil_r. repeat split. constructor.
  - destruct (post_tweet_outcome i g w) as (r & w1 & H1 & Hr & Hs1 & Ht1).
    set (pause := if (i <? n - 1)%nat then [EvSleep 3] else []).
    set (w2 := {| w_state := w_state w1; w_reads := w_reads w1;
                  w_trace := w_trace w1 ++ pause |}).
    assert (Hp : (if (i <? n - 1)%nat then emit (EvSleep 3) else ret tt) w1
                 = (Ok tt, w2)).
    { unfold w2, pause. destruct (i <? n - 1)%nat; cbn; [reflexivity|].
      unfold ret. rewrite app_nil_r. destruct w1; reflexivity. }
    destruct (IH (S i) (acc ++ [r]) w2) as (rs & w3 & H3 & Hrs & Hs3 & Ht3).
    exists (r :: rs), w3. split; [|split; [|split]].
    + cbn [post_tweets_loop]. erewrite bind_ok; cycle 1.
      { apply try_ok. erewrite bind_ok; [|exact H1].
        erewrite bind_ok; [|exact Hp]. reflexivity. }
      rewrite H3, <- app_assoc. reflexivity.
    + cbn. constructor; assumption.
    + rewrite Hs3. cbn. exact Hs1.
    + rewrite Ht3. cbn [w2 w_trace batch_calls]. rewrite Ht1.
      fold pause. rewrite <- !app_assoc. reflexivity.
Qed.

Lemma post_tweets_batch_outcome gs w :
  exists rs w',
    post_tweets_batch env gs w = (Ok rs, w')
    /\ Forall2 (fun '(k, g) r => records (outcome env k g) g r)
               (zip (seq 0 (length gs)) gs) rs
    /\ w_state w' = w_state w
    /\ w_trace w' = w_trace w ++ batch_calls env (length gs) 0 gs.
Proof.
  unfold post_tweets_batch.
  destruct (post_tweets_loop_outcome (length gs) gs 0 [] w)
    as (rs & w' & H & Hr & Hs & Ht).
  exists rs, w'. auto.
Qed.

Lemma batch_calls_sleeps n gs : forall i,
  (i + length gs <= n)%nat ->
  List.filter is_sleep (batch_calls env n i gs)
  = repeat (EvSleep 3) (length gs - (if (i + length gs =? n)%nat then 1 else 0)).
Proof.
  induction gs as [|g rest IH]; intros i Hi; [reflexivity|].
  cbn [batch_calls length] in *.
  rewrite !List.filter_app, IH by lia.
  assert (Hc : List.filter is_sleep (calls_of (outcome env i g) g) = []).
  { destruct (outcome env i g); reflexivity. }
  rewrite Hc. cbn [app].
  replace (S i + length rest)%nat with (i + S (length rest))%nat by lia.
  destruct (i + S (length rest) =? n)%nat eqn:E;
    destruct (i <? n - 1)%nat eqn:E2;
    rewrite ?Nat.eqb_eq, ?Nat.eqb_neq, ?Nat.ltb_lt, ?Nat.ltb_ge in *;
    cbn [List.filter is_sleep app];
    match goal with
    | |- EvSleep 3 :: repeat _ ?k = repeat _ ?m =>
        change (repeat (EvSleep 3) (S k) = repeat (EvSleep 3) m);
        f_equal; lia
    | |- repeat _ ?k = repeat _ ?m => f_equal; lia
    end.
Qed.

End PublishRecords.

Lemma Forall2_zip_seq_lookup {A B} (P : nat -> A -> B -> Prop)
  (gs : list A) : forall i (rs : list B),
  Forall2 (fun '(k, g) r => P k g r) (zip (seq i (length gs)) gs) rs ->
  length rs = length gs
  /\ forall k g, gs !! k = Some g ->
       exists r, rs !! k = Some r /\ P (i + k)%nat g r.
Proof.
  induction gs as [|g0 rest IH]; intros i rs H; cbn in H.
  - inversion H; subst. split; [reflexivity|]. intros k g Hk. discriminate.
  - inversion H as [|x r0 l rs' Hr Hrest]; subst.
    destruct (IH (S i) rs' Hrest) as [Hlen Hall].
    split; [cbn; congruence|].
    intros [|k] g Hk; cbn in Hk.
    + injection Hk as <-. exists r0. rewrite Nat.add_0_r. auto.
    + destruct (Hall k g Hk) as (r & Hrk & HP).
      exists r. split; [exact Hrk|].
      replace (i + S k)%nat with (S i + k)%nat by lia. exact HP.
Qed.

Section PublishBatch.
Context {F : Type} {PF : PyFloat F}.
Variable env : Env F.

Lemma batch_calls_ledger n gs : forall i op,
  In (EvLedger op) (batch_calls env n i gs) <->
  exists k g, gs !! k = Some g
              /\ In (EvLedger op) (calls_of (outcome env (i + k) g) g).
Proof.
  induction gs as [|g0 rest IH]; intros i op; cbn [batch_calls].
  - split; [intros [] | intros (k & g & Hk & _); discriminate].
  - rewrite !in_app_iff, IH. split.
    + intros [H|[H|(k & g & Hk & H)]].
      * exists 0%nat, g0. rewrite Nat.add_0_r. auto.
      * destruct (i <? n - 1)%nat; cbn in H; [destruct H as [H|[]]|destruct H].
        discriminate H.
      * exists (S k), g. split; [exact Hk|].
        replace (i + S k)%nat with (S i + k)%nat by lia. exact H.
    + intros ([|k] & g & Hk & H); cbn in Hk.
      * injection Hk as <-. rewrite Nat.add_0_r in H. left; exact H.
      * right; right. exists k, g. split; [exact Hk|].
        replace (S i + k)%nat with (i + S k)%nat by lia. exact H.
Qed.

Lemma batch_calls_no_client n gs : forall i,
  twitter_client env = false ->
  tweets_in (batch_calls env n i gs) = [].
Proof.
  intros i Hc. revert i. unfold tweets_in.
  induction gs as [|g rest IH]; intros i; [reflexivity|].
  cbn [batch_calls]. rewrite !List.filter_app, IH.
  unfold outcome. rewrite Hc.
  destruct (i <? n - 1)%nat; reflexivity.
Qed.

End PublishBatch.

(** X6.  What [post_tweets_batch] returns: one result per item, in order, and
    the result of an item records the branch [post_tweet] took for it.
    An item the API accepted is [POSTED] with the tweet id, the URL
    "https://twitter.com/user/status/<id>" and [posted_at], and no error
    message; every other item is [FAILED] without id, URL or [posted_at],
    with the message of its branch: client not initialised, tweet too
    long (with its length), no data returned, "Twitter API error: ..."
    for a [TweepyException] and "Unexpected error posting tweet: ..." for
    any other exception. *)
Theorem publish_results_record_the_outcome {F : Type} {PF : PyFloat F}
  (env : Env F) (gs : list (GeneratedPost F)) (w : World F) :
  exists rs w',
    post_tweets_batch env gs w = (Ok rs, w')
    /\ length rs = length gs
    /\ forall i g, gs !! i = Some g ->
         exists r, rs !! i = Some r /\ records (outcome env i g) g r.
Proof.
  destruct (post_tweets_batch_outcome env gs w) as (rs & w' & H & Hr & _).
  destruct (Forall2_zip_seq_lookup
              (fun k g r => records (outcome env k g) g r) gs 0 rs Hr)
    as [Hlen Hall].
  exists rs, w'. split; [exact H|]. split; [exact Hlen|]. exact Hall.
Qed.

(** X7.  [post_tweets_batch] pauses 3 seconds after every item but the last,
    whatever happened to the item: a batch of [n] items makes [n - 1]
    pauses, also when no item is sent at all because the client is not
    initialised, and it never changes the run state. *)
Theorem publish_batch_pauses_between_items {F : Type} {PF : PyFloat F}
  (env : Env F) (gs : list (GeneratedPost F)) (w : World F) :
  exists rs w' evs,
    post_tweets_batch env gs w = (Ok rs, w')
    /\ w_state w' = w_state w
    /\ w_trace w' = w_trace w ++ evs
    /\ List.filter is_sleep evs = repeat (EvSleep 3) (length gs - 1)
    /\ (twitter_client env = false -> tweets_in evs = []).
Proof.
  destruct (post_tweets_batch_outcome env gs w) as (rs & w' & H & _ & Hs & Ht).
  exists rs, w', (batch_calls env (length gs) 0 gs).
  split; [exact H|]. split; [exact Hs|]. split; [exact Ht|]. split.
  - rewrite batch_calls_sleeps by (cbn; lia). cbn [Nat.add].
    rewrite Nat.eqb_refl. reflexivity.
  - intros Hc. apply batch_calls_no_client, Hc.
Qed.

(** X8.  The ledger writes of [post_tweets_batch]: [update_post_posted] for
    exactly the items the API accepted and [update_post_failed] for
    exactly the items whose API call raised.  An item that fails because
    the client is not initialised, because its text is too long or
    because the API returned no data leaves no record in the ledger. *)
Theorem publish_ledger_writes {F : Type} {PF : PyFloat F}
  (env : Env F) (gs : list (GeneratedPost F)) (w : World F) :
  exists rs w' evs,
    post_tweets_batch env gs w = (Ok rs, w')
    /\ w_trace w' = w_trace w ++ evs
    /\ forall op,
         In (EvLedger op) evs <->
         exists i g,
           gs !! i = Some g
           /\ ((exists tid,
                  outcome env i g = Sent tid
                  /\ op = update_post_posted
                            (reddit_id (raw_post (scored_post g))))
               \/ (exists c e,
                     outcome env i g = ApiError c e
                     /\ op = update_post_failed
                               (reddit_id (raw_post (scored_post g))))).
Proof.
  destruct (post_tweets_batch_outcome env gs w) as (rs & w' & H & _ & _ & Ht).
  exists rs, w', (batch_calls env (length gs) 0 gs).
  split; [exact H|]. split; [exact Ht|].
  intros op. rewrite batch_calls_ledger. cbn [Nat.add].
  split.
  - intros (i & g & Hi & Hin). exists i, g. split; [exact Hi|].
    destruct (outcome env i g) as [| |tid| |c e]; cbn in Hin;
      try contradiction.
    + destruct Hin as [Hin|[Hin|[]]]; [discriminate|].
      injection Hin as <-. left. eauto.
    + destruct Hin as [Hin|[]]. discriminate.
    + destruct Hin as [Hin|[Hin|[]]]; [discriminate|].
      injection Hin as <-. right. eauto.
  - intros (i & g & Hi & [(tid & Ho & ->)|(c & e & Ho & ->)]);
      exists i, g; (split; [exact Hi|]); rewrite Ho; cbn; auto.
Qed.

(* ================================================================== *)
(** * Generated text *)

Lemma length_append (s1 s2 : string) :
  String.length (s1 +:+ s2) = (String.length s1 + String.length s2)%nat.
Proof.
  induction s1 as [|c s1 IH]; [reflexivity|].
  change (String c s1 +:+ s2) with (String c (s1 +:+ s2)).
  cbn [String.length Nat.add]. f_equal. exact IH.
Qed.

Lemma length_substring_0 (n : nat) : forall s,
  String.length (substring 0 n s) = Nat.min n (String.length s).
Proof.
  induction n as [|n IH]; intros [|c s]; try reflexivity.
  cbn [substring String.length Nat.min]. f_equal. apply IH.
Qed.

Lemma shorten_fits (t : string) : (String.length (shorten t) <= 280)%nat.
Proof.
  unfold shorten. destruct (280 <? String.length t)%nat eqn:E.
  - apply Nat.ltb_lt in E. rewrite length_append, length_substring_0.
    cbn [String.length]. lia.
  - apply Nat.ltb_ge in E. exact E.
Qed.

Lemma truthy_Some (t : string) : truthy (Some t) = true <-> t <> "".
Proof.
  cbn. rewrite negb_true_iff. split.
  - intros H E. subst t. discriminate H.
  - intros H. apply String.eqb_neq, H.
Qed.

Lemma list_ascii_of_string_append (a b : string) :
  list_ascii_of_string (a +:+ b)
  = list_ascii_of_string a ++ list_ascii_of_string b.
Proof.
  induction a as [|c a IH]; [reflexivity|].
  change (String c a +:+ b) with (String c (a +:+ b)).
  cbn [list_ascii_of_string app]. f_equal. exact IH.
Qed.

Lemma lstrip_chars_head (l : list ascii) :
  lstrip_chars l = []
  \/ exists c r, lstrip_chars l = c :: r /\ is_space c = false.
Proof.
  induction l as [|c l IH]; [left; reflexivity|].
  cbn [lstrip_chars]. destruct (is_space c) eqn:E; [exact IH|].
  right. eauto.
Qed.

Lemma lstrip_chars_fixed (c : ascii) (r : list ascii) :
  is_space c = false -> lstrip_chars (c :: r) = c :: r.
Proof. intros E. cbn [lstrip_chars]. rewrite E. reflexivity. Qed.

Lemma lstrip_chars_suffix (l : list ascii) :
  exists p, l = p ++ lstrip_chars l.
Proof.
  induction l as [|c l [p IH]]; [exists []; reflexivity|].
  cbn [lstrip_chars]. destruct (is_space c).
  - exists (c :: p). cbn. rewrite <- IH. reflexivity.
  - exists []. reflexivity.
Qed.

(** The characters [str.strip] keeps. *)
Lemma strip_chars_idempotent (l : list ascii) :
  let core l := rev (lstrip_chars (rev (lstrip_chars l))) in
  core (core l) = core l.
Proof.
  cbv beta zeta.
  set (a := lstrip_chars l).
  destruct (lstrip_chars_head (rev a)) as [Hb|(c & r & Hb & Hc)].
  - rewrite Hb. reflexivity.
  - set (b := lstrip_chars (rev a)) in *.
    destruct (lstrip_chars_suffix (rev a)) as [p Hp]. fold b in Hp.
    assert (Ha : a = rev b ++ rev p).
    { rewrite <- (rev_involutive a), Hp, rev_app_distr. reflexivity. }
    assert (Hrb : exists h t, rev b = h :: t /\ is_space h = false).
    { destruct (rev b) as [|h t] eqn:Erb.
      - apply (f_equal (@rev ascii)) in Erb. rewrite rev_involutive in Erb.
        rewrite Hb in Erb. discriminate Erb.
      - exists h, t. split; [reflexivity|].
        destruct (lstrip_chars_head l) as [Hl|(c' & r' & Hl & Hc')];
          fold a in Hl; rewrite Ha in Hl; cbn in Hl; [discriminate|].
        injection Hl as -> _. exact Hc'. }
    destruct Hrb as (h & t & Hrb & Hh).
    rewrite Hrb, (lstrip_chars_fixed _ _ Hh), <- Hrb, rev_involutive.
    rewrite Hb, (lstrip_chars_fixed _ _ Hc). reflexivity.
Qed.

Lemma strip_idempotent (s : string) : strip (strip s) = strip s.
Proof.
  unfold strip. rewrite list_ascii_of_string_of_list_ascii.
  f_equal. apply strip_chars_idempotent.
Qed.

Lemma strip_dots (s : string) : strip (s +:+ "...") <> "".
Proof.
  unfold strip. rewrite list_ascii_of_string_append.
  set (dots := list_ascii_of_string "...").
  assert (H1 : exists l', lstrip_chars (list_ascii_of_string s ++ dots)
                          = l' ++ dots).
  { induction (list_ascii_of_string s) as [|c l [l' IH]].
    - exists []. reflexivity.
    - cbn [app lstrip_chars]. destruct (is_space c).
      + exists l'. exact IH.
      + exists (c :: l). reflexivity. }
  destruct H1 as [l' ->]. rewrite rev_app_distr.
  change (rev dots) with ("."%char :: "."%char :: ["."%char]).
  cbn [app]. rewrite lstrip_chars_fixed by reflexivity.
  cbn [rev]. intros H.
  apply (f_equal list_ascii_of_string) in H.
  rewrite list_ascii_of_string_of_list_ascii in H.
  cbn [list_ascii_of_string] in H.
  apply List.app_eq_nil in H. destruct H as [_ H]. discriminate H.
Qed.

Lemma strip_shorten_strip (c : string) :
  shorten (strip c) <> "" -> strip (shorten (strip c)) <> "".
Proof.
  unfold shorten. destruct (280 <? String.length (strip c))%nat.
  - intros _. apply strip_dots.
  - rewrite strip_idempotent. auto.
Qed.

Lemma validate_valid_iff (tweet_text : string) :
  valid (validate_tweet_content tweet_text) = true <->
  (String.length tweet_text <= 280)%nat /\ strip tweet_text <> "".
Proof.
  unfold validate_tweet_content.
  destruct (280 <? String.length tweet_text)%nat eqn:E1;
    destruct (String.eqb (strip tweet_text) "") eqn:E2;
    destruct (existsb _ _);
    rewrite ?Nat.ltb_lt, ?Nat.ltb_ge, ?String.eqb_eq, ?String.eqb_neq in *;
    cbn [valid];
    (split; [try discriminate; auto | intros [A B]; try lia; try congruence;
                                      reflexivity]).
Qed.

(** X9.  The verdict of [validate_tweet_content]: a text is valid exactly
    when it has at most 280 characters and is not blank; a word of the
    policy list adds an issue but does not make the text invalid; and a
    text is invalid only with an issue listed. *)
Theorem validation_verdict (tweet_text : string) :
  let v := validate_tweet_content tweet_text in
  (valid v = true <->
   (String.length tweet_text <= 280)%nat /\ strip tweet_text <> "")
  /\ (valid v = false -> issues v <> [])
  /\ (In "Potential policy violation detected" (issues v) <->
      exists word, In word ["spam"; "scam"; "fake"]
                   /\ contains word (lower tweet_text) = true).
Proof.
  cbv zeta. unfold validate_tweet_content.
  destruct (280 <? String.length tweet_text)%nat eqn:E1;
    destruct (String.eqb (strip tweet_text) "") eqn:E2;
    destruct (existsb _ _) eqn:E3;
    rewrite ?Nat.ltb_lt, ?Nat.ltb_ge, ?String.eqb_eq, ?String.eqb_neq in *;
    cbn [valid issues app];
    (split; [|split]);
    try (split; [discriminate | intros [A B]; try lia; congruence]);
    try (split; [intros _; split; [lia | assumption] | reflexivity]);
    try (intros _; discriminate);
    try (intros H; discriminate H);
    try (apply existsb_exists in E3; destruct E3 as (word & Hin & Hc);
         split; [intros _; exists word; split; assumption
                | intros _; cbn; auto 10]);
    try (split;
         [ intros H; cbn in H;
           repeat (destruct H as [H|H]; [discriminate H|]);
           try contradiction
         | intros (word & Hin & Hc);
           assert (Hex : existsb (fun word => contains word (lower tweet_text))
                           ["spam"; "scam"; "fake"] = true)
             by (apply existsb_exists; exists word; split; assumption);
           congruence ]).
Qed.

(** X10.  Every text the Generate stage produces fits a tweet: it is not
    empty, has at most 280 characters, is not blank, and passes
    [validate_tweet_content]; so [post_tweet] never rejects it for its
    length, and with an initialised client every generated post is sent
    to the API exactly once, in order. *)
Theorem generated_tweets_fit {F : Type} {PF : PyFloat F}
  (env : Env F) (posts : list (ScoredPost F)) (w : World F) :
  exists out w',
    generate_tweets_batch env posts w = (Ok out, w')
    /\ Forall (fun g =>
                 (0 < String.length (tweet_text g) <= 280)%nat
                 /\ valid (validate_tweet_content (tweet_text g)) = true
                 /\ attempted env g = twitter_client env) out
    /\ (twitter_client env = true ->
        forall w2,
          exists rs w3 evs,
            post_tweets_batch env out w2 = (Ok rs, w3)
            /\ w_trace w3 = w_trace w2 ++ evs
            /\ tweets_in evs = map (fun g => EvCreateTweet (tweet_text g)) out).
Proof.
  destruct (generate_tweets_batch_run env posts w) as (out & w' & H & Hiso).
  exists out, w'. split; [exact H|].
  destruct Hiso as (_ & Hsound & _).
  assert (Hfit : Forall (fun g =>
                 (0 < String.length (tweet_text g) <= 280)%nat
                 /\ valid (validate_tweet_content (tweet_text g)) = true
                 /\ attempted env g = twitter_client env) out).
  { apply Forall_forall. intros g Hg.
    destruct (Hsound g Hg) as (i & _ & Hgen).
    unfold generated_text in Hgen.
    destruct (truthy (returned_text env i (scored_post g))) eqn:Et;
      [|discriminate].
    rewrite Hgen in Et. apply truthy_Some in Et.
    unfold returned_text in Hgen.
    destruct (completions_create env i (scored_post g)) as [[c|]|];
      try discriminate.
    injection Hgen as Hgen.
    pose proof (shorten_fits (strip c)) as Hlen. rewrite Hgen in Hlen.
    assert (Hblank : strip (tweet_text g) <> "").
    { rewrite <- Hgen. apply strip_shorten_strip. rewrite Hgen. exact Et. }
    split; [|split].
    - split; [|exact Hlen]. destruct (tweet_text g); [congruence | cbn; lia].
    - apply validate_valid_iff. auto.
    - unfold attempted.
      assert (E : (280 <? String.length (tweet_text g))%nat = false)
        by (apply Nat.ltb_ge; exact Hlen).
      rewrite E. apply andb_true_r. }
  split; [exact Hfit|].
  intros Hc w2.
  destruct (post_tweets_batch_run env out w2)
    as (rs & w3 & evs & H3 & _ & _ & Ht & Htw).
  exists rs, w3, evs. split; [exact H3|]. split; [exact Ht|].
  rewrite Htw. f_equal.
  clear -Hfit Hc. induction out as [|g out IH]; [reflexivity|].
  inversion Hfit as [|g' out' (_ & _ & Ha) Hrest]; subst.
  cbn [List.filter]. rewrite Ha, Hc. f_equal. apply IH, Hrest.
Qed.

(* ================================================================== *)
(** * Collecting and selecting *)

Section Collecting.
Context {F : Type} {PF : PyFloat F}.
Variable env : Env F.

Lemma for_each_db_quiet_run {A} (f : A -> DbOp) (l : list A) : forall w,
  exists w',
    for_each (fun a => db_quiet env (f a)) l w = (Ok tt, w')
    /\ w_state w' = w_state w
    /\ w_trace w' = w_trace w ++ map (fun a => EvLedger (f a)) l.
Proof.
  induction l as [|a l IH]; intros w.
  - exists w. cbn. rewrite app_nil_r. auto.
  - destruct (db_quiet_run env (f a) w) as (w1 & H1 & Hs1 & Ht1).
    destruct (IH w1) as (w2 & H2 & Hs2 & Ht2).
    exists w2. split; [|split].
    + cbn [for_each]. erewrite bind_ok; [|exact H1]. exact H2.
    + congruence.
    + rewrite Ht2, Ht1, <- app_assoc. reflexivity.
Qed.

Lemma filter_ledger_events {A} (p : Event -> bool) (f : A -> DbOp)
  (l : list A) :
  (forall op, p (EvLedger op) = false) ->
  List.filter p (map (fun a => EvLedger (f a)) l) = [].
Proof.
  intros Hp. induction l as [|a l IH]; [reflexivity|].
  cbn. rewrite Hp. exact IH.
Qed.

Lemma scrape_all_subreddits_run (wid : string) (w : World F) :
  exists w' evs,
    scrape_all_subreddits env wid w
    = (Ok (flat_map (collected env) (app_subreddits env)), w')
    /\ w_state w' = w_state w
    /\ w_trace w' = w_trace w ++ evs
    /\ List.filter is_scrape evs = map EvScrape (app_subreddits env)
    /\ List.filter is_sleep evs
       = repeat (EvSleep 1)
           (length (List.filter (scrape_succeeds env) (app_subreddits env))).
Proof.
  unfold scrape_all_subreddits.
  change (flat_map (collected env) (app_subreddits env))
    with ([] ++ flat_map (collected env) (app_subreddits env)).
  generalize (@nil (RawPost F)). revert w.
  induction (app_subreddits env) as [|sub rest IH]; intros w acc.
  - exists w, []. cbn. rewrite !app_nil_r. auto.
  - set (w0 := {| w_state := w_state w; w_reads := w_reads w;
                  w_trace := w_trace w ++ [EvScrape sub] |}).
    unfold collected at 1, scrape_succeeds.
    cbn [flat_map List.filter]. cbv beta iota fix.
    destruct (scrape_subreddit env sub) as [posts|c e] eqn:Es.
    + destruct (for_each_db_quiet_run
                  (fun p : RawPost F => save_post_record (reddit_id p))
                  posts w0) as (w1 & H1 & Hs1 & Ht1).
      set (w2 := {| w_state := w_state w1; w_reads := w_reads w1;
                    w_trace := w_trace w1 ++ [EvSleep 1] |}).
      destruct (IH w2 (acc ++ posts)) as (w' & evs & H & Hs & Ht & Hf1 & Hf2).
      exists w', ([EvScrape sub]
                  ++ map (fun p : RawPost F =>
                            EvLedger (save_post_record (reddit_id p))) posts
                  ++ [EvSleep 1] ++ evs).
      split; [|split; [|split; [|split]]].
      * erewrite bind_ok; cycle 1.
        { apply try_ok. erewrite bind_ok; [|reflexivity]. fold w0.
          rewrite ?Es. cbn [of_result].
          erewrite bind_ok; [|reflexivity].
          erewrite bind_ok; [|exact H1].
          erewrite bind_ok; [|reflexivity]. reflexivity. }
        fold w2. rewrite H, <- app_assoc. reflexivity.
      * rewrite Hs. cbn. rewrite Hs1. reflexivity.
      * rewrite Ht. cbn [w2 w_trace]. rewrite Ht1. cbn [w0 w_trace].
        rewrite <- !app_assoc. reflexivity.
      * rewrite !List.filter_app, filter_ledger_events by reflexivity.
        cbn. rewrite Hf1. reflexivity.
      * rewrite !List.filter_app, filter_ledger_events by reflexivity.
        cbn. rewrite Hf2. reflexivity.
    + destruct (IH w0 acc) as (w' & evs & H & Hs & Ht & Hf1 & Hf2).
      exists w', ([EvScrape sub] ++ evs).
      split; [|split; [|split; [|split]]].
      * erewrite bind_ok; cycle 1.
        { erewrite try_raise; cycle 1.
          { erewrite bind_ok; [|reflexivity]. fold w0. reflexivity. }
          reflexivity. }
        exact H.
      * rewrite Hs. reflexivity.
      * rewrite Ht. cbn [w0 w_trace]. rewrite <- app_assoc. reflexivity.
      * cbn. rewrite Hf1. reflexivity.
      * cbn. exact Hf2.
Qed.

End Collecting.

(** X11.  [scrape_all_subreddits] tries every configured group once, in the
    configured order, and returns the posts of the groups that could be
    scraped, in that order: a group whose scraping raises contributes
    nothing and does not stop the others, a failing ledger write loses no
    post, a pause of one second follows each group that was scraped, and
    the run state is not touched. *)
Theorem collect_failures_are_isolated {F : Type} {PF : PyFloat F}
  (env : Env F) (wid : string) (w : World F) :
  exists w' evs,
    scrape_all_subreddits env wid w
    = (Ok (flat_map (collected env) (app_subreddits env)), w')
    /\ w_state w' = w_state w
    /\ w_trace w' = w_trace w ++ evs
    /\ List.filter is_scrape evs = map EvScrape (app_subreddits env)
    /\ List.filter is_sleep evs
       = repeat (EvSleep 1)
           (length (List.filter (scrape_succeeds env) (app_subreddits env))).
Proof. apply scrape_all_subreddits_run. Qed.

(** ** Selecting by the threshold *)

Section Selecting.
Variable env : Env Q.

Lemma score_post_thresholded post w :
  exists sp,
    score_post env post w = (Ok sp, tick (tick (tick w)))
    /\ thresholded env sp.
Proof.
  unfold score_post.
  erewrite bind_ok; [|apply calculate_virality_score_run].
  erewrite bind_ok; [|reflexivity].
  eexists. split; reflexivity.
Qed.

Lemma score_posts_loop_thresholded posts : forall scored w,
  exists l w',
    score_posts_loop env posts scored w = (Ok (scored ++ l), w')
    /\ Forall (thresholded env) l.
Proof.
  induction posts as [|post rest IH]; intros scored w.
  - exists [], w. cbn. rewrite app_nil_r. auto.
  - destruct (score_post_thresholded post w) as (sp & Hrun & Hsp).
    destruct (IH (scored ++ [sp]) (tick (tick (tick w))))
      as (l & w' & Hloop & Hall).
    exists (sp :: l), w'. split.
    + cbn [score_posts_loop]. erewrite bind_ok; cycle 1.
      { unfold try_except. erewrite bind_ok; [|exact Hrun]. reflexivity. }
      rewrite Hloop, <- app_assoc. reflexivity.
    + constructor; assumption.
Qed.

Lemma above_threshold_prefix (l : list (ScoredPost Q)) :
  StronglySorted by_score_desc l ->
  Forall (thresholded env) l ->
  exists below,
    l = scorer_get_posts_above_threshold l ++ below
    /\ Forall (fun sp => score sp < app_min_score env) below
    /\ Forall (fun sp => app_min_score env <= score sp)
              (scorer_get_posts_above_threshold l).
Proof.
  unfold scorer_get_posts_above_threshold.
  induction l as [|p l IH]; intros Hs Ht.
  - exists []. repeat split; constructor.
  - inversion Hs as [|p' l' Hl Hp]; subst.
    inversion Ht as [|p' l' Hm Ht']; subst.
    destruct (IH Hl Ht') as (below & Heq & Hb & Ha).
    cbn [List.filter]. unfold thresholded in Hm. cbn [fleb exact] in Hm.
    destruct (meets_threshold p) eqn:Em.
    + symmetry in Hm. apply Qle_bool_iff in Hm.
      exists below. split; [cbn; f_equal; exact Heq|].
      split; [exact Hb|]. constructor; assumption.
    + assert (Hlow : score p < app_min_score env).
      { apply Qnot_le_lt. intros H. apply Qle_bool_iff in H. congruence. }
      assert (Hall : Forall (fun sp => score sp < app_min_score env) l).
      { eapply List.Forall_impl; [|exact Hp].
        intros q Hq. unfold by_score_desc in Hq. lra. }
      assert (Hnone : List.filter (fun p => meets_threshold p) l = []).
      { clear -Hall Ht'. induction l as [|q l IH]; [reflexivity|].
        inversion Hall as [|q' l' Hq Hall']; subst.
        inversion Ht' as [|q' l' Hm Ht'']; subst.
        cbn. unfold thresholded in Hm. cbn [fleb exact] in Hm.
        destruct (meets_threshold q).
        - symmetry in Hm. apply Qle_bool_iff in Hm. lra.
        - apply IH; assumption. }
      rewrite Hnone. exists (p :: l). split; [reflexivity|].
      split; constructor; assumption.
Qed.

End Selecting.

(** X12.  In exact arithmetic the posts that go on to content generation are
    the head of the list [score_posts] returns: the list is in
    descending order of score, every post with a score of at least the
    configured minimum comes before every post below it, and
    [get_posts_above_threshold] returns exactly the former, in the same
    order. *)
Theorem threshold_selects_the_head
  (env : Env Q) (posts : list (RawPost Q)) (w : World Q) :
  exists l below,
    fst (score_posts env posts w) = Ok l
    /\ l = scorer_get_posts_above_threshold l ++ below
    /\ StronglySorted by_score_desc l
    /\ Forall (fun sp => app_min_score env <= score sp)
              (scorer_get_posts_above_threshold l)
    /\ Forall (fun sp => score sp < app_min_score env) below.
Proof.
  destruct (score_posts_loop_thresholded env posts [] w)
    as (l0 & w' & Hloop & Hall).
  assert (Hs : StronglySorted by_score_desc (sort_by_score_desc l0))
    by apply sort_by_score_desc_sorted.
  assert (Ht : Forall (thresholded env) (sort_by_score_desc l0)).
  { eapply Permutation_Forall; [|exact Hall].
    symmetry. apply sort_by_score_desc_perm. }
  destruct (above_threshold_prefix env _ Hs Ht) as (below & Heq & Hb & Ha).
  exists (sort_by_score_desc l0), below.
  split; [|split; [exact Heq|split; [exact Hs|split; assumption]]].
  unfold score_posts. erewrite bind_ok; [|exact Hloop]. reflexivity.
Qed.

(* ================================================================== *)
(** * The run, stage by stage *)

Section StageEffects.
Context {F : Type} {PF : PyFloat F}.
Variable env : Env F.

Lemma insert_by_score_perm_any (p : ScoredPost F) (l : list (ScoredPost F)) :
  Permutation (insert_by_score p l) (p :: l).
Proof.
  induction l as [|q l IH]; cbn [insert_by_score]; [reflexivity|].
  destruct (fltb (score p) (score q)); [|reflexivity].
  rewrite IH. apply perm_swap.
Qed.

Lemma sort_by_score_desc_perm_any (l : list (ScoredPost F)) :
  Permutation (sort_by_score_desc l) l.
Proof.
  induction l as [|p l IH]; cbn; [reflexivity|].
  rewrite insert_by_score_perm_any, IH. reflexivity.
Qed.

Lemma score_post_result post w :
  match score_post env post w with
  | (Ok sp, _) => raw_post sp = post /\ thresholded env sp
  | (Raise _ _, _) => True
  end.
Proof.
  unfold score_post, bind.
  destruct (calculate_virality_score env post w) as [[s|c e] w1]; cbn;
    [split; reflexivity | exact I].
Qed.

Lemma score_posts_loop_any posts : forall scored w,
  exists l w',
    score_posts_loop env posts scored w = (Ok (scored ++ l), w')
    /\ (length l <= length posts)%nat
    /\ Forall (thresholded env) l
    /\ Forall (fun sp => In (raw_post sp) posts) l.
Proof.
  induction posts as [|post rest IH]; intros scored w.
  - exists [], w. cbn. rewrite app_nil_r. repeat split; constructor.
  - pose proof (score_post_result post w) as Hsp.
    destruct (score_post env post w) as [[sp|c e] w1] eqn:E.
    + destruct Hsp as [Hraw Hthr].
      destruct (IH (scored ++ [sp]) w1) as (l & w' & H & Hlen & Ht & Hin).
      exists (sp :: l), w'. split; [|split; [|split]].
      * cbn [score_posts_loop]. erewrite bind_ok; cycle 1.
        { apply try_ok. erewrite bind_ok; [|exact E]. reflexivity. }
        rewrite H, <- app_assoc. reflexivity.
      * cbn. lia.
      * constructor; assumption.
      * constructor; [left; symmetry; exact Hraw|].
        eapply List.Forall_impl; [|exact Hin]. intros q Hq. right. exact Hq.
    + destruct (IH scored w1) as (l & w' & H & Hlen & Ht & Hin).
      exists l, w'. split; [|split; [|split]].
      * cbn [score_posts_loop]. erewrite bind_ok; cycle 1.
        { erewrite try_raise; cycle 1.
          { erewrite bind_raise; [|exact E]. reflexivity. }
          reflexivity. }
        exact H.
      * cbn. lia.
      * exact Ht.
      * eapply List.Forall_impl; [|exact Hin]. intros q Hq. right. exact Hq.
Qed.

Lemma score_posts_any posts w :
  exists l w',
    score_posts env posts w = (Ok l, w')
    /\ (length l <= length posts)%nat
    /\ Forall (thresholded env) l
    /\ Forall (fun sp => In (raw_post sp) posts) l.
Proof.
  destruct (score_posts_loop_any posts [] w) as (l & w' & H & Hlen & Ht & Hin).
  pose proof (sort_by_score_desc_perm_any l) as Hp.
  exists (sort_by_score_desc l), w'. split; [|split; [|split]].
  - unfold score_posts. erewrite bind_ok; [|exact H]. reflexivity.
  - rewrite (Permutation_length Hp). exact Hlen.
  - eapply Permutation_Forall; [symmetry; exact Hp | exact Ht].
  - eapply Permutation_Forall; [symmetry; exact Hp | exact Hin].
Qed.

(** *** The calls of the Generate stage *)

Lemma generate_tweet_trace i post w :
  w_trace (snd (generate_tweet env i post w))
  = w_trace w ++ [generate_call post].
Proof.
  unfold generate_tweet, try_except, bind, emit, of_result, generate_call.
  destruct (completions_create env i post) as [[t|]|c e]; reflexivity.
Qed.

Lemma gather_tweets_trace posts : forall i w,
  w_trace (snd (gather_tweets env i posts w))
  = w_trace w ++ map generate_call posts.
Proof.
  induction posts as [|p rest IH]; intros i w.
  - cbn. rewrite app_nil_r. reflexivity.
  - cbn [gather_tweets map].
    destruct (generate_tweet_run env i p w) as [w1 H1].
    pose proof (generate_tweet_trace i p w) as Ht1. rewrite H1 in Ht1.
    cbn [snd] in Ht1.
    erewrite bind_ok; cycle 1.
    { unfold capture. erewrite bind_ok; [|exact H1]. reflexivity. }
    destruct (gather_tweets_run env rest (S i) w1) as [w2 H2].
    specialize (IH (S i) w1). rewrite H2 in IH. cbn [snd] in IH.
    erewrite bind_ok; [|exact H2]. cbn [ret snd].
    rewrite IH, Ht1, <- app_assoc. reflexivity.
Qed.

Lemma collect_generated_trace
  (rs : list (Result (ScoredPost F * option string))) : forall acc w,
  w_trace (snd (collect_generated env rs acc w)) = w_trace w.
Proof.
  induction rs as [|[[p t]|c e] rest IH]; intros acc w;
    cbn [collect_generated].
  - reflexivity.
  - destruct (truthy t); [|apply IH].
    unfold bind, utcnow. rewrite IH. reflexivity.
  - apply IH.
Qed.

Lemma generate_tweets_batch_trace posts w :
  w_trace (snd (generate_tweets_batch env posts w))
  = w_trace w ++ map generate_call posts.
Proof.
  unfold generate_tweets_batch.
  destruct (gather_tweets_run env posts 0 w) as [w1 H1].
  pose proof (gather_tweets_trace posts 0 w) as Ht. rewrite H1 in Ht.
  erewrite bind_ok; [|exact H1].
  rewrite collect_generated_trace. exact Ht.
Qed.

Lemma generates_in_app (t u : list Event) :
  generates_in (t ++ u) = generates_in t ++ generates_in u.
Proof. apply List.filter_app. Qed.

Lemma tweets_in_app (t u : list Event) :
  tweets_in (t ++ u) = tweets_in t ++ tweets_in u.
Proof. apply List.filter_app. Qed.

Lemma generates_in_generate_calls (posts : list (ScoredPost F)) :
  generates_in (map generate_call posts) = map generate_call posts.
Proof.
  unfold generates_in. induction posts as [|p l IH]; [reflexivity|].
  cbn. rewrite IH. reflexivity.
Qed.

Lemma tweets_in_generate_calls (posts : list (ScoredPost F)) :
  tweets_in (map generate_call posts) = [].
Proof.
  unfold tweets_in. induction posts as [|p l IH]; [reflexivity|].
  cbn. exact IH.
Qed.

(** *** Events the views do not see *)

Lemma silent_calls_view (e : Event) :
  is_generate e = false -> is_create_tweet e = false ->
  silent (calls_view (F:=F)) e.
Proof.
  intros Hg Ht s t. unfold calls_view.
  rewrite generates_in_app, tweets_in_app. cbn. rewrite Hg, Ht.
  rewrite !app_nil_r. reflexivity.
Qed.

Lemma silent_state_tweets (e : Event) :
  is_create_tweet e = false ->
  silent (fun (s : TrendState F) t => (s, tweets_in t)) e.
Proof.
  intros Ht s t. rewrite tweets_in_app. cbn. rewrite Ht, app_nil_r.
  reflexivity.
Qed.

Lemma silent_generates (e : Event) :
  is_generate e = false ->
  silent (fun (_ : TrendState F) t => generates_in t) e.
Proof.
  intros Hg s t. rewrite generates_in_app. cbn. rewrite Hg, app_nil_r.
  reflexivity.
Qed.

End StageEffects.

Section NodeEffects.
Context {F : Type} {PF : PyFloat F}.
Variable env : Env F.

Lemma fault_none n w : stage_fault env n = None -> fault env n w = (Ok tt, w).
Proof. intros H. unfold fault. rewrite H. reflexivity. Qed.

Lemma fault_some n e w :
  stage_fault env n = Some e -> fault env n w = (Raise Exception e, w).
Proof. intros H. unfold fault. rewrite H. reflexivity. Qed.

(** A node whose body raises marks the state failed and calls no
    collaborator. *)
Lemma failing_node_effect {A} (body : M F A) (k : A -> M F unit) n e w :
  stage_fault env n = Some e ->
  exists w',
    (modify_state (update_step (step_name n)) ;;
     try_except
       (fault env n ;; a <- body ;; k a)
       (fun _ msg => state_fail_workflow env (error_prefix n +:+ msg))) w
    = (Ok tt, w')
    /\ w_state w'
       = fail_workflow (error_prefix n +:+ e) (clock env (w_reads w))
           (update_step (step_name n) (w_state w))
    /\ w_trace w' = w_trace w ++ [EvAssignCompletedAt].
Proof.
  intros Hf. eexists. split; [|split].
  - erewrite bind_ok; [|reflexivity].
    erewrite try_raise; cycle 1.
    { erewrite bind_raise; [reflexivity|]. apply fault_some, Hf. }
    reflexivity.
  - reflexivity.
  - reflexivity.
Qed.

Lemma scrape_sources_node_effect w :
  exists w', scrape_sources_node env w = (Ok tt, w')
             /\ node_effect env scrape_sources w w'.
Proof.
  unfold node_effect. cbv zeta.
  destruct (stage_fault env scrape_sources) as [e|] eqn:Hf.
  - destruct (failing_node_effect
                (s <- get_state ;; scrape_all_subreddits env (workflow_id s))
                (fun raw => modify_state (add_raw_posts raw))
                scrape_sources e w Hf) as (w' & H & Hs & Ht).
    exists w'. split; [|split; [|split]].
    + unfold scrape_sources_node. rewrite <- H.
      unfold bind, try_except, fault. rewrite Hf. reflexivity.
    + eexists. exact Hs.
    + rewrite Ht, generates_in_app. cbn. apply app_nil_r.
    + rewrite Ht, tweets_in_app. cbn. apply app_nil_r.
  - set (w0 := {| w_state := update_step "scraping" (w_state w);
                  w_reads := w_reads w; w_trace := w_trace w |}).
    destruct (scrape_all_subreddits_run env (workflow_id (w_state w0)) w0)
      as (w1 & evs & H1 & Hs1 & _).
    destruct (calm_scrape_all_subreddits env calls_view
                (fun op => silent_calls_view (EvLedger op) eq_refl eq_refl)
                (fun sub => silent_calls_view (EvScrape sub) eq_refl eq_refl)
                (fun n => silent_calls_view (EvSleep n) eq_refl eq_refl)
                (workflow_id (w_state w0)) w0) as [_ Hv].
    rewrite H1 in Hv. cbn [snd] in Hv. unfold observe, calls_view in Hv.
    injection Hv as _ Hg Ht.
    eexists. split; [|split; [|split]].
    + unfold scrape_sources_node. erewrite bind_ok; [|reflexivity]. fold w0.
      apply try_ok. erewrite bind_ok; [|apply fault_none, Hf].
      erewrite bind_ok; [|reflexivity].
      erewrite bind_ok; [|exact H1]. reflexivity.
    + cbn [w_state]. rewrite Hs1. reflexivity.
    + cbn [w_trace]. exact Hg.
    + cbn [w_trace]. exact Ht.
Qed.

Lemma score_virality_node_effect w :
  exists w', score_virality_node env w = (Ok tt, w')
             /\ node_effect env score_virality w w'.
Proof.
  unfold node_effect. cbv zeta.
  destruct (stage_fault env score_virality) as [e|] eqn:Hf.
  - destruct (failing_node_effect
                get_state
                (fun s : TrendState F =>
                   match raw_posts s with
                   | [] => ret tt
                   | _ =>
                       scored <- score_posts env (raw_posts s) ;;
                       for_each
                         (fun sp =>
                            db_quiet env
                              (update_post_score (reddit_id (raw_post sp))))
                         scored ;;
                       modify_state (add_scored_posts scored)
                   end)
                score_virality e w Hf) as (w' & H & Hs & Ht).
    exists w'. split; [|split; [|split]].
    + exact H.
    + eexists. exact Hs.
    + rewrite Ht, generates_in_app. cbn. apply app_nil_r.
    + rewrite Ht, tweets_in_app. cbn. apply app_nil_r.
  - set (w0 := {| w_state := update_step "scoring" (w_state w);
                  w_reads := w_reads w; w_trace := w_trace w |}).
    change (raw_posts (w_state w)) with (raw_posts (w_state w0)).
    destruct (raw_posts (w_state w0)) as [|p ps] eqn:Hraw.
    + exists w0. split; [|split; [|split]]; try reflexivity.
      * unfold score_virality_node. erewrite bind_ok; [|reflexivity]. fold w0.
        apply try_ok. erewrite bind_ok; [|apply fault_none, Hf].
        erewrite bind_ok; [|reflexivity]. rewrite Hraw. reflexivity.
      * exists []. split; [cbn; lia|]. split; [constructor|].
        split; [constructor|]. right. auto.
    + destruct (score_posts_any env (p :: ps) w0)
        as (scored & w1 & H1 & Hlen & Hthr & Hin).
      destruct (calm_score_posts env calls_view (p :: ps) w0) as [_ Hv1].
      rewrite H1 in Hv1. cbn [snd] in Hv1.
      destruct (for_each_db_quiet_run env
                  (fun sp : ScoredPost F =>
                     update_post_score (reddit_id (raw_post sp)))
                  scored w1) as (w2 & H2 & Hs2 & Ht2).
      unfold observe, calls_view in Hv1. injection Hv1 as Hs1 Hg1 Htw1.
      eexists. split; [|split; [|split]].
      * unfold score_virality_node. erewrite bind_ok; [|reflexivity]. fold w0.
        apply try_ok. erewrite bind_ok; [|apply fault_none, Hf].
        erewrite bind_ok; [|reflexivity]. rewrite Hraw.
        erewrite bind_ok; [|exact H1].
        erewrite bind_ok; [|exact H2]. reflexivity.
      * exists scored. split; [exact Hlen|]. split; [exact Hthr|].
        split; [exact Hin|]. left. cbn [w_state]. rewrite Hs2, Hs1.
        reflexivity.
      * cbn [w_trace]. rewrite Ht2, generates_in_app.
        unfold generates_in at 2.
        rewrite filter_ledger_events by reflexivity.
        rewrite app_nil_r. exact Hg1.
      * cbn [w_trace]. rewrite Ht2, tweets_in_app.
        unfold tweets_in at 2.
        rewrite filter_ledger_events by reflexivity.
        rewrite app_nil_r. exact Htw1.
Qed.

Lemma generate_content_node_effect w :
  exists w', generate_content_node env w = (Ok tt, w')
             /\ node_effect env generate_content w w'.
Proof.
  unfold node_effect. cbv zeta.
  destruct (stage_fault env generate_content) as [e|] eqn:Hf.
  - destruct (failing_node_effect
                get_state
                (fun s : TrendState F =>
                   match get_posts_above_threshold s with
                   | [] => ret tt
                   | posts_to_generate =>
                       generated <- generate_tweets_batch env
                                      posts_to_generate ;;
                       for_each
                         (fun g =>
                            db_quiet env
                              (update_post_content
                                 (reddit_id (raw_post (scored_post g)))))
                         generated ;;
                       modify_state (add_generated_posts generated)
                   end)
                generate_content e w Hf) as (w' & H & Hs & Ht).
    exists w'. split; [|split; [|split]].
    + exact H.
    + eexists. exact Hs.
    + rewrite Ht, generates_in_app. cbn. apply app_nil_r.
    + rewrite Ht, tweets_in_app. cbn. apply app_nil_r.
  - set (w0 := {| w_state := update_step "generating" (w_state w);
                  w_reads := w_reads w; w_trace := w_trace w |}).
    change (get_posts_above_threshold (w_state w))
      with (get_posts_above_threshold (w_state w0)).
    destruct (get_posts_above_threshold (w_state w0)) as [|p ps] eqn:Hposts.
    + exists w0. split; [|split; [|split]]; try reflexivity.
      * unfold generate_content_node. erewrite bind_ok; [|reflexivity].
        fold w0.
        apply try_ok. erewrite bind_ok; [|apply fault_none, Hf].
        erewrite bind_ok; [|reflexivity]. rewrite Hposts. reflexivity.
      * exists []. split; [|right; auto].
        destruct (generate_tweets_batch_run env [] w0) as (out & w1 & H & Hiso).
        cbn in H. injection H as <- _. exact Hiso.
      * cbn. rewrite app_nil_r. reflexivity.
    + destruct (generate_tweets_batch_run env (p :: ps) w0)
        as (out & w1 & H1 & Hiso).
      pose proof (generate_tweets_batch_trace env (p :: ps) w0) as Ht1.
      destruct (calm_generate_tweets_batch env
                  (fun (s : TrendState F) (_ : list Event) => s)
                  (fun rid s t => eq_refl) (p :: ps) w0) as [_ Hs1].
      rewrite H1 in Ht1, Hs1. cbn [snd] in Ht1, Hs1. unfold observe in Hs1.
      destruct (for_each_db_quiet_run env
                  (fun g : GeneratedPost F =>
                     update_post_content
                       (reddit_id (raw_post (scored_post g))))
                  out w1) as (w2 & H2 & Hs2 & Ht2).
      eexists. split; [|split; [|split]].
      * unfold generate_content_node. erewrite bind_ok; [|reflexivity].
        fold w0.
        apply try_ok. erewrite bind_ok; [|apply fault_none, Hf].
        erewrite bind_ok; [|reflexivity]. rewrite Hposts.
        erewrite bind_ok; [|exact H1].
        erewrite bind_ok; [|exact H2]. reflexivity.
      * exists out. split; [exact Hiso|]. left.
        cbn [w_state]. rewrite Hs2, Hs1. reflexivity.
      * cbn [w_trace]. rewrite Ht2, Ht1, !generates_in_app.
        unfold generates_in at 3.
        rewrite filter_ledger_events by reflexivity.
        rewrite app_nil_r, generates_in_generate_calls. reflexivity.
      * cbn [w_trace]. rewrite Ht2, Ht1, !tweets_in_app.
        unfold tweets_in at 3.
        rewrite filter_ledger_events by reflexivity.
        rewrite tweets_in_generate_calls, !app_nil_r. reflexivity.
Qed.

Lemma post_content_node_effect w :
  exists w', post_content_node env w = (Ok tt, w')
             /\ node_effect env post_content w w'.
Proof.
  unfold node_effect. cbv zeta.
  destruct (stage_fault env post_content) as [e|] eqn:Hf.
  - destruct (failing_node_effect
                get_state
                (fun s : TrendState F =>
                   match generated_posts s with
                   | [] => ret tt
                   | gs =>
                       rs <- post_tweets_batch env gs ;;
                       modify_state (add_results rs)
                   end)
                post_content e w Hf) as (w' & H & Hs & Ht).
    exists w'. split; [|split; [|split]].
    + exact H.
    + eexists. exact Hs.
    + rewrite Ht, generates_in_app. cbn. apply app_nil_r.
    + rewrite Ht, tweets_in_app. cbn. apply app_nil_r.
  - set (w0 := {| w_state := update_step "posting" (w_state w);
                  w_reads := w_reads w; w_trace := w_trace w |}).
    change (generated_posts (w_state w)) with (generated_posts (w_state w0)).
    destruct (post_tweets_batch_run env (generated_posts (w_state w0)) w0)
      as (rs & w1 & evs & H1 & Hiso & Hs1 & Ht1 & Htw).
    destruct (calm_post_tweets_batch env
                (fun (_ : TrendState F) t => generates_in t)
                (fun op => silent_generates (EvLedger op) eq_refl)
                (fun n => silent_generates (EvSleep n) eq_refl)
                (fun text => silent_generates (EvCreateTweet text) eq_refl)
                (generated_posts (w_state w0)) w0) as [_ Hg1].
    rewrite H1 in Hg1. cbn [snd] in Hg1. unfold observe in Hg1.
    destruct (generated_posts (w_state w0)) as [|g gs] eqn:Hgs.
    + exists w0. split; [|split; [|split]]; try reflexivity.
      * unfold post_content_node. erewrite bind_ok; [|reflexivity]. fold w0.
        apply try_ok. erewrite bind_ok; [|apply fault_none, Hf].
        erewrite bind_ok; [|reflexivity]. rewrite Hgs. reflexivity.
      * exists []. split; [|right; auto].
        cbn in H1. injection H1 as <- _. exact Hiso.
      * cbn. rewrite app_nil_r. reflexivity.
    + eexists. split; [|split; [|split]].
      * unfold post_content_node. erewrite bind_ok; [|reflexivity]. fold w0.
        apply try_ok. erewrite bind_ok; [|apply fault_none, Hf].
        erewrite bind_ok; [|reflexivity]. rewrite Hgs.
        erewrite bind_ok; [|exact H1]. reflexivity.
      * exists rs. split; [exact Hiso|]. left.
        cbn [w_state]. rewrite Hs1. reflexivity.
      * cbn [w_trace]. exact Hg1.
      * cbn [w_trace]. rewrite Ht1, tweets_in_app, Htw. reflexivity.
Qed.

Lemma run_node_effect n w :
  exists w', run_node env n w = (Ok tt, w') /\ node_effect env n w w'.
Proof.
  destruct n; cbn [run_node].
  - apply scrape_sources_node_effect.
  - apply score_virality_node_effect.
  - apply generate_content_node_effect.
  - apply post_content_node_effect.
Qed.

(** Running the graph: if what every node does carries the invariant
    [J] of its entry to the next node, or to [final] at the end, then
    the graph ends in [final]. *)
Lemma ainvoke_invariant
  (J : Node -> World F -> Prop) (final : World F -> Prop) :
  (forall n w w',
      J n w -> node_effect env n w w' ->
      match next_node n (w_state w') with
      | Some n' => J n' w'
      | None => final w'
      end) ->
  forall limit n w,
    (remaining n <= limit)%nat -> J n w ->
    exists w', ainvoke env limit n w = (Ok tt, w') /\ final w'.
Proof.
  intros Hstep. induction limit as [|limit IH]; intros n w Hlim HJ.
  - destruct n; cbn in Hlim; lia.
  - destruct (run_node_effect n w) as (w1 & H1 & He).
    specialize (Hstep n w w1 HJ He).
    cbn [ainvoke]. erewrite bind_ok; [|exact H1].
    erewrite bind_ok; [|reflexivity].
    destruct (next_node n (w_state w1)) as [n'|] eqn:En.
    + apply IH; [|exact Hstep].
      apply next_node_closer in En. lia.
    + exists w1. split; [reflexivity | exact Hstep].
Qed.

End NodeEffects.

Section GraphInvariant.
Context {F : Type} {PF : PyFloat F}.
Variable env : Env F.
Variables g0 t0 : list Event.

Lemma prefix_truthy n e : truthy (Some (error_prefix n +:+ e)) = true.
Proof. destruct n; reflexivity. Qed.

Lemma funnel_marked (s : TrendState F) msg now x :
  funnel env s -> funnel env (fail_workflow msg now (update_step x s)).
Proof. intros H. exact H. Qed.

Lemma stage_inv_funnel n (s : TrendState F) :
  counters_agree s -> stage_inv env n s -> funnel env s.
Proof.
  intros Hc Hn. unfold funnel. split; [exact Hc|]. clear Hc.
  unfold scored_ok, generated_ok, results_ok, get_posts_above_threshold in *.
  destruct n; cbn [stage_inv] in Hn.
  - destruct Hn as (-> & -> & -> & ->). cbn.
    repeat split; try constructor.
  - destruct Hn as (-> & -> & ->). cbn.
    repeat split; try constructor; lia.
  - destruct Hn as (-> & -> & Hs). cbn.
    split; [exact Hs|]. repeat split; try constructor; lia.
  - destruct Hn as (-> & Hs & Hg). cbn.
    split; [exact Hs|]. split; [exact Hg|].
    repeat split; try constructor; lia.
Qed.

Lemma generation_isolated_bounds posts (out : list (GeneratedPost F)) :
  generation_isolated env posts out ->
  (length out <= length posts)%nat
  /\ Forall (fun g => In (scored_post g) posts) out.
Proof.
  intros (_ & Hsound & Hsub). split.
  - apply sublist_length in Hsub. rewrite length_map in Hsub. exact Hsub.
  - apply Forall_forall. intros g Hg.
    destruct (Hsound g Hg) as (i & Hi & _).
    apply list_elem_of_In. eapply list_elem_of_lookup_2. exact Hi.
Qed.

Lemma publish_isolated_bounds gs (rs : list (PostResult F)) :
  publish_isolated env gs rs ->
  length rs = length gs
  /\ Forall (fun r => (status r = POSTED \/ status r = FAILED)
                      /\ In (generated_post r) gs) rs.
Proof.
  intros [Hlen Hall]. split; [exact Hlen|].
  apply Forall_forall. intros r Hr.
  apply list_elem_of_lookup_1 in Hr. destruct Hr as [i Hi].
  assert (Hlt : (i < length gs)%nat).
  { rewrite <- Hlen. eapply lookup_lt_Some. exact Hi. }
  apply lookup_lt_is_Some_2 in Hlt. destruct Hlt as [g Hg].
  destruct (Hall i g Hg) as (r' & Hr' & Hgp & Hp & Hf).
  rewrite Hi in Hr'. injection Hr' as <-. split.
  - destruct (published env i g); [left; auto | right; apply Hf; reflexivity].
  - rewrite Hgp. apply list_elem_of_In. eapply list_elem_of_lookup_2.
    exact Hg.
Qed.

Lemma graph_exit_failed n e (w w' : World F) now :
  stage_fault env n = Some e ->
  graph_entry env g0 t0 n w ->
  w_state w'
  = fail_workflow (error_prefix n +:+ e) now
      (update_step (step_name n) (w_state w)) ->
  generates_in (w_trace w') = generates_in (w_trace w) ->
  tweets_in (w_trace w') = tweets_in (w_trace w) ->
  graph_exit env g0 t0 w'.
Proof.
  intros Hf (Hc & He & Hst & Hinv & Ht & Hg) Hs Hg' Ht'.
  unfold graph_exit. rewrite Hs.
  split; [apply funnel_marked, (stage_inv_funnel n), Hinv; exact Hc|].
  split; [exact Hst|].
  split; [right; apply prefix_truthy|].
  split; [intros Hno; rewrite (Hno n) in Hf; discriminate Hf|].
  exists (match n with
          | post_content => get_posts_above_threshold (w_state w)
          | _ => []
          end), [].
  rewrite Hg', Ht', Hg, Ht, Hs. cbn [map]. rewrite app_nil_r.
  split; [destruct n; reflexivity|]. split; [reflexivity|].
  split; [destruct n; auto|]. split; [left; reflexivity|].
  intros Hno. rewrite (Hno n) in Hf. discriminate Hf.
Qed.

Lemma graph_step n (w w' : World F) :
  graph_entry env g0 t0 n w -> node_effect env n w w' ->
  match next_node n (w_state w') with
  | Some n' => graph_entry env g0 t0 n' w'
  | None => graph_exit env g0 t0 w'
  end.
Proof.
  intros Hentry Heff. unfold node_effect in Heff. cbv zeta in Heff.
  destruct (stage_fault env n) as [e|] eqn:Hf.
  { destruct Heff as ([now Hs] & Hg' & Ht').
    rewrite truthy_ends by (rewrite Hs; apply prefix_truthy).
    eapply graph_exit_failed; eassumption. }
  pose proof Hentry as (Hc & He & Hst & Hinv & Ht & Hg).
  destruct n; cbn [stage_inv step_name] in *.
  - (* scrape_sources *)
    destruct Heff as (Hs & Hg' & Ht').
    destruct Hinv as (Hraw & Hsc & Hgen & Hres).
    set (raw := flat_map (collected env) (app_subreddits env)) in *.
    assert (Hc' : counters_agree (w_state w')).
    { rewrite Hs.
      apply (counters_agree_call _ (call_add_raw_posts raw)).
      apply (counters_agree_call _ (call_update_step "scraping")), Hc. }
    cbn [next_node]. unfold should_continue_to_scoring.
    rewrite Hs. cbn [error_message add_raw_posts update_step raw_posts].
    rewrite He, Hraw. cbn [truthy app].
    destruct raw as [|p ps] eqn:Eraw.
    + unfold graph_exit.
      assert (Hinv' : stage_inv env scrape_sources (w_state w')).
      { rewrite Hs. cbn. rewrite Hraw. auto. }
      split; [apply (stage_inv_funnel scrape_sources); assumption|].
      split; [rewrite Hs; exact Hst|].
      split; [left; rewrite Hs; exact He|].
      split; [intros _; rewrite Hs; exact He|].
      exists [], []. rewrite Hg', Ht', Hg, Ht. cbn [map].
      unfold get_posts_above_threshold. rewrite Hs. cbn. rewrite Hsc, Hgen.
      rewrite ?app_nil_r; repeat split; auto.
    + unfold graph_entry.
      split; [exact Hc'|]. rewrite Hs.
      split; [exact He|]. split; [exact Hst|].
      split; [cbn; auto|]. rewrite Hg', Ht'. auto.
  - (* score_virality *)
    destruct Heff as ((scored & Hlen & Hthr & Hin & Hs) & Hg' & Ht').
    destruct Hinv as (Hsc & Hgen & Hres).
    assert (Hs' : w_state w'
                  = add_scored_posts scored
                      (update_step "scoring" (w_state w))
                  \/ scored = []
                     /\ w_state w' = update_step "scoring" (w_state w)).
    { destruct Hs as [Hs|(_ & Hs1 & Hs2)]; auto. }
    clear Hs.
    assert (Hc' : counters_agree (w_state w')).
    { destruct Hs' as [Hs|[_ Hs]]; rewrite Hs.
      - apply (counters_agree_call _ (call_add_scored_posts scored)).
        apply (counters_agree_call _ (call_update_step "scoring")), Hc.
      - apply (counters_agree_call _ (call_update_step "scoring")), Hc. }
    assert (Hlists : raw_posts (w_state w') = raw_posts (w_state w)
                     /\ scored_posts (w_state w') = scored
                     /\ generated_posts (w_state w') = []
                     /\ results (w_state w') = []
                     /\ error_message (w_state w') = None
                     /\ started_at (w_state w') = started_at (w_state w)).
    { destruct Hs' as [Hs|[-> Hs]]; rewrite Hs; cbn;
        rewrite ?Hsc, ?Hgen, ?Hres, ?He; auto 10. }
    destruct Hlists as (Lraw & Lsc & Lgen & Lres & Lerr & Lst).
    assert (Hok : scored_ok env (w_state w')).
    { unfold scored_ok. rewrite Lraw, Lsc. split; [exact Hlen|].
      apply Forall_forall. intros sp Hsp.
      rewrite Forall_forall in Hthr, Hin. split; [apply Hthr | apply Hin];
        exact Hsp. }
    cbn [next_node]. unfold should_continue_to_generation.
    rewrite Lerr. cbn [truthy].
    destruct (get_posts_above_threshold (w_state w')) as [|p ps] eqn:Eab.
    + unfold graph_exit.
      assert (Hinv' : stage_inv env generate_content (w_state w'))
        by (cbn; auto).
      split; [apply (stage_inv_funnel generate_content); assumption|].
      split; [rewrite Lst; exact Hst|].
      split; [left; exact Lerr|].
      split; [intros _; exact Lerr|].
      exists [], []. rewrite Hg', Ht', Hg, Ht, Eab, Lgen. cbn [map].
      rewrite ?app_nil_r; repeat split; auto.
    + unfold graph_entry.
      split; [exact Hc'|]. split; [exact Lerr|].
      split; [rewrite Lst; exact Hst|].
      split; [cbn; auto|]. rewrite Hg', Ht'. auto.
  - (* generate_content *)
    destruct Heff as ((out & Hiso & Hs) & Hg' & Ht').
    destruct Hinv as (Hgen & Hres & Hsok).
    destruct (generation_isolated_bounds _ _ Hiso) as [Hlen Hin].
    assert (Hs' : w_state w'
                  = add_generated_posts out
                      (update_step "generating" (w_state w))
                  \/ out = []
                     /\ w_state w' = update_step "generating" (w_state w)).
    { destruct Hs as [Hs|(_ & Hs1 & Hs2)]; auto. }
    clear Hs.
    assert (Hc' : counters_agree (w_state w')).
    { destruct Hs' as [Hs|[_ Hs]]; rewrite Hs.
      - apply (counters_agree_call _ (call_add_generated_posts out)).
        apply (counters_agree_call _ (call_update_step "generating")), Hc.
      - apply (counters_agree_call _ (call_update_step "generating")), Hc. }
    assert (Hlists : raw_posts (w_state w') = raw_posts (w_state w)
                     /\ scored_posts (w_state w') = scored_posts (w_state w)
                     /\ generated_posts (w_state w') = out
                     /\ results (w_state w') = []
                     /\ error_message (w_state w') = None
                     /\ started_at (w_state w') = started_at (w_state w)).
    { destruct Hs' as [Hs|[-> Hs]]; rewrite Hs; cbn;
        rewrite ?Hgen, ?Hres, ?He; auto 10. }
    destruct Hlists as (Lraw & Lsc & Lgen & Lres & Lerr & Lst).
    assert (Lab : get_posts_above_threshold (w_state w')
                  = get_posts_above_threshold (w_state w)).
    { unfold get_posts_above_threshold. rewrite Lsc. reflexivity. }
    assert (Hsok' : scored_ok env (w_state w')).
    { unfold scored_ok in *. rewrite Lraw, Lsc. exact Hsok. }
    assert (Hgok : generated_ok (w_state w')).
    { unfold generated_ok. rewrite Lab, Lgen. split; assumption. }
    cbn [next_node]. unfold should_continue_to_posting.
    rewrite Lerr. cbn [truthy]. rewrite Lgen.
    destruct out as [|g gs] eqn:Eout.
    + unfold graph_exit.
      assert (Hinv' : stage_inv env post_content (w_state w'))
        by (cbn; auto).
      split; [apply (stage_inv_funnel post_content); assumption|].
      split; [rewrite Lst; exact Hst|].
      split; [left; exact Lerr|].
      split; [intros _; exact Lerr|].
      exists (get_posts_above_threshold (w_state w)), [].
      rewrite Hg', Ht', Hg, Ht, Lab, Lgen. cbn [map app List.filter].
      rewrite app_nil_r. rewrite ?app_nil_r; repeat split; auto.
    + unfold graph_entry.
      split; [exact Hc'|]. split; [exact Lerr|].
      split; [rewrite Lst; exact Hst|].
      split; [cbn; auto|]. rewrite Hg', Ht', Hg, Ht, Lab.
      rewrite app_nil_r. auto.
  - (* post_content *)
    destruct Heff as ((rs & Hiso & Hs) & Hg' & Ht').
    destruct Hinv as (Hres & Hsok & Hgok).
    destruct (publish_isolated_bounds _ _ Hiso) as [Hlen Hin].
    assert (Hs' : w_state w'
                  = add_results rs (update_step "posting" (w_state w))
                  \/ rs = []
                     /\ w_state w' = update_step "posting" (w_state w)).
    { destruct Hs as [Hs|(_ & Hs1 & Hs2)]; auto. }
    clear Hs.
    assert (Hc' : counters_agree (w_state w')).
    { destruct Hs' as [Hs|[_ Hs]]; rewrite Hs.
      - apply (counters_agree_call _ (call_add_results rs)).
        apply (counters_agree_call _ (call_update_step "posting")), Hc.
      - apply (counters_agree_call _ (call_update_step "posting")), Hc. }
    assert (Hlists : raw_posts (w_state w') = raw_posts (w_state w)
                     /\ scored_posts (w_state w') = scored_posts (w_state w)
                     /\ generated_posts (w_state w')
                        = generated_posts (w_state w)
                     /\ results (w_state w') = rs
                     /\ error_message (w_state w') = None
                     /\ started_at (w_state w') = started_at (w_state w)).
    { destruct Hs' as [Hs|[-> Hs]]; rewrite Hs; cbn;
        rewrite ?Hres, ?He; auto 10. }
    destruct Hlists as (Lraw & Lsc & Lgen & Lres & Lerr & Lst).
    assert (Lab : get_posts_above_threshold (w_state w')
                  = get_posts_above_threshold (w_state w)).
    { unfold get_posts_above_threshold. rewrite Lsc. reflexivity. }
    cbn [next_node]. unfold graph_exit.
    split.
    { unfold funnel. split; [exact Hc'|].
      unfold scored_ok, generated_ok, results_ok in *.
      rewrite Lab, Lraw, Lsc, Lgen, Lres.
      split; [exact Hsok|]. split; [exact Hgok|].
      split; [lia | exact Hin]. }
    split; [rewrite Lst; exact Hst|].
    split; [left; exact Lerr|].
    split; [intros _; exact Lerr|].
    exists (get_posts_above_threshold (w_state w)),
           (List.filter (attempted env) (generated_posts (w_state w))).
    rewrite Hg', Ht', Hg, Ht, Lab, Lgen. rewrite ?app_nil_r; repeat split; auto.
Qed.

Lemma graph_run (w : World F) :
  graph_entry env g0 t0 scrape_sources w ->
  exists w',
    ainvoke env recursion_limit scrape_sources w = (Ok tt, w')
    /\ graph_exit env g0 t0 w'.
Proof.
  intros H.
  apply (ainvoke_invariant env (graph_entry env g0 t0) (graph_exit env g0 t0)
           graph_step recursion_limit scrape_sources w); [|exact H].
  cbn. unfold recursion_limit. lia.
Qed.

End GraphInvariant.

Section RunOutcomes.
Context {F : Type} {PF : PyFloat F}.
Variable env : Env F.
Variables g0 t0 : list Event.

Lemma exit_of_entry (w : World F) :
  graph_entry env g0 t0 scrape_sources w -> graph_exit env g0 t0 w.
Proof.
  intros (Hc & He & Hst & Hinv & Ht & Hg).
  split; [apply (stage_inv_funnel env scrape_sources); assumption|].
  split; [exact Hst|]. split; [left; exact He|].
  split; [intros _; exact He|].
  destruct Hinv as (Hraw & Hsc & Hgen & Hres).
  exists [], []. rewrite Hg, Ht. unfold get_posts_above_threshold.
  rewrite Hsc, Hgen. cbn. rewrite ?app_nil_r. repeat split; auto.
Qed.

(** The terminal marking keeps what the graph established. *)
Lemma outcome_of_exit (w3 w' : World F) :
  graph_exit env g0 t0 w3 ->
  generates_in (w_trace w') = generates_in (w_trace w3) ->
  tweets_in (w_trace w') = tweets_in (w_trace w3) ->
  (exists now,
      w_state w' = complete_workflow now (w_state w3)
      /\ error_message (w_state w3) = None
      \/ exists msg, w_state w' = fail_workflow msg now (w_state w3)
                     /\ truthy (Some msg) = true) ->
  run_outcome env g0 t0 w'.
Proof.
  intros (Hfun & Hst & Herr & Hno & called & sent & Hg & Ht & Hc1 & Hc2 & Hc3)
         Hg' Ht' [now Hs].
  assert (Hlists : funnel env (w_state w')
                   /\ started_at (w_state w') = started_at (w_state w3)
                   /\ is_Some (completed_at (w_state w'))
                   /\ get_posts_above_threshold (w_state w')
                      = get_posts_above_threshold (w_state w3)
                   /\ generated_posts (w_state w')
                      = generated_posts (w_state w3)).
  { destruct Hs as [[Hs _]|(msg & Hs & _)]; rewrite Hs;
      (split; [exact Hfun|]); cbn; eauto. }
  destruct Hlists as (Hfun' & Lst & Hcompl & Lab & Lgen).
  unfold run_outcome. cbv zeta.
  split; [exact Hfun'|]. split; [rewrite Lst; exact Hst|].
  split; [exact Hcompl|]. split.
  - exists called, sent. rewrite Hg', Ht', Lab, Lgen. auto.
  - destruct Hs as [[Hs He]|(msg & Hs & Hm)]; rewrite Hs; cbn; auto.
Qed.

Lemma state_fail_workflow_run msg (w : World F) :
  state_fail_workflow env msg w
  = (Ok tt, {| w_state := fail_workflow msg (clock env (w_reads w)) (w_state w);
               w_reads := S (w_reads w);
               w_trace := w_trace w ++ [EvAssignCompletedAt] |}).
Proof. reflexivity. Qed.

Lemma state_complete_workflow_run (w : World F) :
  state_complete_workflow env w
  = (Ok tt, {| w_state := complete_workflow (clock env (w_reads w)) (w_state w);
               w_reads := S (w_reads w);
               w_trace := w_trace w ++ [EvAssignCompletedAt] |}).
Proof. reflexivity. Qed.

Lemma calls_after_ledger (w : World F) (evs : list Event) :
  Forall (fun e => is_generate e = false /\ is_create_tweet e = false) evs ->
  generates_in (w_trace w ++ evs) = generates_in (w_trace w)
  /\ tweets_in (w_trace w ++ evs) = tweets_in (w_trace w).
Proof.
  intros H. rewrite generates_in_app, tweets_in_app.
  assert (Hn : generates_in evs = [] /\ tweets_in evs = []).
  { induction H as [|e l [He1 He2] _ [IH1 IH2]]; [split; reflexivity|].
    unfold generates_in, tweets_in in *. cbn. rewrite He1, He2. auto. }
  destruct Hn as [-> ->]. rewrite !app_nil_r. auto.
Qed.

(** The [except] branch of [run_workflow] after the graph has left
    [w3] (or before it has started). *)
Lemma except_outcome e (w3 w : World F) :
  graph_exit env g0 t0 w3 ->
  w_state w = w_state w3 ->
  generates_in (w_trace w) = generates_in (w_trace w3) ->
  tweets_in (w_trace w) = tweets_in (w_trace w3) ->
  exists w',
    (db_quiet env (db_fail_workflow (fresh_workflow_id env)
                     ("Workflow " +:+ fresh_workflow_id env
                        +:+ " failed: " +:+ e)) ;;
     state_fail_workflow env
       ("Workflow " +:+ fresh_workflow_id env +:+ " failed: " +:+ e)) w
    = (Ok tt, w')
    /\ run_outcome env g0 t0 w'.
Proof.
  intros Hexit Hs Hg Ht.
  match goal with |- context [db_quiet env ?op] =>
    destruct (db_quiet_run env op w) as (w1 & H1 & Hs1 & Ht1) end.
  eexists. split.
  - erewrite bind_ok; [|exact H1]. apply state_fail_workflow_run.
  - destruct (calls_after_ledger w
                [EvLedger (db_fail_workflow (fresh_workflow_id env)
                             ("Workflow " +:+ fresh_workflow_id env
                                +:+ " failed: " +:+ e));
                 EvAssignCompletedAt]) as [Hg1 Htw1].
    { repeat constructor. }
    apply (outcome_of_exit w3); [exact Hexit| | |].
    + cbn [w_trace]. rewrite Ht1, <- app_assoc. cbn [app].
      rewrite Hg1. exact Hg.
    + cbn [w_trace]. rewrite Ht1, <- app_assoc. cbn [app].
      rewrite Htw1. exact Ht.
    + eexists. right. eexists. split.
      * cbn [w_state]. rewrite Hs1, Hs. reflexivity.
      * reflexivity.
Qed.

Lemma started_entry a b now (w : World F) :
  w_state w = started env a b now ->
  generates_in (w_trace w) = g0 -> tweets_in (w_trace w) = t0 ->
  graph_entry env g0 t0 scrape_sources w.
Proof.
  intros Hs Hg Ht. unfold graph_entry. rewrite Hs, Hg, Ht, app_nil_r.
  split; [|split; [apply started_no_error|split; [|split]]].
  - destruct a, b; repeat split.
  - destruct a, b; cbn; eauto.
  - destruct a, b; cbn; auto.
  - auto.
Qed.

End RunOutcomes.

Section RunSummary.
Context {F : Type} {PF : PyFloat F}.
Variable env : Env F.

Lemma run_workflow_outcome a b (w : World F) :
  exists w',
    run_workflow env a b w = (Ok tt, w')
    /\ run_outcome env (generates_in (w_trace w)) (tweets_in (w_trace w)) w'.
Proof.
  set (g0 := generates_in (w_trace w)). set (t0 := tweets_in (w_trace w)).
  rewrite run_workflow_unfold.
  set (w1 := {| w_state := started env a b (clock env (S (w_reads w)));
                w_reads := S (S (w_reads w)); w_trace := w_trace w |}).
  assert (Hentry1 : graph_entry env g0 t0 scrape_sources w1)
    by (eapply started_entry; reflexivity).
  set (wid := fresh_workflow_id env).
  assert (Hlog : forall op (v : World F),
             generates_in (w_trace (logged op v)) = generates_in (w_trace v)
             /\ tweets_in (w_trace (logged op v)) = tweets_in (w_trace v)).
  { intros op v. apply (calls_after_ledger v [EvLedger op]).
    repeat constructor. }
  (* create_workflow_record *)
  destruct (db_cases env (create_workflow_record wid) w1)
    as [(msg & H1)|(_ & H1)].
  { destruct (Hlog (create_workflow_record wid) w1) as [Hg Ht].
    destruct (except_outcome env g0 t0 msg w1
                (logged (create_workflow_record wid) w1)
                (exit_of_entry env g0 t0 w1 Hentry1) eq_refl Hg Ht)
      as (w' & H & Hout).
    exists w'. split; [|exact Hout].
    erewrite try_raise; [exact H|].
    unfold run_body. erewrite bind_raise; [reflexivity | exact H1]. }
  set (w2 := logged (create_workflow_record wid) w1) in *.
  assert (Hentry2 : graph_entry env g0 t0 scrape_sources w2).
  { destruct (Hlog (create_workflow_record wid) w1) as [Hg Ht].
    eapply started_entry; [reflexivity | |]; unfold w2.
    - rewrite Hg. reflexivity.
    - rewrite Ht. reflexivity. }
  destruct (graph_run env g0 t0 w2 Hentry2) as (w3 & H3 & Hexit).
  (* update_workflow_stats *)
  destruct (db_cases env (update_workflow_stats wid) w3)
    as [(msg & H4)|(_ & H4)].
  { destruct (Hlog (update_workflow_stats wid) w3) as [Hg Ht].
    destruct (except_outcome env g0 t0 msg w3
                (logged (update_workflow_stats wid) w3) Hexit eq_refl Hg Ht)
      as (w' & H & Hout).
    exists w'. split; [|exact Hout].
    erewrite try_raise; [exact H|].
    unfold run_body. erewrite bind_ok; [|exact H1].
    erewrite bind_ok; [|exact H3].
    erewrite bind_raise; [reflexivity | exact H4]. }
  set (w4 := logged (update_workflow_stats wid) w3) in *.
  destruct (Hlog (update_workflow_stats wid) w3) as [Hg4 Ht4]. fold w4 in Hg4, Ht4.
  destruct (truthy (error_message (w_state w4))) eqn:Etr.
  - (* the graph failed *)
    set (emsg := default "" (error_message (w_state w4))).
    destruct (db_cases env (db_fail_workflow wid emsg) w4)
      as [(msg & H5)|(_ & H5)].
    + destruct (Hlog (db_fail_workflow wid emsg) w4) as [Hg Ht].
      destruct (except_outcome env g0 t0 msg w3
                  (logged (db_fail_workflow wid emsg) w4) Hexit eq_refl
                  (eq_trans Hg Hg4) (eq_trans Ht Ht4))
        as (w' & H & Hout).
      exists w'. split; [|exact Hout].
      erewrite try_raise; [exact H|].
      unfold run_body. erewrite bind_ok; [|exact H1].
      erewrite bind_ok; [|exact H3].
      erewrite bind_ok; [|exact H4].
      erewrite bind_ok; [|reflexivity]. rewrite Etr.
      erewrite bind_raise; [reflexivity | exact H5].
    + eexists. split.
      * erewrite try_ok; [reflexivity|].
        unfold run_body. erewrite bind_ok; [|exact H1].
        erewrite bind_ok; [|exact H3].
        erewrite bind_ok; [|exact H4].
        erewrite bind_ok; [|reflexivity]. rewrite Etr.
        erewrite bind_ok; [|exact H5].
        apply state_fail_workflow_run.
      * destruct (Hlog (db_fail_workflow wid emsg) w4) as [Hg Ht].
        apply (outcome_of_exit env g0 t0 w3); [exact Hexit| | |].
        -- cbn [w_trace].
           destruct (calls_after_ledger
                       (logged (db_fail_workflow wid emsg) w4)
                       [EvAssignCompletedAt]) as [Hg6 _];
             [repeat constructor|].
           rewrite Hg6, Hg, Hg4. reflexivity.
        -- cbn [w_trace].
           destruct (calls_after_ledger
                       (logged (db_fail_workflow wid emsg) w4)
                       [EvAssignCompletedAt]) as [_ Ht6];
             [repeat constructor|].
           rewrite Ht6, Ht, Ht4. reflexivity.
        -- eexists. right. exists emsg. split; [reflexivity|].
           unfold emsg. cbn [w4 logged w_state] in *.
           destruct (error_message (w_state w3)); [exact Etr | discriminate].
  - (* the graph succeeded *)
    assert (Hnone : error_message (w_state w3) = None).
    { destruct Hexit as (_ & _ & [Hn|Hn] & _); [exact Hn|].
      cbn [w4 logged w_state] in Etr. congruence. }
    destruct (db_cases env (db_complete_workflow wid) w4)
      as [(msg & H5)|(_ & H5)].
    + destruct (Hlog (db_complete_workflow wid) w4) as [Hg Ht].
      destruct (except_outcome env g0 t0 msg w3
                  (logged (db_complete_workflow wid) w4) Hexit eq_refl
                  (eq_trans Hg Hg4) (eq_trans Ht Ht4))
        as (w' & H & Hout).
      exists w'. split; [|exact Hout].
      erewrite try_raise; [exact H|].
      unfold run_body. erewrite bind_ok; [|exact H1].
      erewrite bind_ok; [|exact H3].
      erewrite bind_ok; [|exact H4].
      erewrite bind_ok; [|reflexivity]. rewrite Etr.
      erewrite bind_raise; [reflexivity | exact H5].
    + eexists. split.
      * erewrite try_ok; [reflexivity|].
        unfold run_body. erewrite bind_ok; [|exact H1].
        erewrite bind_ok; [|exact H3].
        erewrite bind_ok; [|exact H4].
        erewrite bind_ok; [|reflexivity]. rewrite Etr.
        erewrite bind_ok; [|exact H5].
        apply state_complete_workflow_run.
      * destruct (Hlog (db_complete_workflow wid) w4) as [Hg Ht].
        apply (outcome_of_exit env g0 t0 w3); [exact Hexit| | |].
        -- cbn [w_trace].
           destruct (calls_after_ledger
                       (logged (db_complete_workflow wid) w4)
                       [EvAssignCompletedAt]) as [Hg6 _];
             [repeat constructor|].
           rewrite Hg6, Hg, Hg4. reflexivity.
        -- cbn [w_trace].
           destruct (calls_after_ledger
                       (logged (db_complete_workflow wid) w4)
                       [EvAssignCompletedAt]) as [_ Ht6];
             [repeat constructor|].
           rewrite Ht6, Ht, Ht4. reflexivity.
        -- eexists. left. split; [reflexivity | exact Hnone].
Qed.

End RunSummary.

(** ** What every run leaves behind *)

Lemma posted_or_failed_count {F} (rs : list (PostResult F)) :
  Forall (fun r => status r = POSTED \/ status r = FAILED) rs ->
  (length (List.filter (fun r => PostStatus_eqb (status r) POSTED) rs)
   + length (List.filter (fun r => PostStatus_eqb (status r) FAILED) rs)
   = length rs)%nat.
Proof.
  induction 1 as [|r rs [Hr|Hr] _ IH]; [reflexivity| |];
    cbn; rewrite Hr; cbn; lia.
Qed.

Lemma funnel_counters {F} {PF : PyFloat F} (env : Env F) (s : TrendState F) :
  funnel env s ->
  (total_posted s + total_failed s = Z.of_nat (length (results s))
   /\ 0 <= total_posted s /\ 0 <= total_failed s
   /\ total_posted s + total_failed s <= total_generated s
   /\ total_generated s <= total_scored s
   /\ total_scored s <= total_scraped s)%Z.
Proof.
  intros ((C1 & C2 & C3 & C4 & C5) & (S1 & _) & (G1 & _) & (R1 & R2)).
  assert (Hcount := posted_or_failed_count (results s)).
  unfold get_successful_posts, get_failed_posts in *.
  assert (Hab : (length (get_posts_above_threshold s)
                 <= length (scored_posts s))%nat)
    by apply List.filter_length_le.
  rewrite C1, C2, C3, C4, C5.
  assert (Hst : Forall (fun r => status r = POSTED \/ status r = FAILED)
                       (results s)).
  { eapply List.Forall_impl; [|exact R2]. intros r [H _]. exact H. }
  specialize (Hcount Hst). lia.
Qed.





(* ================================================================== *)
(** * Controlling the scheduler *)

Section SchedulerControls.
Import Scheduler SchedulerControl.

Lemma process_job_id now inst j : id (fst (process_job now inst j)) = id j.
Proof.
  unfold process_job. destruct (next_run_time j) as [due|]; [|reflexivity].
  destruct (due <=? now)%Z; reflexivity.
Qed.

Lemma process_jobs_ids now js : forall inst,
  map id (fst (process_jobs now js inst)) = map id js.
Proof.
  induction js as [|j rest IH]; intros inst; cbn [process_jobs].
  - reflexivity.
  - pose proof (process_job_id now inst j) as Hj.
    destruct (process_job now inst j) as [j1 inst1].
    specialize (IH inst1).
    destruct (process_jobs now rest inst1) as [rest2 inst2].
    cbn [fst map] in *. rewrite Hj, IH. reflexivity.
Qed.

Lemma wakeup_ids now s : map id (jobstore (wakeup now s)) = map id (jobstore s).
Proof.
  unfold wakeup.
  pose proof (process_jobs_ids now (jobstore s) (instances s)) as H.
  destruct (process_jobs now (jobstore s) (instances s)) as [js inst].
  exact H.
Qed.

Lemma modify_next_run_time_ids job_id t s :
  map id (jobstore (modify_next_run_time job_id t s)) = map id (jobstore s).
Proof.
  unfold modify_next_run_time. cbn [jobstore]. rewrite map_map.
  apply map_ext. intros j. destruct (String.eqb (id j) job_id); reflexivity.
Qed.

Lemma new_manager_consistent interval : consistent interval (new_manager interval).
Proof. split; reflexivity. Qed.

Lemma start_consistent interval now m :
  consistent interval m -> consistent interval (start now m).
Proof.
  intros H. unfold start.
  destruct (running m) eqn:Er; [exact H|]. destruct H as [Hi Hm].
  cbn. split; [exact Hi|]. split; [reflexivity|]. split; [reflexivity|].
  split.
  - repeat constructor.
  - intros job_id. unfold in_flight. cbn. rewrite lookup_empty. cbn. lia.
Qed.

Lemma stop_consistent interval m :
  consistent interval m -> consistent interval (stop m).
Proof.
  intros H. unfold stop.
  destruct (running m) eqn:Er; cbn [negb]; [|exact H].
  destruct H as [Hi Hm]. split; [exact Hi | reflexivity].
Qed.

Lemma with_scheduler_consistent interval f m :
  (forall s, map id (jobstore (f s)) = map id (jobstore s)) ->
  (forall s, single_instance s -> single_instance (f s)) ->
  consistent interval m -> consistent interval (with_scheduler f m).
Proof.
  intros Hids Hsingle [Hi Hm]. split; [exact Hi|].
  unfold with_scheduler. cbn [scheduler running].
  destruct (scheduler m) as [s|]; cbn; [|exact Hm].
  destruct Hm as (Hr & Hj & Hs). rewrite Hids. auto.
Qed.

Lemma pause_job_consistent interval job_id m :
  consistent interval m -> consistent interval (snd (pause_job job_id m)).
Proof.
  intros Hm. unfold pause_job.
  destruct (scheduler m) as [s|] eqn:Es; [|exact Hm].
  destruct (get_job job_id s); [|exact Hm]. cbn [snd].
  apply with_scheduler_consistent; [| |exact Hm].
  - apply modify_next_run_time_ids.
  - apply modify_next_run_time_single.
Qed.

Lemma run_job_now_consistent interval job_id now m :
  consistent interval m -> consistent interval (snd (run_job_now job_id now m)).
Proof.
  intros Hm. unfold run_job_now.
  destruct (scheduler m) as [s|] eqn:Es; [|exact Hm].
  destruct (get_job job_id s); [|exact Hm]. cbn [snd].
  apply with_scheduler_consistent; [| |exact Hm].
  - apply modify_next_run_time_ids.
  - apply modify_next_run_time_single.
Qed.

Lemma step_consistent interval m e :
  consistent interval m -> consistent interval (step m e).
Proof.
  intros Hm. destruct e as [now|job_id|job_id now]; cbn [step].
  - apply with_scheduler_consistent; [| |exact Hm].
    + apply wakeup_ids.
    + apply wakeup_single.
  - apply with_scheduler_consistent; [| |exact Hm].
    + reflexivity.
    + apply job_done_single.
  - apply run_job_now_consistent, Hm.
Qed.

Lemma control_consistent interval m c :
  consistent interval m -> consistent interval (control m c).
Proof.
  intros Hm. destruct c as [now| |job_id|e]; cbn [control].
  - apply start_consistent, Hm.
  - apply stop_consistent, Hm.
  - apply pause_job_consistent, Hm.
  - apply step_consistent, Hm.
Qed.

Lemma controls_consistent interval cs : forall m,
  consistent interval m -> consistent interval (controls cs m).
Proof.
  unfold controls. induction cs as [|c rest IH]; intros m Hm; cbn [fold_left].
  - exact Hm.
  - apply IH, control_consistent, Hm.
Qed.

Lemma get_job_registered job_id s :
  In job_id (map id (jobstore s)) ->
  exists j, get_job job_id s = Some j /\ id j = job_id.
Proof.
  unfold get_job. induction (jobstore s) as [|j rest IH]; cbn [map List.find].
  - intros [].
  - intros Hin. destruct (String.eqb (id j) job_id) eqn:E.
    + exists j. split; [reflexivity|]. apply String.eqb_eq, E.
    + apply IH. destruct Hin as [Hin|Hin]; [|exact Hin].
      apply String.eqb_neq in E. contradiction.
Qed.

Lemma get_job_unregistered job_id s :
  ~ In job_id (map id (jobstore s)) -> get_job job_id s = None.
Proof.
  unfold get_job. induction (jobstore s) as [|j rest IH]; cbn [map List.find].
  - reflexivity.
  - intros Hin. destruct (String.eqb (id j) job_id) eqn:E.
    + apply String.eqb_eq in E. exfalso. apply Hin. left. exact E.
    + apply IH. intros H. apply Hin. right. exact H.
Qed.

Lemma get_job_id job_id s j : get_job job_id s = Some j -> id j = job_id.
Proof.
  unfold get_job. intros H. apply List.find_some in H.
  apply String.eqb_eq, H.
Qed.

Lemma get_job_In job_id s j : get_job job_id s = Some j -> In j (jobstore s).
Proof. unfold get_job. intros H. apply List.find_some in H. apply H. Qed.

(** *** A paused job *)

Lemma process_job_paused job_id now inst j :
  (id j = job_id -> next_run_time j = None) ->
  (id (fst (process_job now inst j)) = job_id ->
   next_run_time (fst (process_job now inst j)) = None)
  /\ snd (process_job now inst j) !! job_id = inst !! job_id.
Proof.
  intros Hj. unfold process_job.
  destruct (next_run_time j) as [due|] eqn:En; [|auto].
  destruct (due <=? now)%Z; [|cbn [fst snd]; rewrite En; auto].
  cbn [fst snd]. assert (Hne : id j <> job_id).
  { intros Heq. specialize (Hj Heq). discriminate. }
  split; [intros Heq; contradiction|].
  unfold submit_job.
  destruct (max_instances j <=? default 0%nat (inst !! id j))%nat;
    [reflexivity|].
  cbn. apply lookup_insert_ne. exact Hne.
Qed.

Lemma process_jobs_paused job_id now js : forall inst,
  Forall (fun j => id j = job_id -> next_run_time j = None) js ->
  Forall (fun j => id j = job_id -> next_run_time j = None)
         (fst (process_jobs now js inst))
  /\ snd (process_jobs now js inst) !! job_id = inst !! job_id.
Proof.
  induction js as [|j rest IH]; intros inst Hjs; cbn [process_jobs].
  - split; [constructor | reflexivity].
  - inversion Hjs as [|j' rest' Hj Hrest]; subst.
    destruct (process_job_paused job_id now inst j Hj) as [H1 H2].
    destruct (process_job now inst j) as [j1 inst1].
    destruct (IH inst1 Hrest) as [H3 H4].
    destruct (process_jobs now rest inst1) as [rest2 inst2].
    cbn [fst snd] in *. split; [constructor; assumption|].
    rewrite H4. exact H2.
Qed.

Lemma job_done_shrinks k s job_id :
  (in_flight (job_done k s) job_id <= in_flight s job_id)%nat.
Proof.
  unfold in_flight, job_done. cbn [instances].
  destruct (instances s !! k) as [[|[|n]]|] eqn:E; try lia.
  - destruct (decide (k = job_id)) as [Heq|Hne]; [subst k|].
    + rewrite lookup_delete_eq. cbn. lia.
    + rewrite lookup_delete_ne by exact Hne. lia.
  - destruct (decide (k = job_id)) as [Heq|Hne]; [subst k|].
    + rewrite lookup_delete_eq. cbn. lia.
    + rewrite lookup_delete_ne by exact Hne. lia.
  - destruct (decide (k = job_id)) as [Heq|Hne]; [subst k|].
    + rewrite lookup_insert_eq, E. cbn. lia.
    + rewrite lookup_insert_ne by exact Hne. lia.
Qed.

Lemma step_paused job_id m e :
  leaves_alone job_id e -> paused job_id m ->
  paused job_id (step m e)
  /\ (executions (step m e) job_id <= executions m job_id)%nat.
Proof.
  unfold paused, executions. intros He Hp.
  destruct e as [now|k|k now]; cbn [step leaves_alone] in *.
  - unfold with_scheduler. cbn [scheduler].
    destruct (scheduler m) as [s|]; cbn; [|auto].
    unfold wakeup, in_flight.
    destruct (process_jobs_paused job_id now (jobstore s) (instances s) Hp)
      as [H1 H2].
    destruct (process_jobs now (jobstore s) (instances s)) as [js inst].
    cbn [fst snd jobstore instances] in *. rewrite H2. auto.
  - unfold with_scheduler. cbn [scheduler].
    destruct (scheduler m) as [s|]; cbn; [|auto].
    split; [exact Hp | apply job_done_shrinks].
  - unfold run_job_now.
    destruct (scheduler m) as [s|] eqn:Es; cbn [snd]; [|rewrite Es; auto].
    destruct (get_job k s); cbn [snd]; [|rewrite Es; auto].
    unfold with_scheduler. cbn [scheduler]. rewrite Es. cbn.
    split; [|unfold in_flight; cbn; lia].
    rewrite Forall_map. eapply Forall_impl; [exact Hp|].
    intros j' Hj. cbn beta.
    destruct (String.eqb (id j') k) eqn:E; [|exact Hj].
    apply String.eqb_eq in E. intros Heq. change (id j' = job_id) in Heq. congruence.
Qed.

Lemma run_paused job_id evs : forall m,
  Forall (leaves_alone job_id) evs -> paused job_id m ->
  paused job_id (run evs m)
  /\ (executions (run evs m) job_id <= executions m job_id)%nat.
Proof.
  unfold run. induction evs as [|e rest IH]; intros m Hevs Hp; cbn [fold_left].
  - auto.
  - inversion Hevs as [|e' rest' He Hrest]; subst.
    destruct (step_paused job_id m e He Hp) as [H1 H2].
    destruct (IH (step m e) Hrest H1) as [H3 H4]. split; [exact H3 | lia].
Qed.

Lemma pause_job_paused job_id m : paused job_id (snd (pause_job job_id m)).
Proof.
  unfold pause_job, paused.
  destruct (scheduler m) as [s|] eqn:Es; cbn [snd]; [|rewrite Es; exact I].
  destruct (get_job job_id s) as [j|] eqn:Eg; cbn [snd].
  - unfold with_scheduler. cbn [scheduler]. rewrite Es. cbn.
    rewrite Forall_map. apply Forall_forall. intros j' _. cbn beta.
    destruct (String.eqb (id j') job_id) eqn:E; [reflexivity|].
    apply String.eqb_neq in E. intros Heq. contradiction.
  - rewrite Es. apply Forall_forall. intros j' Hin Heq.
    unfold get_job in Eg.
    apply list_elem_of_In in Hin. apply (List.find_none _ _ Eg) in Hin.
    apply String.eqb_neq in Hin. contradiction.
Qed.

Lemma pause_job_keeps_executions job_id m k :
  executions (snd (pause_job job_id m)) k = executions m k.
Proof.
  unfold pause_job, executions.
  destruct (scheduler m) as [s|] eqn:Es; cbn [snd]; [|rewrite Es; reflexivity].
  destruct (get_job job_id s); cbn [snd]; [|rewrite Es; reflexivity].
  unfold with_scheduler. cbn [scheduler]. rewrite Es. reflexivity.
Qed.

Lemma paused_next_run job_id m : paused job_id m -> next_run_of m job_id = None.
Proof.
  unfold paused, next_run_of. destruct (scheduler m) as [s|]; [|reflexivity].
  intros Hp. destruct (get_job job_id s) as [j|] eqn:Eg; [|reflexivity].
  cbn. rewrite Forall_forall in Hp. apply Hp.
  - apply list_elem_of_In. eapply get_job_In, Eg.
  - eapply get_job_id, Eg.
Qed.

(** *** A manual trigger *)

Lemma process_job_single now inst j :
  max_instances j = 1%nat ->
  (forall k, (default 0%nat (inst !! k) <= 1)%nat) ->
  (forall k, (default 0%nat (snd (process_job now inst j) !! k) <= 1)%nat)
  /\ (forall k, (default 0%nat (inst !! k)
                 <= default 0%nat (snd (process_job now inst j) !! k))%nat).
Proof.
  intros Hj Hinst. unfold process_job.
  destruct (next_run_time j) as [due|]; [|cbn; auto].
  destruct (due <=? now)%Z; [|cbn; auto]. cbn [fst snd]. split.
  - apply submit_job_single; assumption.
  - intros k. apply submit_job_grows.
Qed.

Lemma process_job_starts now inst j due :
  max_instances j = 1%nat -> next_run_time j = Some due -> (due <= now)%Z ->
  (1 <= default 0%nat (snd (process_job now inst j) !! id j))%nat.
Proof.
  intros Hmax Hdue Hle. unfold process_job. rewrite Hdue.
  apply Z.leb_le in Hle. rewrite Hle. cbn [snd]. unfold submit_job.
  rewrite Hmax.
  destruct (1 <=? default 0%nat (inst !! id j))%nat eqn:E.
  - apply Nat.leb_le in E. exact E.
  - cbn. rewrite lookup_insert_eq. cbn. lia.
Qed.

Lemma process_jobs_starts job_id now js : forall inst,
  Forall (fun j => max_instances j = 1%nat) js ->
  (forall k, (default 0%nat (inst !! k) <= 1)%nat) ->
  (exists j due, In j js /\ id j = job_id /\ next_run_time j = Some due
                 /\ (due <= now)%Z) ->
  (1 <= default 0%nat (snd (process_jobs now js inst) !! job_id))%nat.
Proof.
  induction js as [|j rest IH]; intros inst Hjs Hinst (j0 & due & Hin & Hid & Hdue & Hle).
  - destruct Hin.
  - inversion Hjs as [|j' rest' Hj Hrest]; subst. cbn [process_jobs].
    destruct (process_job_single now inst j Hj Hinst) as [Hb Hg].
    destruct Hin as [Heq|Hin].
    + subst j0.
      pose proof (process_job_starts now inst j due Hj Hdue Hle) as H1.
      destruct (process_job now inst j) as [j1 inst1]. cbn [snd] in *.
      destruct (process_jobs_single now rest inst1 Hrest Hb) as (_ & _ & H3).
      destruct (process_jobs now rest inst1) as [rest2 inst2].
      cbn [snd] in *. specialize (H3 (id j)). lia.
    + destruct (process_job now inst j) as [j1 inst1]. cbn [snd] in *.
      specialize (IH inst1 Hrest Hb).
      destruct (process_jobs now rest inst1) as [rest2 inst2].
      cbn [snd] in *. apply IH. exists j0, due. auto.
Qed.

Lemma modify_next_run_time_other job_id t s k :
  k <> job_id ->
  get_job k (modify_next_run_time job_id t s) = get_job k s.
Proof.
  intros Hne. unfold get_job, modify_next_run_time. cbn [jobstore].
  induction (jobstore s) as [|j rest IH]; cbn [map List.find]; [reflexivity|].
  destruct (String.eqb (id j) job_id) eqn:E.
  - apply String.eqb_eq in E.
    change (id (set_next_run_time t j)) with (id j).
    assert (Hk : String.eqb (id j) k = false)
      by (apply String.eqb_neq; congruence).
    rewrite Hk. exact IH.
  - destruct (String.eqb (id j) k); [reflexivity | exact IH].
Qed.

Lemma modify_next_run_time_same job_id t s j :
  get_job job_id s = Some j ->
  get_job job_id (modify_next_run_time job_id t s)
  = Some (set_next_run_time t j).
Proof.
  unfold get_job, modify_next_run_time. cbn [jobstore].
  induction (jobstore s) as [|j' rest IH]; cbn [map List.find];
    [discriminate|].
  destruct (String.eqb (id j') job_id) eqn:E.
  - intros H. injection H as <-.
    change (id (set_next_run_time t j')) with (id j'). rewrite E.
    reflexivity.
  - rewrite E. exact IH.
Qed.

End SchedulerControls.

(** X17.  Whatever is done to a new manager (starts, stops, pauses, wake-ups,
    instances ending, manual triggers): [is_running] is the [running]
    flag; a running manager holds exactly the four registered jobs and a
    stopped one holds none, reports no run times, and raises
    RuntimeError on [run_job_now] and [pause_job]; no job id has more
    than one execution in flight; the configured interval is kept; and
    [stop] always leaves it stopped, [start] always leaves it running. *)
Theorem scheduler_holds_its_four_jobs_or_none
  (interval : Z) (cs : list SchedulerControl.Control) :
  let m := SchedulerControl.controls cs (Scheduler.new_manager interval) in
  SchedulerControl.is_running m = Scheduler.running m
  /\ (SchedulerControl.is_running m = true ->
      SchedulerControl.job_ids m = SchedulerControl.registered)
  /\ (SchedulerControl.is_running m = false ->
      SchedulerControl.job_ids m = []
      /\ SchedulerControl.get_next_run_times m = []
      /\ forall job_id now,
           fst (Scheduler.run_job_now job_id now m)
           = Raise RuntimeError "Scheduler is not running"
           /\ fst (SchedulerControl.pause_job job_id m)
              = Raise RuntimeError "Scheduler is not running")
  /\ (forall job_id, (Scheduler.executions m job_id <= 1)%nat)
  /\ Scheduler.interval_minutes m = interval
  /\ SchedulerControl.is_running
       (SchedulerControl.control m SchedulerControl.Stop) = false
  /\ forall now,
       SchedulerControl.is_running
         (SchedulerControl.control m (SchedulerControl.Start now)) = true.
Proof.
  intros m.
  assert (Hm : SchedulerControl.consistent interval m)
    by apply controls_consistent, new_manager_consistent.
  assert (Hstop : SchedulerControl.consistent interval
                    (SchedulerControl.control m SchedulerControl.Stop))
    by apply control_consistent, Hm.
  assert (Hstart : forall now, SchedulerControl.consistent interval
            (SchedulerControl.control m (SchedulerControl.Start now)))
    by (intros now; apply control_consistent, Hm).
  clearbody m. destruct Hm as [Hi Hm].
  unfold SchedulerControl.is_running, SchedulerControl.job_ids,
    SchedulerControl.get_next_run_times, Scheduler.run_job_now,
    SchedulerControl.pause_job, Scheduler.executions.
  split; [|split; [|split; [|split; [|split; [exact Hi|split]]]]].
  - destruct (Scheduler.scheduler m); [destruct Hm as [-> _] | rewrite Hm];
      reflexivity.
  - destruct (Scheduler.scheduler m); [intros _; apply Hm|].
    rewrite Hm. discriminate.
  - destruct (Scheduler.scheduler m);
      [destruct Hm as [-> _]; discriminate | auto].
  - intros job_id. destruct (Scheduler.scheduler m); [apply Hm | lia].
  - destruct Hstop as [_ Hstop]. cbn [SchedulerControl.control] in *.
    unfold SchedulerControl.stop in *.
    destruct (Scheduler.running m) eqn:Er; cbn [negb] in *.
    + reflexivity.
    + rewrite Er. reflexivity.
  - intros now. specialize (Hstart now). destruct Hstart as [_ Hstart].
    cbn [SchedulerControl.control] in *. unfold Scheduler.start in *.
    destruct (Scheduler.running m) eqn:Er.
    + rewrite Er. destruct (Scheduler.scheduler m); [reflexivity|].
      congruence.
    + reflexivity.
Qed.

(** X18.  After [pause_job] for a job id, and as long as [run_job_now] is not
    called for that id, the scheduler never starts the job: whatever
    wake-ups, ended instances and triggers of other jobs follow, the
    job has no next run time and the number of its executions in flight
    does not grow. *)
Theorem paused_job_is_never_started
  (m : Scheduler.SchedulerManager) (job_id : string)
  (events : list Scheduler.Event) :
  Forall (SchedulerControl.leaves_alone job_id) events ->
  let m' := Scheduler.run events (snd (SchedulerControl.pause_job job_id m)) in
  SchedulerControl.next_run_of m' job_id = None
  /\ (Scheduler.executions m' job_id <= Scheduler.executions m job_id)%nat.
Proof.
  intros Hevs m'.
  destruct (run_paused job_id events _ Hevs (pause_job_paused job_id m))
    as [H1 H2].
  split; [apply paused_next_run, H1|].
  rewrite pause_job_keeps_executions in H2. exact H2.
Qed.

Lemma paused_job_is_never_started_witness :
  let m := Scheduler.start 0 (Scheduler.new_manager 5) in
  let events := [Scheduler.Wakeup 300; Scheduler.RunJobNow "metrics_job" 310;
                 Scheduler.Wakeup 4000] in
  let m' := Scheduler.run events
              (snd (SchedulerControl.pause_job "workflow_job" m)) in
  SchedulerControl.next_run_of m' "workflow_job" = None
  /\ (Scheduler.executions m' "workflow_job"
      <= Scheduler.executions m "workflow_job")%nat.
Proof.
  apply (paused_job_is_never_started
           (Scheduler.start 0 (Scheduler.new_manager 5)) "workflow_job").
  repeat constructor; cbn; discriminate.
Defined.

(** X19.  On a running manager, [run_job_now] for a registered job sets that
    job's next run time to the given time, leaves the other jobs' run
    times and all executions as they are, and after the next wake-up at
    or after that time exactly one instance of the job is in flight
    (started if it was idle, not doubled if it was running); for an id
    that is not registered it answers without success and changes
    nothing. *)
Theorem manual_trigger_runs_one_instance
  (interval : Z) (cs : list SchedulerControl.Control)
  (job_id : string) (now : Z) :
  let m := SchedulerControl.controls cs (Scheduler.new_manager interval) in
  SchedulerControl.is_running m = true ->
  let m1 := snd (Scheduler.run_job_now job_id now m) in
  (In job_id SchedulerControl.registered ->
     (exists a, fst (Scheduler.run_job_now job_id now m) = Ok a
                /\ Scheduler.success a = true)
     /\ SchedulerControl.next_run_of m1 job_id = Some now
     /\ (forall other, other <> job_id ->
           SchedulerControl.next_run_of m1 other
           = SchedulerControl.next_run_of m other)
     /\ (forall k, Scheduler.executions m1 k = Scheduler.executions m k)
     /\ forall later, (now <= later)%Z ->
          Scheduler.executions (Scheduler.step m1 (Scheduler.Wakeup later))
            job_id = 1%nat)
  /\ (~ In job_id SchedulerControl.registered ->
      Scheduler.run_job_now job_id now m
      = (Ok {| Scheduler.success := false;
               Scheduler.message := "Job " +:+ job_id +:+ " not found" |},
         m)).
Proof.
  intros m Hrun m1.
  assert (Hm : SchedulerControl.consistent interval m)
    by apply controls_consistent, new_manager_consistent.
  assert (Hm1 : SchedulerControl.consistent interval m1)
    by apply run_job_now_consistent, Hm.
  unfold m1 in *. clear m1. clearbody m.
  destruct Hm as [Hi Hm]. destruct Hm1 as [_ Hm1].
  unfold SchedulerControl.is_running in Hrun.
  unfold Scheduler.run_job_now in *.
  unfold SchedulerControl.next_run_of, Scheduler.executions.
  destruct (Scheduler.scheduler m) as [s|] eqn:Es;
    [|rewrite andb_false_r in Hrun; discriminate].
  destruct Hm as (Hr & Hids & Hs). split.
  - intros Hin. rewrite <- Hids in Hin.
    destruct (get_job_registered job_id s Hin) as (j & Hj & Hid).
    rewrite Hj in *. cbn [fst snd] in *.
    unfold Scheduler.with_scheduler in *. cbn [Scheduler.scheduler] in *.
    rewrite Es in *. cbn [fmap option_fmap option_map] in *.
    destruct Hm1 as (_ & _ & Hs1).
    split; [eexists; split; reflexivity|].
    split; [rewrite (modify_next_run_time_same _ _ _ _ Hj); reflexivity|].
    split; [intros other Hne;
            rewrite modify_next_run_time_other by exact Hne; reflexivity|].
    split; [reflexivity|].
    intros later Hle. cbn [Scheduler.step]. unfold Scheduler.with_scheduler.
    cbn [Scheduler.scheduler fmap option_fmap option_map].
    set (s1 := Scheduler.modify_next_run_time job_id (Some now) s) in *.
    destruct (wakeup_single later s1 Hs1) as [_ Hle1].
    specialize (Hle1 job_id).
    assert (Hge : (1 <= Scheduler.in_flight (Scheduler.wakeup later s1)
                          job_id)%nat).
    { unfold Scheduler.wakeup, Scheduler.in_flight.
      destruct Hs1 as [Hmax Hinst].
      pose proof (process_jobs_starts job_id later (Scheduler.jobstore s1)
                    (Scheduler.instances s1) Hmax Hinst) as Hst.
      destruct (Scheduler.process_jobs later (Scheduler.jobstore s1)
                  (Scheduler.instances s1)) as [js inst].
      cbn [snd Scheduler.instances] in *. apply Hst.
      exists (Scheduler.set_next_run_time (Some now) j), now.
      split; [|split; [exact Hid | split; [reflexivity | exact Hle]]].
      eapply get_job_In. unfold s1.
      apply modify_next_run_time_same, Hj. }
    lia.
  - intros Hin. rewrite <- Hids in Hin.
    rewrite (get_job_unregistered job_id s Hin). reflexivity.
Qed.

Lemma manual_trigger_runs_one_instance_witness :
  let m := SchedulerControl.controls
             [SchedulerControl.Start 0;
              SchedulerControl.Happens (Scheduler.Wakeup 300)]
             (Scheduler.new_manager 5) in
  Scheduler.executions
    (Scheduler.step (snd (Scheduler.run_job_now "workflow_job" 310 m))
       (Scheduler.Wakeup 311)) "workflow_job" = 1%nat.
Proof.
  refine (let H := manual_trigger_runs_one_instance 5
            [SchedulerControl.Start 0;
             SchedulerControl.Happens (Scheduler.Wakeup 300)]
            "workflow_job" 310 eq_refl in _).
  destruct H as [H _].
  destruct (H ltac:(left; reflexivity)) as (_ & _ & _ & _ & H5).
  apply H5. lia.
Defined.


(* ================================================================== *)
(** * The top posts *)

Section TopPostsExact.
Variable env : Env Q.

Lemma comprehension_top_posts (top : list (ScoredPost Q)) : forall w,
  exists out,
    fst (comprehension (top_post_dict env) top w) = Ok out
    /\ map (fun t => TopPost.score t) out = map score top
    /\ map (fun t => TopPost.reddit_id t) out
       = map (fun p => reddit_id (raw_post p)) top
    /\ map (fun t => TopPost.meets_threshold t) out = map meets_threshold top
    /\ Forall (fun t => (String.length (TopPost.title t) <= 100)%nat) out.
Proof.
  induction top as [|p rest IH]; intros w; cbn [comprehension].
  - exists []. cbn. repeat split; constructor.
  - unfold top_post_dict at 1.
    erewrite bind_ok; cycle 1.
    { erewrite bind_ok; [|apply age_minutes_run]. reflexivity. }
    destruct (IH (tick w)) as (out & Hout & Hs & Hi & Hm & Ht).
    destruct (comprehension (top_post_dict env) rest (tick w))
      as [r w'] eqn:Er. cbn [fst] in Hout. subst r.
    erewrite bind_ok; [|exact Er].
    eexists. split; [reflexivity|]. cbn [map TopPost.score
      TopPost.reddit_id TopPost.meets_threshold].
    rewrite Hs, Hi, Hm. repeat split. constructor; [|exact Ht].
    cbn [TopPost.title]. rewrite length_substring_0. lia.
Qed.

Lemma py_slice_to_length {A} (limit : Z) (l : list A) :
  length (py_slice_to limit l) = slice_length limit (length l).
Proof.
  unfold py_slice_to, slice_length.
  destruct (0 <=? limit)%Z; rewrite length_firstn; lia.
Qed.

Lemma py_slice_to_firstn {A} (limit : Z) (l : list A) :
  py_slice_to limit l = firstn (slice_length limit (length l)) l.
Proof.
  unfold py_slice_to, slice_length. destruct (0 <=? limit)%Z; [|reflexivity].
  destruct (Nat.le_ge_cases (Z.to_nat limit) (length l)) as [H|H].
  - rewrite Nat.min_l by exact H. reflexivity.
  - rewrite Nat.min_r by exact H. rewrite !firstn_all2; auto.
Qed.

Lemma sorted_firstn_skipn (l : list (ScoredPost Q)) : forall k,
  StronglySorted by_score_desc l ->
  Forall (fun p => Forall (fun q => score q <= score p) (skipn k l))
         (firstn k l).
Proof.
  induction l as [|a l IH]; intros k Hs.
  - rewrite firstn_nil. constructor.
  - destruct k as [|k]; [constructor|].
    inversion Hs as [|a' l' Hl Ha]; subst. cbn [firstn skipn].
    constructor; [|apply IH, Hl].
    rewrite <- (firstn_skipn k l) in Ha.
    apply Forall_app in Ha. apply Ha.
Qed.

End TopPostsExact.

(** X21.  In exact arithmetic [get_top_posts_by_score] scores every post and
    returns one entry for each of the first [limit] scored posts, in
    their order (with a negative limit: all but the last [-limit]); the
    entries carry the ids, scores and threshold flags of those posts,
    every score returned is at least every score left out, and every
    title is cut to at most 100 characters. *)
Theorem top_posts_are_the_highest_scored
  (env : Env Q) (posts : list (RawPost Q)) (limit : Z) (w : World Q) :
  exists out scored,
    fst (get_top_posts_by_score env posts limit w) = Ok out
    /\ fst (score_posts env posts w) = Ok scored
    /\ length scored = length posts
    /\ length out = slice_length limit (length posts)
    /\ map (fun t => TopPost.score t) out
       = firstn (length out) (map score scored)
    /\ map (fun t => TopPost.reddit_id t) out
       = firstn (length out) (map (fun p => reddit_id (raw_post p)) scored)
    /\ map (fun t => TopPost.meets_threshold t) out
       = firstn (length out) (map meets_threshold scored)
    /\ Forall (fun t =>
         Forall (fun p => score p <= TopPost.score t)
                (skipn (length out) scored)) out
    /\ Forall (fun t => (String.length (TopPost.title t) <= 100)%nat) out.
Proof.
  destruct (score_posts_loop_run env posts [] w)
    as (l & w' & Hloop & Hmap & Hall).
  cbn [app] in Hloop.
  assert (Hscore : score_posts env posts w = (Ok (sort_by_score_desc l), w')).
  { unfold score_posts. erewrite bind_ok; [|exact Hloop]. reflexivity. }
  assert (Hlen : length (sort_by_score_desc l) = length posts).
  { rewrite (Permutation_length (sort_by_score_desc_perm l)), <- Hmap,
      length_map. reflexivity. }
  pose proof (sort_by_score_desc_sorted l) as Hsorted.
  set (scored := sort_by_score_desc l) in *.
  destruct (comprehension_top_posts env (py_slice_to limit scored) w')
    as (out & Hout & Hs & Hi & Hm & Ht).
  assert (Hk : length out = slice_length limit (length posts)).
  { rewrite <- (length_map (fun t => TopPost.score t)), Hs, length_map,
      py_slice_to_length, Hlen. reflexivity. }
  exists out, scored. split; [|split; [|split; [|split]]].
  - unfold get_top_posts_by_score. erewrite bind_ok; [|exact Hscore].
    exact Hout.
  - rewrite Hscore. reflexivity.
  - exact Hlen.
  - exact Hk.
  - rewrite py_slice_to_firstn, Hlen, <- Hk in Hs, Hi, Hm.
    rewrite !firstn_map. split; [exact Hs|]. split; [exact Hi|].
    split; [exact Hm|]. split; [|exact Ht].
    pose proof (sorted_firstn_skipn scored (length out) Hsorted) as Htop.
    rewrite py_slice_to_firstn, Hlen, <- Hk in Hout.
    apply Forall_forall. intros t Hin.
    apply list_elem_of_In, (in_map (fun t => TopPost.score t)) in Hin.
    rewrite Hs in Hin. apply in_map_iff in Hin.
    destruct Hin as (p & Hp & Hin). rewrite <- Hp.
    rewrite List.Forall_forall in Htop. apply (Htop p Hin).
Qed.
